(** * NocoDB Simple Client examples: bounded-concurrency dispatch, .env reading
      and the dependency gates of the example scripts.

    The development embeds the scripts of [src/examples]:
    - [async_example.py], [example_custom_concurrency]: a batch of
      [process_with_limit] coroutines run under [asyncio.Semaphore] and
      collected with [asyncio.gather]; and the module top level with its
      [ASYNC_AVAILABLE] gate;
    - [config_file_example.py] and [dotenv_example.py]: the gates, the
      examples and [main].

    The cooperative scheduler of asyncio is a step function on an explicit
    loop state.  The semaphore has its counter and its queue of waiters, a
    released permit going to the first task that waits; the order in which
    the remote calls complete is an oracle. *)

From Stdlib Require Import ZArith String Ascii.
From stdpp Require Import base option list gmap strings pretty.

Open Scope nat_scope.

(** ** Exceptions of the client *)

Module Exceptions.

(** Modelled from the spec: the exception classes of
    [nocodb_simple_client.exceptions], which [async_example.py] imports
    (lines 48-53) but which are not part of the sources at hand.  The
    constructors follow the taxonomy of the specification; the payloads are the
    attributes the example reads ([e.retry_after], [e.message]).  The
    example imports a class for each of the first four; [Timeout] is in the
    taxonomy of the specification only. *)
Inductive RemoteError : Type :=
  | NotFound                                  (* RecordNotFoundException *)
  | AuthenticationFailure                     (* AuthenticationException *)
  | RateLimited (retry_after : Z)             (* RateLimitException *)
  | ServiceError (message : string)           (* NocoDBException *)
  | Timeout.

Inductive ErrorKind : Type :=
  | KNotFound | KAuthenticationFailure | KRateLimited | KServiceError | KTimeout.

Definition kind_of (e : RemoteError) : ErrorKind :=
  match e with
  | NotFound => KNotFound
  | AuthenticationFailure => KAuthenticationFailure
  | RateLimited _ => KRateLimited
  | ServiceError _ => KServiceError
  | Timeout => KTimeout
  end.

Definition taxonomy : list ErrorKind :=
  [KNotFound; KAuthenticationFailure; KRateLimited; KServiceError; KTimeout].

(** What a call can raise in Python: an exception of the client, or any
    other exception, known here by the name of its class.
    [process_with_limit] has no [except] clause, so whatever
    [insert_record] raises leaves it unchanged. *)
Inductive Exception : Type :=
  | NocoDB (e : RemoteError)
  | Other (class_name : string).

End Exceptions.

(** ** The dispatcher of [example_custom_concurrency] *)

Module Dispatcher.

(** What awaiting a single-record call gives: its value, or the exception it
    raised.  The dispatcher never looks into the exception: its type is a
    parameter. *)
Inductive Outcome (V E : Type) : Type :=
  | Success (v : V)
  | Failure (e : E).
Arguments Success {V E} v.
Arguments Failure {V E} e.

(** The life of one [process_with_limit(record)] coroutine once [gather] has
    wrapped it in a task. *)
Inductive task (P V E : Type) : Type :=
  | Created (record_data : P)     (* scheduled, not run yet *)
  | Waiting (record_data : P)     (* suspended in [semaphore.acquire()] *)
  | Woken (record_data : P)       (* given a permit by [release], not resumed *)
  | InFlight (record_data : P)    (* holds a permit, awaits [insert_record] *)
  | Done (r : Outcome V E).       (* returned or raised *)
Arguments Created {P V E} record_data.
Arguments Waiting {P V E} record_data.
Arguments Woken {P V E} record_data.
Arguments InFlight {P V E} record_data.
Arguments Done {P V E} r.

(** What [await asyncio.gather(...)] gives its caller. *)
Inductive gather_result (V E : Type) : Type :=
  | Returned (results : list V)
  | Raised (e : E).
Arguments Returned {V E} results.
Arguments Raised {V E} e.

(** The state shared by the tasks and the event loop: the counter of the
    semaphore ([_value]) and its queue ([_waiters]: the tasks suspended in
    [acquire], in the order they came), as [asyncio.locks.Semaphore] of
    CPython 3.11 keeps them; the children of [gather], its count of finished
    children and its outer future.  [issued] is the log of an instrumented
    collaborator: the payloads of the remote calls, in the order they were
    entered. *)
Record loop_state (P V E : Type) : Type := LoopState {
  semaphore : nat;
  waiters : list nat;
  tasks : list (task P V E);
  nfinished : nat;
  outer : option (gather_result V E);
  issued : list P
}.
Arguments LoopState {P V E}.
Arguments semaphore {P V E}.
Arguments waiters {P V E}.
Arguments tasks {P V E}.
Arguments nfinished {P V E}.
Arguments outer {P V E}.
Arguments issued {P V E}.

Section Dispatch.

Context {P V E : Type}.

(** [table.insert_record]: the single-record collaborator. *)
Variable insert_record : P → Outcome V E.

Abbreviation state := (loop_state P V E).

Definition is_waiting (t : task P V E) : nat :=
  match t with Waiting _ => 1 | _ => 0 end.

Definition is_woken (t : task P V E) : nat :=
  match t with Woken _ => 1 | _ => 0 end.

Definition is_in_flight (t : task P V E) : nat :=
  match t with InFlight _ => 1 | _ => 0 end.

Definition is_done (t : task P V E) : nat :=
  match t with Done _ => 1 | _ => 0 end.

(** Tasks suspended in [semaphore.acquire()] whose future is pending. *)
Definition waiting (s : state) : nat := sum_list_with is_waiting (tasks s).

(** Tasks that [release] gave a permit and that did not resume yet. *)
Definition woken (s : state) : nat := sum_list_with is_woken (tasks s).

(** Number of tasks that entered the remote call and did not leave it. *)
Definition in_flight (s : state) : nat := sum_list_with is_in_flight (tasks s).

Definition finished (s : state) : nat := sum_list_with is_done (tasks s).

(** Permits taken from a semaphore created with [max_concurrent] permits. *)
Definition held (max_concurrent : nat) (s : state) : nat :=
  max_concurrent - semaphore s.

(** [Semaphore.locked()]: the counter is zero or some task is queued (no
    waiter is ever cancelled before the awaited call ends). *)
Definition locked (s : state) : bool :=
  match semaphore s, waiters s with
  | S _, [] => false
  | _, _ => true
  end.

(** The first waiter of the queue whose future is not done. *)
Fixpoint first_pending (l : list (task P V E)) (queue : list nat)
    : option (nat * P) :=
  match queue with
  | [] => None
  | j :: queue' =>
      match l !! j with
      | Some (Waiting record_data) => Some (j, record_data)
      | _ => first_pending l queue'
      end
  end.

(** [Semaphore._wake_up_next()]: the first waiter whose future is not done
    takes a permit off the counter and its future gets its result. *)
Definition wake_up_next (s : state) : state :=
  match first_pending (tasks s) (waiters s) with
  | Some (j, record_data) =>
      LoopState (semaphore s - 1) (waiters s)
                (<[j := Woken record_data]> (tasks s))
                (nfinished s) (outer s) (issued s)
  | None => s
  end.

(** [deque.remove]: the first occurrence goes. *)
Fixpoint remove_first (i : nat) (queue : list nat) : list nat :=
  match queue with
  | [] => []
  | j :: queue' => if decide (j = i) then queue' else j :: remove_first i queue'
  end.

(** The body of [async with semaphore:] starts: the remote call is issued
    and the task suspends on it. *)
Definition enter_body (i : nat) (record_data : P) (s : state) : state :=
  LoopState (semaphore s) (waiters s) (<[i := InFlight record_data]> (tasks s))
            (nfinished s) (outer s) (issued s ++ [record_data]).

(** [async with semaphore:] on entry, [Semaphore.acquire()].  Unless the
    semaphore is locked the counter goes down and the body starts.
    Otherwise the task joins the queue and suspends on a new future. *)
Definition acquire (i : nat) (record_data : P) (s : state) : state :=
  if locked s then
    LoopState (semaphore s) (waiters s ++ [i])
              (<[i := Waiting record_data]> (tasks s))
              (nfinished s) (outer s) (issued s)
  else
    enter_body i record_data
      (LoopState (semaphore s - 1) (waiters s) (tasks s)
                 (nfinished s) (outer s) (issued s)).

(** [Semaphore.acquire()] after [await fut]: the task leaves the queue, wakes
    the next waiter if the counter is positive, and the body starts with the
    permit [release] took off the counter for it. *)
Definition acquire_resumed (i : nat) (record_data : P) (s : state) : state :=
  let s1 := LoopState (semaphore s) (remove_first i (waiters s)) (tasks s)
                      (nfinished s) (outer s) (issued s) in
  enter_body i record_data
    (if semaphore s1 is S _ then wake_up_next s1 else s1).

(** [Semaphore.release()]: the counter goes up and the first waiter, if
    there is one, is woken with the permit. *)
Definition release (s : state) : state :=
  wake_up_next
    (LoopState (S (semaphore s)) (waiters s) (tasks s)
               (nfinished s) (outer s) (issued s)).

(** [fut.result()] of a finished child. *)
Definition child_value (t : task P V E) : option V :=
  match t with Done (Success v) => Some v | _ => None end.

(** The callback [gather] attaches to every child (return_exceptions is
    False): count the child; if the outer future is already done stop; an
    exception of the child becomes the exception of the outer future; when
    the last child is counted the results are read off the children in
    their order. *)
Definition done_callback (r : Outcome V E) (s : state) : state :=
  let n := S (nfinished s) in
  match outer s with
  | Some _ =>
      LoopState (semaphore s) (waiters s) (tasks s) n (outer s) (issued s)
  | None =>
      match r with
      | Failure e =>
          LoopState (semaphore s) (waiters s) (tasks s) n (Some (Raised e))
                    (issued s)
      | Success _ =>
          if decide (n = length (tasks s)) then
            LoopState (semaphore s) (waiters s) (tasks s) n
                      (Returned <$> mapM child_value (tasks s)) (issued s)
          else
            LoopState (semaphore s) (waiters s) (tasks s) n None (issued s)
      end
  end.

(** The remote call of task [i] is over with outcome [r]: leaving the
    [async with] block releases the permit whether the body returned or
    raised, the task is done, and the callback of [gather] runs. *)
Definition release_and_finish (i : nat) (r : Outcome V E) (s : state) : state :=
  let s1 := release s in
  done_callback r
    (LoopState (semaphore s1) (waiters s1) (<[i := Done r]> (tasks s1))
               (nfinished s1) (outer s1) (issued s1)).

(** One resumption of the coroutine [process_with_limit] of task [i], up to
    its next suspension point.  [None]: the task cannot run now, because it
    is done or because it waits in [acquire] for a permit. *)
Definition process_with_limit (i : nat) (s : state) : option state :=
  match tasks s !! i with
  | Some (Created record_data) => Some (acquire i record_data s)
  | Some (Woken record_data) => Some (acquire_resumed i record_data s)
  | Some (InFlight record_data) =>
      Some (release_and_finish i (insert_record record_data) s)
  | Some (Waiting _) | Some (Done _) | None => None
  end.

Definition runnable (s : state) (i : nat) : bool :=
  match tasks s !! i with
  | Some (Created _) | Some (Woken _) | Some (InFlight _) => true
  | Some (Waiting _) | Some (Done _) | None => false
  end.

(** The tasks the loop may resume next. *)
Definition ready (s : state) : list nat :=
  filter (λ i, runnable s i = true) (seq 0 (length (tasks s))).

(** [semaphore = asyncio.Semaphore(max_concurrent)];
    [tasks = [process_with_limit(record) for record in records]];
    [asyncio.gather] over them: with no awaitable the outer future is born
    resolved with the empty list. *)
Definition gather_init (max_concurrent : nat) (records : list P) : state :=
  LoopState max_concurrent [] (Created <$> records) 0
            (if records is [] then Some (Returned []) else None) [].

(** A run of the loop along an explicit list of resumed tasks. *)
Fixpoint exec (trace : list nat) (s : state) : option state :=
  match trace with
  | [] => Some s
  | i :: trace' =>
      match process_with_limit i s with
      | Some s' => exec trace' s'
      | None => None
      end
  end.

(** The event loop: until [stop] holds, resume the ready task the schedule
    designates.  The schedule decides the order of completion of the remote
    calls; when it is exhausted the first ready task runs. *)
Fixpoint run_until (stop : state → bool) (fuel : nat) (schedule : list nat)
    (s : state) : state :=
  match fuel with
  | O => s
  | S fuel' =>
      if stop s then s
      else
        match ready s !! (hd 0 schedule `mod` length (ready s)) with
        | None => s
        | Some i =>
            match process_with_limit i s with
            | Some s' => run_until stop fuel' (tl schedule) s'
            | None => s
            end
        end
  end.

Definition outer_done (s : state) : bool := bool_decide (is_Some (outer s)).

(** Every task resumes at most three times. *)
Definition enough_fuel (records : list P) : nat := 3 * length records.

(** [results = await asyncio.gather] over the tasks: the caller sleeps until the
    outer future is done. *)
Definition await_gather (schedule : list nat) (max_concurrent : nat)
    (records : list P) : state :=
  run_until outer_done (enough_fuel records) schedule
            (gather_init max_concurrent records).

(** The dispatch of [example_custom_concurrency]: the result bound to
    [results], or the exception that leaves the [await]. *)
Definition example_custom_concurrency (schedule : list nat)
    (max_concurrent : nat) (records : list P) : option (gather_result V E) :=
  outer (await_gather schedule max_concurrent records).

(** *** The invariant of the loop *)

(** Task [i] runs [process_with_limit] on record [i]; once done it holds
    the outcome of [insert_record] on that record. *)
Definition task_of (record_data : P) (t : task P V E) : Prop :=
  t = Created record_data ∨ t = Waiting record_data ∨ t = Woken record_data ∨
  t = InFlight record_data ∨ t = Done (insert_record record_data).

Definition no_failure (t : task P V E) : Prop := ∀ e, t ≠ Done (Failure e).

(** The outer future is pending while children are missing and none has
    failed; an exception in it was raised by the call of some record; a list
    in it was put there when the last child was counted and holds the values
    of all the records, in their order. *)
Definition outer_ok (records : list P) (s : state) : Prop :=
  match outer s with
  | None => nfinished s < length records ∧ Forall no_failure (tasks s)
  | Some (Raised e) =>
      ∃ i record_data,
        records !! i = Some record_data ∧ insert_record record_data = Failure e
  | Some (Returned results) =>
      nfinished s = length records ∧
      Success <$> results = insert_record <$> records
  end.

(** The queue of the semaphore holds the tasks suspended in [acquire], each
    once. *)
Definition queue_ok (s : state) : Prop :=
  NoDup (waiters s) ∧
  ∀ i, i ∈ waiters s ↔
       ∃ record_data, tasks s !! i = Some (Waiting record_data) ∨
                      tasks s !! i = Some (Woken record_data).

Record invariant (max_concurrent : nat) (records : list P) (s : state) : Prop :=
  Invariant {
    inv_tasks : Forall2 task_of records (tasks s);
    inv_permits : semaphore s + woken s + in_flight s = max_concurrent;
    inv_nfinished : nfinished s = finished s;
    inv_outer : outer_ok records s;
    inv_issued : length (issued s) = in_flight s + finished s;
    inv_queue : queue_ok s;
    inv_handoff : 0 < semaphore s → 0 < waiting s → 0 < woken s
  }.

(** Resumptions a task still has before it: the variant of the loop. *)
Definition remaining (t : task P V E) : nat :=
  match t with
  | Created _ => 3
  | Waiting _ | Woken _ => 2
  | InFlight _ => 1
  | Done _ => 0
  end.

Definition variant (s : state) : nat := sum_list_with remaining (tasks s).

End Dispatch.

End Dispatcher.

(** ** Collaborators used to run the dispatcher on concrete batches *)

Module Scenario.
Import Exceptions Dispatcher.

(** A service that stores every record and answers with its new id. *)
Definition insert_ok (record_data : nat) : Outcome nat RemoteError :=
  Success (100 + record_data).

(** The service of the specification's example: record 2 is refused. *)
Definition insert_unless_2 (record_data : nat) : Outcome nat RemoteError :=
  if decide (record_data = 2) then Failure NotFound
  else Success (100 + record_data).

(** A service that refuses records 0 and 1 for different reasons. *)
Definition insert_refusing (record_data : nat) : Outcome nat RemoteError :=
  match record_data with
  | 0 => Failure NotFound
  | 1 => Failure AuthenticationFailure
  | _ => Success (100 + record_data)
  end.

(** The same service seen as Python code: its refusals are exceptions of
    the client. *)
Definition insert_raising (record_data : nat) : Outcome nat Exception :=
  match insert_refusing record_data with
  | Success v => Success v
  | Failure e => Failure (NocoDB e)
  end.

(** The batch the example builds: twenty records [{"Name": "Concurrent i"}]
    under [max_concurrent = 5]. *)
Definition max_concurrent : nat := 5.

Definition records : list (list (string * string)) :=
  (λ i : nat, [("Name", "Concurrent " +:+ pretty i)]) <$> seq 0 20.

End Scenario.

(** ** Strings of the scripts *)

Module Text.

Definition newline : string := String (ascii_of_nat 10) EmptyString.
Definition dquote : string := String (ascii_of_nat 34) EmptyString.

(** Python's [s * n]. *)
Fixpoint str_mul (s : string) (n : nat) : string :=
  match n with
  | O => EmptyString
  | S n' => s +:+ str_mul s n'
  end.

Definition rule : string := str_mul "=" 60.

Definition is_space (a : ascii) : bool :=
  (Ascii.eqb a " " || Ascii.eqb a (ascii_of_nat 9) ||
   Ascii.eqb a (ascii_of_nat 13) || Ascii.eqb a (ascii_of_nat 10))%bool.

Fixpoint lstrip (s : string) : string :=
  match s with
  | String a s' => if is_space a then lstrip s' else s
  | EmptyString => EmptyString
  end.

Definition strip (s : string) : string :=
  String.rev (lstrip (String.rev (lstrip s))).

(** [s.split(c)]: the pieces of [s] between the occurrences of [c]. *)
Fixpoint split_on (c : ascii) (s : string) : list string :=
  match s with
  | EmptyString => [EmptyString]
  | String a s' =>
      if Ascii.eqb a c then EmptyString :: split_on c s'
      else
        match split_on c s' with
        | piece :: pieces => String a piece :: pieces
        | [] => [String a EmptyString]
        end
  end.

(** [s.partition(c)] when [c] occurs in [s]. *)
Fixpoint cut_at (c : ascii) (s : string) : option (string * string) :=
  match s with
  | EmptyString => None
  | String a s' =>
      if Ascii.eqb a c then Some (EmptyString, s')
      else
        match cut_at c s' with
        | Some (before, after) => Some (String a before, after)
        | None => None
        end
  end.

End Text.

(** ** [dotenv_example.py] *)

Module Dotenv.
Import Text.

(** What the script can see and change: the process environment, the text
    files by path, and the lines printed so far. *)
Record world : Type := World {
  environ : gmap string string;
  files : gmap string string;
  stdout : list string
}.

(** Statements of the script: functions from world to result and world. *)
Definition Script (A : Type) : Type := world → A * world.

Definition ret {A} (a : A) : Script A := λ w, (a, w).

Definition bind {A B} (m : Script A) (k : A → Script B) : Script B :=
  λ w, let '(a, w') := m w in k a w'.

Notation "x <- m ;; k" := (bind m (λ x, k))
  (at level 100, m at next level, right associativity).
Notation "m ;; k" := (bind m (λ _, k))
  (at level 100, right associativity).

Definition print (line : string) : Script unit :=
  λ w, (tt, World (environ w) (files w) (stdout w ++ [line])).

(** [os.getenv(key, default)]. *)
Definition getenv (key fallback : string) : Script string :=
  λ w, (default fallback (environ w !! key), w).

(** [os.environ[key] = value]. *)
Definition setenv (key value : string) : Script unit :=
  λ w, (tt, World (<[key := value]> (environ w)) (files w) (stdout w)).

Definition env_has (key : string) : Script bool :=
  λ w, (bool_decide (is_Some (environ w !! key)), w).

(** [Path.write_text]. *)
Definition write_text (path content : string) : Script unit :=
  λ w, (tt, World (environ w) (<[path := content]> (files w)) (stdout w)).

(** Reading a file for python-dotenv: a missing file reads as empty. *)
Definition read_text (path : string) : Script string :=
  λ w, (default EmptyString (files w !! path), w).

(** Leaving [with TemporaryDirectory() as tmpdir]: the directory goes, and
    the file the example put in it. *)
Definition cleanup (path : string) : Script unit :=
  λ w, (tt, World (environ w) (delete path (files w)) (stdout w)).

(** A Python dict with string keys, in insertion order.  python-dotenv
    gives a key without [=] the value [None]. *)
Definition dict : Type := list (string * option string).

Fixpoint dict_set (key : string) (value : option string) (d : dict) : dict :=
  match d with
  | [] => [(key, value)]
  | (k, v) :: d' =>
      if String.eqb k key then (k, value) :: d'
      else (k, v) :: dict_set key value d'
  end.

Fixpoint dict_lookup (key : string) (d : dict) : option (option string) :=
  match d with
  | [] => None
  | (k, v) :: d' => if String.eqb k key then Some v else dict_lookup key d'
  end.

(** [d.get(key, default)], printed as [str] does. *)
Definition show (value : option string) : string :=
  match value with Some text => text | None => "None" end.

Definition dict_get (key fallback : string) (d : dict) : string :=
  match dict_lookup key d with
  | Some value => show value
  | None => fallback
  end.

(** One line of a .env file, for the bindings the examples write: blank
    lines and [#] comments bind nothing, [KEY=VALUE] binds the stripped key
    to the stripped value, a bare [KEY] binds it to [None].  Quoted values,
    [export], escapes, inline comments and [${...}] expansion, which the
    files of the examples do not use, are left out. *)
Definition parse_line (line : string) : option (string * option string) :=
  match strip line with
  | EmptyString => None
  | String "#" _ => None
  | binding =>
      match cut_at "=" binding with
      | Some (key, value) => Some (strip key, Some (strip value))
      | None => Some (binding, None)
      end
  end.

Definition parse_dotenv (content : string) : dict :=
  foldl (λ d line,
           match parse_line line with
           | Some (key, value) => dict_set key value d
           | None => d
           end)
        [] (split_on (ascii_of_nat 10) content).

(** [dotenv_values(path)]: parse the file into a dict. *)
Definition dotenv_values (path : string) : Script dict :=
  content <- read_text path ;;
  ret (parse_dotenv content).

(** [load_dotenv(path, override)]: parse the file and put every binding
    that has a value into [os.environ], keeping the variables already set
    unless [override]. *)
Fixpoint set_as_environment_variables (override : bool) (d : dict)
    : Script unit :=
  match d with
  | [] => ret tt
  | (key, value) :: d' =>
      present <- env_has key ;;
      (if (present && negb override)%bool then ret tt
       else match value with
            | Some text => setenv key text
            | None => ret tt
            end) ;;
      set_as_environment_variables override d'
  end.

Definition load_dotenv (path : string) (override : bool) : Script unit :=
  d <- dotenv_values path ;;
  set_as_environment_variables override d.

(** Modelled from the spec: [NocoDBConfig] of [nocodb_simple_client.config],
    which is not part of the sources at hand: the configuration collaborator
    holding base URL, token and timeout as it was given them.  The timeout
    is kept as the decimal text [float] was applied to. *)
Record NocoDBConfig : Type := Config {
  base_url : string;
  api_token : string;
  timeout : string
}.

Definition env_content : string :=
"
NOCODB_BASE_URL=https://isolated-example.com
NOCODB_API_TOKEN=isolated-token
NOCODB_TIMEOUT=45.0
".

Fixpoint print_items (d : dict) : Script unit :=
  match d with
  | [] => ret tt
  | (key, value) :: d' =>
      print ("  " +:+ key +:+ "=" +:+ show value) ;; print_items d'
  end.

(** [example_dotenv_values], in a temporary directory named [tmpdir].  The
    locals [config_dict] and [config] are handed back to be observed. *)
Definition example_dotenv_values (tmpdir : string)
    : Script (dict * NocoDBConfig) :=
  print (newline +:+ rule) ;;
  print "Example 4: Read .env Without Modifying os.environ" ;;
  print rule ;;
  let env_path := tmpdir +:+ "/.env" in
  write_text env_path env_content ;;
  config_dict <- dotenv_values env_path ;;
  print "Read without modifying environment:" ;;
  print_items config_dict ;;
  print "" ;;
  base <- getenv "NOCODB_BASE_URL" "(not set)" ;;
  print ("os.environ['NOCODB_BASE_URL'] = " +:+ base) ;;
  let config :=
    Config (dict_get "NOCODB_BASE_URL" "" config_dict)
           (dict_get "NOCODB_API_TOKEN" "" config_dict)
           (dict_get "NOCODB_TIMEOUT" "30.0" config_dict) in
  print "" ;;
  print ("Created config with timeout: " +:+ timeout config +:+ "s") ;;
  cleanup env_path ;;
  print (newline +:+ "dotenv_values example completed!") ;;
  ret (config_dict, config).

End Dotenv.

(** ** [async_example.py], module level *)

Module AsyncScript.
Import Text.

(** What running the module does that can be seen from outside. *)
Inductive effect : Type :=
  | SpecLookup (name : string)     (* [importlib.util.find_spec(name)] *)
  | Imported (module : string)     (* [import module], [from module import ...] *)
  | Printed (line : string).

(** How a run of statements ends: it goes on with a value, or [sys.exit]
    stopped the interpreter with an exit status. *)
Inductive completion (A : Type) : Type :=
  | Next (a : A)
  | SystemExit (status : Z).
Arguments Next {A} a.
Arguments SystemExit {A} status.

(** Statements: the effects so far and how the run ended. *)
Definition Run (A : Type) : Type := list effect * completion A.

Definition ret {A} (a : A) : Run A := ([], Next a).

Definition bind {A B} (m : Run A) (k : A → Run B) : Run B :=
  match m with
  | (log, Next a) => let '(log', c) := k a in (log ++ log', c)
  | (log, SystemExit status) => (log, SystemExit status)
  end.

Notation "x <- m ;; k" := (bind m (λ x, k))
  (at level 100, m at next level, right associativity).
Notation "m ;; k" := (bind m (λ _, k))
  (at level 100, right associativity).

Definition emit (e : effect) : Run unit := ([e], Next tt).
Definition print (line : string) : Run unit := emit (Printed line).
Definition import (module : string) : Run unit := emit (Imported module).
Definition sys_exit {A} (status : Z) : Run A := ([], SystemExit status).

Section Interpreter.

(** Which distributions the interpreter can find. *)
Variable installed : string → bool.

(** [importlib.util.find_spec(name) is not None]. *)
Definition find_spec_is_not_None (name : string) : Run bool :=
  emit (SpecLookup name) ;; ret (installed name).

(** [a and b]: [b] is evaluated only when [a] is true. *)
Definition and_then (a b : Run bool) : Run bool :=
  x <- a ;; if x then b else ret false.

(** [main()], with every example commented out as in the source. *)
Definition main : Run unit :=
  print (newline +:+ rule) ;;
  print "NOCODB SIMPLE CLIENT - ASYNC EXAMPLES" ;;
  print rule ;;
  print "" ;;
  print "These examples demonstrate the [async] optional dependency group." ;;
  print "" ;;
  print "Installation: pip install 'nocodb-simple-client[async]'" ;;
  print "" ;;
  print (newline +:+ rule) ;;
  print "Uncomment the examples in main() to run them." ;;
  print rule.

(** The statements of the module in their order.  [as_main] tells whether
    [__name__] is ["__main__"]. *)
Definition async_example (as_main : bool) : Run unit :=
  import "asyncio" ;;
  import "importlib.util" ;;
  import "sys" ;;
  ASYNC_AVAILABLE <- and_then (find_spec_is_not_None "aiohttp")
                              (find_spec_is_not_None "aiofiles") ;;
  (if negb ASYNC_AVAILABLE then
     print rule ;;
     print "ERROR: Async dependencies not installed!" ;;
     print rule ;;
     print "" ;;
     print "To use the async client, install the [async] extra:" ;;
     print "" ;;
     print ("    pip install " +:+ dquote +:+ "nocodb-simple-client[async]"
            +:+ dquote) ;;
     print "" ;;
     print "This will install: aiohttp, aiofiles" ;;
     print rule ;;
     sys_exit 1
   else ret tt) ;;
  import "nocodb_simple_client" ;;
  import "nocodb_simple_client.async_client" ;;
  import "nocodb_simple_client.exceptions" ;;
  (if as_main then main else ret tt).

End Interpreter.

(** Does the log import [package] or one of its modules? *)
Definition imports (package : string) (log : list effect) : bool :=
  existsb (λ e, match e with
                | Imported module => String.prefix package module
                | _ => false
                end) log.

Definition printed (line : string) (log : list effect) : bool :=
  existsb (λ e, match e with
                | Printed l => String.eqb l line
                | _ => false
                end) log.

(** The lines the log prints, in their order. *)
Definition printed_lines (log : list effect) : list string :=
  omap (λ e, match e with
             | Printed line => Some line
             | _ => None
             end) log.

End AsyncScript.

(** ** Bookkeeping on the tasks of the dispatcher *)

Module Bookkeeping.
Import Dispatcher.

Section Counting.

Context {P V E : Type}.

Definition is_created (t : task P V E) : nat :=
  match t with Created _ => 1 | _ => 0 end.

(** Tasks that have not run yet. *)
Definition created (s : loop_state P V E) : nat :=
  sum_list_with is_created (tasks s).

(** The records whose task has entered [insert_record], in the order of the
    batch. *)
Fixpoint started (records : list P) (l : list (task P V E)) : list P :=
  match records, l with
  | record_data :: records', t :: l' =>
      match t with
      | InFlight _ | Done _ => record_data :: started records' l'
      | Created _ | Waiting _ | Woken _ => started records' l'
      end
  | _, _ => []
  end.

End Counting.

End Bookkeeping.

(** ** Scripts that can raise and exit *)

Module Py.
Import Text.

(** [str.isspace] on ASCII: tab to carriage return, the four separators
    and the space. *)
Definition isspace (a : ascii) : bool :=
  let n := nat_of_ascii a in
  ((9 <=? n) && (n <=? 13) || (28 <=? n) && (n <=? 31) || (n =? 32))%bool.

Fixpoint lstrip (s : string) : string :=
  match s with
  | String a s' => if isspace a then lstrip s' else s
  | EmptyString => EmptyString
  end.

(** [s.strip()]. *)
Definition strip (s : string) : string :=
  String.rev (lstrip (String.rev (lstrip s))).

Definition upper_ascii (a : ascii) : ascii :=
  let n := nat_of_ascii a in
  if ((97 <=? n) && (n <=? 122))%bool then ascii_of_nat (n - 32) else a.

(** [s.upper()] on ASCII. *)
Fixpoint upper (s : string) : string :=
  match s with
  | String a s' => String (upper_ascii a) (upper s')
  | EmptyString => EmptyString
  end.

(** The lines of a text, joined by newlines. *)
Definition unlines (l : list string) : string := String.concat newline l.

(** The interpreter with its process: the world of the script, the names
    asked of [importlib.util.find_spec] and the modules imported, both in
    order. *)
Record machine : Type := Machine {
  world : Dotenv.world;
  lookups : list string;
  imported : list string
}.

(** How a statement ends: with a value, with an exception on its way up, or
    in [sys.exit]. *)
Inductive outcome (E A : Type) : Type :=
  | Value (a : A)
  | Raise (e : E)
  | SysExit (status : Z).
Arguments Value {E A} a.
Arguments Raise {E A} e.
Arguments SysExit {E A} status.

Definition Prog (E A : Type) : Type := machine → outcome E A * machine.

Definition ret {E A} (a : A) : Prog E A := λ m, (Value a, m).

Definition bind {E A B} (p : Prog E A) (k : A → Prog E B) : Prog E B :=
  λ m,
    match p m with
    | (Value a, m') => k a m'
    | (Raise e, m') => (Raise e, m')
    | (SysExit status, m') => (SysExit status, m')
    end.

Notation "x <- p ;; k" := (bind p (λ x, k))
  (at level 100, p at next level, right associativity).
Notation "p ;; k" := (bind p (λ _, k))
  (at level 100, right associativity).

(** A statement of [dotenv_example.py] that neither raises nor exits. *)
Definition lift {E A} (script : Dotenv.Script A) : Prog E A :=
  λ m, let '(a, w) := script (world m) in
       (Value a, Machine w (lookups m) (imported m)).

Definition print {E} (line : string) : Prog E unit := lift (Dotenv.print line).

Definition write_text {E} (path content : string) : Prog E unit :=
  lift (Dotenv.write_text path content).

Definition raise {E A} (e : E) : Prog E A := λ m, (Raise e, m).

Definition sys_exit {E A} (status : Z) : Prog E A := λ m, (SysExit status, m).

Definition import {E} (module : string) : Prog E unit :=
  λ m, (Value tt, Machine (world m) (lookups m) (imported m ++ [module])).

(** [importlib.util.find_spec(name) is not None]. *)
Definition find_spec_is_not_None {E} (installed : string → bool)
    (name : string) : Prog E bool :=
  λ m, (Value (installed name),
        Machine (world m) (lookups m ++ [name]) (imported m)).

(** [Path(tmpdir) / name] for a file name written in the source: the
    directory [mkdtemp] made, the separator and the name. *)
Definition joinpath (tmpdir name : string) : string :=
  tmpdir +:+ "/" +:+ name.

(** A name of one path component: it holds no separator. *)
Fixpoint one_component (name : string) : bool :=
  match name with
  | EmptyString => true
  | String a name' => negb (Ascii.eqb a "/") && one_component name'
  end.

(** The components [pathlib] keeps of a name: the pieces between the
    separators that are neither empty nor a single dot. *)
Definition components (name : string) : list string :=
  filter (λ piece, piece ≠ EmptyString ∧ piece ≠ ".") (Text.split_on "/" name).

Fixpoint leading_separators (name : string) : nat :=
  match name with
  | String a name' =>
      if Ascii.eqb a "/" then S (leading_separators name') else 0
  | EmptyString => 0
  end.

(** [str(Path(tmpdir) / name)] for any name, as [PurePosixPath] joins and
    prints: a relative name is cut into its components, which follow the
    directory; an absolute name replaces the directory, its root being two
    separators when it starts with exactly two and one otherwise. *)
Definition Path_truediv (tmpdir name : string) : string :=
  match leading_separators name with
  | 0 => String.concat "/" (tmpdir :: components name)
  | 2 => "//" +:+ String.concat "/" (components name)
  | _ => "/" +:+ String.concat "/" (components name)
  end.

Definition inside (tmpdir path : string) : bool :=
  String.prefix (tmpdir +:+ "/") path.

(** The directory and everything in it is removed. *)
Definition rmtree (tmpdir : string) (m : machine) : machine :=
  Machine
    (Dotenv.World
       (Dotenv.environ (world m))
       (filter (λ file, inside tmpdir file.1 = false) (Dotenv.files (world m)))
       (Dotenv.stdout (world m)))
    (lookups m) (imported m).

(** [with TemporaryDirectory() as tmpdir: body]: the directory is removed
    when the block is left, however it is left. *)
Definition with_TemporaryDirectory {E A} (tmpdir : string) (body : Prog E A)
    : Prog E A :=
  λ m, let '(r, m') := body m in (r, rmtree tmpdir m').

(** What the examples read off a [NocoDBConfig] object: the text each of
    these attributes formats to. *)
Record config_text : Type := ConfigText {
  base_url : string;
  timeout : string;
  max_retries : string;
  pool_connections : string;
  pool_maxsize : string;
  verify_ssl : string;
  debug : string;
  log_level : string
}.

(** A call of a loader of [NocoDBConfig], which reads and may raise. *)
Definition call {E A} (loader : Dotenv.world → E + A) : Prog E A :=
  λ m, match loader (world m) with
       | inl e => (Raise e, m)
       | inr a => (Value a, m)
       end.

Definition dashes : string := str_mul "-" 40.

(** *** What a statement does to the world *)

Definition files_of (m : machine) : gmap string string :=
  Dotenv.files (world m).
Definition environ_of (m : machine) : gmap string string :=
  Dotenv.environ (world m).
Definition stdout_of (m : machine) : list string := Dotenv.stdout (world m).

(** The files that are not in [tmpdir]. *)
Definition outside (tmpdir : string) (fs : gmap string string)
    : gmap string string :=
  filter (λ file, inside tmpdir file.1 = false) fs.

(** [tmpdir] holds no file, as a directory just made by [mkdtemp]. *)
Definition fresh (tmpdir : string) (fs : gmap string string) : Prop :=
  ∀ path, inside tmpdir path = true → fs !! path = None.

(** The statement writes only in [tmpdir]. *)
Definition writes_within {E A} (tmpdir : string) (p : Prog E A) : Prop :=
  ∀ m, outside tmpdir (files_of (p m).2) = outside tmpdir (files_of m).

(** The statement gives back the files it found, when they satisfy [Q]. *)
Definition restores_files {E A} (Q : gmap string string → Prop)
    (p : Prog E A) : Prop :=
  ∀ m, Q (files_of m) → files_of (p m).2 = files_of m.

Definition never_exits {E A} (p : Prog E A) : Prop :=
  ∀ m status, (p m).1 ≠ SysExit status.

Definition keeps_environ {E A} (p : Prog E A) : Prop :=
  ∀ m, environ_of (p m).2 = environ_of m.

(** The statement never unsets a variable. *)
Definition keeps_variables_set {E A} (p : Prog E A) : Prop :=
  ∀ m key, is_Some (environ_of m !! key) →
           is_Some (environ_of (p m).2 !! key).

(** The statement only adds lines to the output. *)
Definition only_prints_more {E A} (p : Prog E A) : Prop :=
  ∀ m, ∃ lines, stdout_of (p m).2 = stdout_of m ++ lines.

(** Two statements that do the same from every machine. *)
Definition alike {E A} (p q : Prog E A) : Prop := ∀ m, p m = q m.

(** The bindings of a dict that have a value, as a map; of two bindings of
    a key the first counts. *)
Definition bindings (d : Dotenv.dict) : gmap string string :=
  list_to_map (omap (λ kv : string * option string,
                       match kv.2 with
                       | Some value => Some (kv.1, value)
                       | None => None
                       end) d).

End Py.

(** ** [config_file_example.py] *)

Module ConfigFiles.
Import Text Py.

(** [yaml_content] of [example_yaml_config]. *)
Definition yaml_content : string :=
  unlines
    ["";
     "# NocoDB Configuration";
     "# Save this as: nocodb-config.yaml";
     "";
     "base_url: " +:+ dquote +:+ "https://your-nocodb-instance.com" +:+ dquote;
     "api_token: " +:+ dquote +:+ "your-api-token-here" +:+ dquote;
     "";
     "# Connection settings";
     "timeout: 60.0";
     "max_retries: 3";
     "backoff_factor: 0.5";
     "";
     "# Connection pooling";
     "pool_connections: 20";
     "pool_maxsize: 50";
     "";
     "# Security";
     "verify_ssl: true";
     "";
     "# Debugging";
     "debug: false";
     "log_level: " +:+ dquote +:+ "INFO" +:+ dquote;
     "";
     "# Custom headers (optional)";
     "extra_headers:";
     "  X-Request-Source: " +:+ dquote +:+ "my-application" +:+ dquote;
     "  X-Client-Version: " +:+ dquote +:+ "1.0.0" +:+ dquote;
     ""].

(** [toml_content] of [example_toml_config]. *)
Definition toml_content : string :=
  unlines
    ["";
     "# NocoDB Configuration";
     "# Save this as: nocodb-config.toml";
     "";
     "base_url = " +:+ dquote +:+ "https://your-nocodb-instance.com" +:+ dquote;
     "api_token = " +:+ dquote +:+ "your-api-token-here" +:+ dquote;
     "";
     "# Connection settings";
     "timeout = 60.0";
     "max_retries = 3";
     "backoff_factor = 0.5";
     "";
     "# Connection pooling";
     "pool_connections = 20";
     "pool_maxsize = 50";
     "";
     "# Security";
     "verify_ssl = true";
     "";
     "# Debugging";
     "debug = false";
     "log_level = " +:+ dquote +:+ "INFO" +:+ dquote;
     "";
     "# Custom headers (optional)";
     "[extra_headers]";
     "X-Request-Source = " +:+ dquote +:+ "my-application" +:+ dquote;
     "X-Client-Version = " +:+ dquote +:+ "1.0.0" +:+ dquote;
     ""].

(** [json_content] of [example_json_config]. *)
Definition json_content : string :=
  unlines
    ["{";
     "    " +:+ dquote +:+ "base_url" +:+ dquote +:+ ": " +:+ dquote +:+ "https://your-nocodb-instance.com" +:+ dquote +:+ ",";
     "    " +:+ dquote +:+ "api_token" +:+ dquote +:+ ": " +:+ dquote +:+ "your-api-token-here" +:+ dquote +:+ ",";
     "    " +:+ dquote +:+ "timeout" +:+ dquote +:+ ": 60.0,";
     "    " +:+ dquote +:+ "max_retries" +:+ dquote +:+ ": 3,";
     "    " +:+ dquote +:+ "backoff_factor" +:+ dquote +:+ ": 0.5,";
     "    " +:+ dquote +:+ "pool_connections" +:+ dquote +:+ ": 20,";
     "    " +:+ dquote +:+ "pool_maxsize" +:+ dquote +:+ ": 50,";
     "    " +:+ dquote +:+ "verify_ssl" +:+ dquote +:+ ": true,";
     "    " +:+ dquote +:+ "debug" +:+ dquote +:+ ": false,";
     "    " +:+ dquote +:+ "log_level" +:+ dquote +:+ ": " +:+ dquote +:+ "INFO" +:+ dquote +:+ ",";
     "    " +:+ dquote +:+ "extra_headers" +:+ dquote +:+ ": {";
     "        " +:+ dquote +:+ "X-Request-Source" +:+ dquote +:+ ": " +:+ dquote +:+ "my-application" +:+ dquote;
     "    }";
     "}"].

(** [dev_config] of [example_environment_configs]. *)
Definition dev_config : string :=
  unlines
    ["";
     "base_url: " +:+ dquote +:+ "http://localhost:8080" +:+ dquote;
     "api_token: " +:+ dquote +:+ "dev-token" +:+ dquote;
     "timeout: 10.0";
     "max_retries: 1";
     "verify_ssl: false";
     "debug: true";
     "log_level: " +:+ dquote +:+ "DEBUG" +:+ dquote;
     ""].

(** [staging_config] of [example_environment_configs]. *)
Definition staging_config : string :=
  unlines
    ["";
     "base_url: " +:+ dquote +:+ "https://staging.nocodb.example.com" +:+ dquote;
     "api_token: " +:+ dquote +:+ "staging-token" +:+ dquote;
     "timeout: 30.0";
     "max_retries: 3";
     "verify_ssl: true";
     "debug: false";
     "log_level: " +:+ dquote +:+ "INFO" +:+ dquote;
     ""].

(** [prod_config] of [example_environment_configs]. *)
Definition prod_config : string :=
  unlines
    ["";
     "base_url: " +:+ dquote +:+ "https://nocodb.example.com" +:+ dquote;
     "api_token: " +:+ dquote +:+ "prod-token" +:+ dquote;
     "timeout: 120.0";
     "max_retries: 5";
     "backoff_factor: 1.0";
     "pool_connections: 50";
     "pool_maxsize: 100";
     "verify_ssl: true";
     "debug: false";
     "log_level: " +:+ dquote +:+ "WARNING" +:+ dquote;
     ""].

(** The text [example_graceful_fallback] prints. *)
Definition fallback_pattern : string :=
  unlines
    ["";
     "This pattern allows your application to work with or without";
     "the [config] extra installed:";
     "";
     "    from pathlib import Path";
     "    from nocodb_simple_client.config import NocoDBConfig";
     "";
     "    def load_configuration(config_path: Path | None = None):";
     "        '''Load config with graceful fallback.'''";
     "";
     "        # Try file-based configuration first";
     "        if config_path and config_path.exists():";
     "            suffix = config_path.suffix.lower()";
     "";
     "            if suffix == '.json':";
     "                # JSON always works (stdlib)";
     "                return NocoDBConfig.from_file(config_path)";
     "";
     "            elif suffix in ['.yaml', '.yml']:";
     "                try:";
     "                    return NocoDBConfig.from_file(config_path)";
     "                except ValueError as e:";
     "                    if 'PyYAML' in str(e):";
     "                        print(" +:+ dquote +:+ "YAML not available, falling back to env" +:+ dquote +:+ ")";
     "                    else:";
     "                        raise";
     "";
     "            elif suffix == '.toml':";
     "                try:";
     "                    return NocoDBConfig.from_file(config_path)";
     "                except ValueError as e:";
     "                    if 'tomli' in str(e):";
     "                        print(" +:+ dquote +:+ "TOML not available, falling back to env" +:+ dquote +:+ ")";
     "                    else:";
     "                        raise";
     "";
     "        # Fallback to environment variables";
     "        return NocoDBConfig.from_env()";
     ""].

Section Examples.

Context {E : Type}.

(** Which modules [find_spec] finds. *)
Variable installed : string → bool.

(** [NocoDBConfig.from_file], of the client package: taken as given.  It
    reads the file at the path and returns the configuration or raises. *)
Variable from_file : string → Dotenv.world → E + config_text.

Definition example_yaml_config (YAML_AVAILABLE : bool) (tmpdir : string)
    : Prog E unit :=
  print (newline +:+ rule) ;;
  print "Example 1: YAML Configuration" ;;
  print rule ;;
  if negb YAML_AVAILABLE then
    print "YAML support not available. Install PyYAML:" ;;
    print ("    pip install " +:+ dquote +:+ "nocodb-simple-client[config]"
           +:+ dquote)
  else
    with_TemporaryDirectory tmpdir
      (let config_path := joinpath tmpdir "nocodb-config.yaml" in
       write_text config_path yaml_content ;;
       print ("Created sample config: " +:+ config_path) ;;
       print "" ;;
       print "YAML Content:" ;;
       print dashes ;;
       print (strip yaml_content) ;;
       print dashes ;;
       print "" ;;
       config <- call (from_file config_path) ;;
       print "Loaded configuration:" ;;
       print ("  Base URL: " +:+ base_url config) ;;
       print ("  Timeout: " +:+ timeout config +:+ "s") ;;
       print ("  Max Retries: " +:+ max_retries config) ;;
       print ("  Pool Size: " +:+ pool_connections config +:+ "/"
              +:+ pool_maxsize config) ;;
       print ("  SSL Verify: " +:+ verify_ssl config) ;;
       print ("  Debug: " +:+ debug config)) ;;
    print (newline +:+ "YAML configuration example completed!").

Definition example_toml_config (TOML_AVAILABLE : bool) (tmpdir : string)
    : Prog E unit :=
  print (newline +:+ rule) ;;
  print "Example 2: TOML Configuration" ;;
  print rule ;;
  if negb TOML_AVAILABLE then
    print "TOML support not available." ;;
    print "For Python < 3.11, install tomli:" ;;
    print ("    pip install " +:+ dquote +:+ "nocodb-simple-client[config]"
           +:+ dquote) ;;
    print "" ;;
    print "Python 3.11+ includes tomllib in the standard library."
  else
    has_tomllib <- find_spec_is_not_None installed "tomllib" ;;
    let toml_source :=
      if has_tomllib then "tomllib (stdlib, Python 3.11+)"
      else "tomli (third-party)" in
    print ("Using: " +:+ toml_source) ;;
    print "" ;;
    with_TemporaryDirectory tmpdir
      (let config_path := joinpath tmpdir "nocodb-config.toml" in
       write_text config_path toml_content ;;
       print ("Created sample config: " +:+ config_path) ;;
       print "" ;;
       print "TOML Content:" ;;
       print dashes ;;
       print (strip toml_content) ;;
       print dashes ;;
       print "" ;;
       config <- call (from_file config_path) ;;
       print "Loaded configuration:" ;;
       print ("  Base URL: " +:+ base_url config) ;;
       print ("  Timeout: " +:+ timeout config +:+ "s") ;;
       print ("  Max Retries: " +:+ max_retries config) ;;
       print ("  Pool Size: " +:+ pool_connections config +:+ "/"
              +:+ pool_maxsize config)) ;;
    print (newline +:+ "TOML configuration example completed!").

Definition example_json_config (tmpdir : string) : Prog E unit :=
  print (newline +:+ rule) ;;
  print "Example 3: JSON Configuration (Built-in)" ;;
  print rule ;;
  with_TemporaryDirectory tmpdir
    (let config_path := joinpath tmpdir "nocodb-config.json" in
     write_text config_path json_content ;;
     print "Note: JSON support requires NO extra dependencies!" ;;
     print "" ;;
     print "JSON Content:" ;;
     print dashes ;;
     print json_content ;;
     print dashes ;;
     print "" ;;
     config <- call (from_file config_path) ;;
     print "Loaded configuration:" ;;
     print ("  Base URL: " +:+ base_url config) ;;
     print ("  Timeout: " +:+ timeout config +:+ "s")) ;;
  print (newline +:+ "JSON configuration example completed!").

(** The dict [configs], in insertion order. *)
Definition configs : list (string * string) :=
  [("development", dev_config);
   ("staging", staging_config);
   ("production", prod_config)].

(** [for env_name, content in configs.items(): ...]. *)
Fixpoint load_each (tmpdir : string) (items : list (string * string))
    : Prog E unit :=
  match items with
  | [] => ret tt
  | (env_name, content) :: items' =>
      let config_path :=
        joinpath tmpdir ("config." +:+ env_name +:+ ".yaml") in
      write_text config_path content ;;
      config <- call (from_file config_path) ;;
      print (newline +:+ upper env_name +:+ ":") ;;
      print ("  URL: " +:+ base_url config) ;;
      print ("  Timeout: " +:+ timeout config +:+ "s") ;;
      print ("  Debug: " +:+ debug config) ;;
      print ("  Log Level: " +:+ log_level config) ;;
      load_each tmpdir items'
  end.

Definition example_environment_configs (YAML_AVAILABLE : bool)
    (tmpdir : string) : Prog E unit :=
  print (newline +:+ rule) ;;
  print "Example 4: Environment-Specific Configurations" ;;
  print rule ;;
  if negb YAML_AVAILABLE then
    print "YAML support required for this example."
  else
    with_TemporaryDirectory tmpdir (load_each tmpdir configs) ;;
    print (newline +:+ "Environment configurations example completed!").

Definition example_graceful_fallback : Prog E unit :=
  print (newline +:+ rule) ;;
  print "Example 5: Graceful Fallback Pattern" ;;
  print rule ;;
  print fallback_pattern ;;
  print (newline +:+ "Graceful fallback pattern demonstrated!").

(** The names the four temporary directories get, in the order of their
    creation. *)
Record tmpdirs : Type := Tmpdirs {
  tmp_json : string;
  tmp_yaml : string;
  tmp_toml : string;
  tmp_environments : string
}.

Definition main (YAML_AVAILABLE TOML_AVAILABLE : bool) (tmp : tmpdirs)
    : Prog E unit :=
  print (newline +:+ rule) ;;
  print "NOCODB SIMPLE CLIENT - CONFIG FILE EXAMPLES" ;;
  print rule ;;
  print "" ;;
  print "These examples demonstrate the [config] optional dependency group." ;;
  print "" ;;
  print "Installation: pip install 'nocodb-simple-client[config]'" ;;
  print "" ;;
  print "Dependency status:" ;;
  print ("  YAML support (PyYAML): "
         +:+ (if YAML_AVAILABLE then "Available" else "Not installed")) ;;
  print ("  TOML support: "
         +:+ (if TOML_AVAILABLE then "Available" else "Not installed")) ;;
  example_json_config (tmp_json tmp) ;;
  example_yaml_config YAML_AVAILABLE (tmp_yaml tmp) ;;
  example_toml_config TOML_AVAILABLE (tmp_toml tmp) ;;
  example_environment_configs YAML_AVAILABLE (tmp_environments tmp) ;;
  example_graceful_fallback ;;
  print (newline +:+ rule) ;;
  print "All configuration file examples completed!" ;;
  print rule.

(** [a or b]: [b] is evaluated only when [a] is false. *)
Definition or_else (a b : Prog E bool) : Prog E bool :=
  x <- a ;; if x then ret true else b.

(** The statements of the module in their order; [as_main] tells whether
    [__name__] is ["__main__"]. *)
Definition config_file_example (as_main : bool) (tmp : tmpdirs)
    : Prog E unit :=
  import "importlib.util" ;;
  import "sys" ;;
  import "pathlib" ;;
  import "tempfile" ;;
  import "nocodb_simple_client.config" ;;
  YAML_AVAILABLE <- find_spec_is_not_None installed "yaml" ;;
  TOML_AVAILABLE <- or_else (find_spec_is_not_None installed "tomllib")
                            (find_spec_is_not_None installed "tomli") ;;
  (if (negb YAML_AVAILABLE && negb TOML_AVAILABLE)%bool then
     print rule ;;
     print "ERROR: Config file dependencies not installed!" ;;
     print rule ;;
     print "" ;;
     print "To use YAML/TOML configuration files, install the [config] extra:" ;;
     print "" ;;
     print ("    pip install " +:+ dquote +:+ "nocodb-simple-client[config]"
            +:+ dquote) ;;
     print "" ;;
     print "This will install: PyYAML, tomli (for Python < 3.11)" ;;
     print "" ;;
     print "Note: Python 3.11+ includes tomllib in the standard library." ;;
     print rule ;;
     sys_exit 1
   else ret tt) ;;
  if as_main then main YAML_AVAILABLE TOML_AVAILABLE tmp else ret tt.

End Examples.

(** The four directories of [main] are new. *)
Definition all_fresh (tmp : tmpdirs) (fs : gmap string string) : Prop :=
  fresh (tmp_json tmp) fs ∧ fresh (tmp_yaml tmp) fs ∧
  fresh (tmp_toml tmp) fs ∧ fresh (tmp_environments tmp) fs.

(** The lines the module prints before it gives up. *)
Definition missing_dependencies_message : list string :=
  [rule;
   "ERROR: Config file dependencies not installed!";
   rule;
   "";
   "To use YAML/TOML configuration files, install the [config] extra:";
   "";
   "    pip install " +:+ dquote +:+ "nocodb-simple-client[config]" +:+ dquote;
   "";
   "This will install: PyYAML, tomli (for Python < 3.11)";
   "";
   "Note: Python 3.11+ includes tomllib in the standard library.";
   rule].

(** What [import] statements of the module bring in, in order. *)
Definition module_imports : list string :=
  ["importlib.util"; "sys"; "pathlib"; "tempfile";
   "nocodb_simple_client.config"].

End ConfigFiles.

(** ** [dotenv_example.py], the other examples and the module *)

Module DotenvExamples.
Import Text Py.

(** [env_content] of [example_basic_dotenv]. *)
Definition basic_env_content : string :=
  unlines
    ["";
     "# NocoDB Configuration";
     "# Save this as: .env";
     "";
     "NOCODB_BASE_URL=https://your-nocodb-instance.com";
     "NOCODB_API_TOKEN=your-api-token-here";
     "NOCODB_TIMEOUT=60.0";
     "NOCODB_MAX_RETRIES=3";
     "NOCODB_DEBUG=false";
     ""].

(** [dev_env] of [example_multiple_environments]. *)
Definition dev_env : string :=
  unlines
    ["";
     "NOCODB_BASE_URL=http://localhost:8080";
     "NOCODB_API_TOKEN=dev-token-12345";
     "NOCODB_TIMEOUT=10.0";
     "NOCODB_DEBUG=true";
     "NOCODB_LOG_LEVEL=DEBUG";
     ""].

(** [staging_env] of [example_multiple_environments]. *)
Definition staging_env : string :=
  unlines
    ["";
     "NOCODB_BASE_URL=https://staging.nocodb.example.com";
     "NOCODB_API_TOKEN=staging-token-67890";
     "NOCODB_TIMEOUT=30.0";
     "NOCODB_DEBUG=false";
     "NOCODB_LOG_LEVEL=INFO";
     ""].

(** [prod_env] of [example_multiple_environments]. *)
Definition prod_env : string :=
  unlines
    ["";
     "NOCODB_BASE_URL=https://nocodb.example.com";
     "NOCODB_API_TOKEN=prod-token-secure";
     "NOCODB_TIMEOUT=120.0";
     "NOCODB_DEBUG=false";
     "NOCODB_LOG_LEVEL=WARNING";
     "NOCODB_VERIFY_SSL=true";
     ""].

(** The text [example_secrets_management] prints. *)
Definition secrets_practices : string :=
  unlines
    ["";
     "BEST PRACTICES FOR .env FILES:";
     "";
     "1. NEVER commit .env files to version control:";
     "";
     "   # .gitignore";
     "   .env";
     "   .env.*";
     "   !.env.example";
     "";
     "2. Create an .env.example template (safe to commit):";
     "";
     "   # .env.example";
     "   NOCODB_BASE_URL=https://your-instance.com";
     "   NOCODB_API_TOKEN=<your-api-token>";
     "   NOCODB_TIMEOUT=60.0";
     "";
     "3. Use different files for different environments:";
     "";
     "   .env                 <- Local overrides (gitignored)";
     "   .env.development     <- Development defaults";
     "   .env.production      <- Production settings";
     "   .env.example         <- Template (committed)";
     "";
     "4. Load with precedence (local overrides defaults):";
     "";
     "   from dotenv import load_dotenv";
     "";
     "   # Load base configuration";
     "   load_dotenv('.env.development')";
     "";
     "   # Override with local settings";
     "   load_dotenv('.env', override=True)";
     "";
     "5. Validate required variables:";
     "";
     "   import os";
     "";
     "   required = ['NOCODB_BASE_URL', 'NOCODB_API_TOKEN']";
     "   missing = [var for var in required if not os.getenv(var)]";
     "";
     "   if missing:";
     "       raise ValueError(f" +:+ dquote +:+ "Missing required env vars: {missing}" +:+ dquote +:+ ")";
     ""].

(** The text [example_combined_config] prints. *)
Definition combined_pattern : string :=
  unlines
    ["";
     "RECOMMENDED PATTERN: Separate secrets from configuration";
     "";
     "1. .env file (gitignored) - Contains ONLY secrets:";
     "";
     "   NOCODB_API_TOKEN=secret-token-here";
     "   NOCODB_PROTECTION_AUTH=protection-secret";
     "";
     "2. config.yaml (committed) - Contains non-secret settings:";
     "";
     "   base_url: " +:+ dquote +:+ "https://nocodb.example.com" +:+ dquote;
     "   timeout: 60.0";
     "   max_retries: 3";
     "   pool_connections: 20";
     "";
     "3. Load both in your application:";
     "";
     "   from dotenv import load_dotenv";
     "   from nocodb_simple_client.config import NocoDBConfig";
     "   import os";
     "";
     "   # Load secrets into environment";
     "   load_dotenv()";
     "";
     "   # Load settings from config file";
     "   config = NocoDBConfig.from_file(Path('config.yaml'))";
     "";
     "   # Override with environment secrets";
     "   config.api_token = os.getenv('NOCODB_API_TOKEN')";
     "";
     "This approach:";
     "   - Keeps secrets out of config files";
     "   - Allows config files to be version controlled";
     "   - Works seamlessly with CI/CD pipelines";
     "   - Supports Docker secrets and cloud KMS";
     ""].

(** The text [example_docker_cloud] prints. *)
Definition docker_cloud_patterns : string :=
  unlines
    ["";
     "DOCKER USAGE:";
     "";
     "1. docker-compose.yml:";
     "";
     "   services:";
     "     app:";
     "       image: my-app";
     "       env_file:";
     "         - .env";
     "       environment:";
     "         - NOCODB_BASE_URL=https://nocodb.example.com";
     "";
     "2. Docker run:";
     "";
     "   docker run --env-file .env my-app";
     "";
     "3. In your Python code:";
     "";
     "   # No need to call load_dotenv() - Docker already loaded vars";
     "   config = NocoDBConfig.from_env()";
     "";
     "";
     "CLOUD PLATFORMS:";
     "";
     "AWS ECS/Lambda:";
     "   - Use AWS Secrets Manager or Parameter Store";
     "   - Set environment variables in task definition";
     "";
     "Google Cloud Run:";
     "   - Use Secret Manager";
     "   - Set environment variables in service config";
     "";
     "Azure:";
     "   - Use Azure Key Vault";
     "   - Set in App Service configuration";
     "";
     "Kubernetes:";
     "   - Use ConfigMaps for settings";
     "   - Use Secrets for tokens";
     "   - Mount as environment variables";
     "";
     "";
     "LOCAL DEVELOPMENT with dotenv:";
     "";
     "   from dotenv import load_dotenv";
     "";
     "   # Only load .env in development";
     "   if os.getenv('ENVIRONMENT') != 'production':";
     "       load_dotenv()";
     "";
     "   config = NocoDBConfig.from_env()";
     ""].

Section Examples.

Context {E : Type}.

Variable installed : string → bool.

(** [NocoDBConfig.from_env], of the client package: taken as given.  It
    reads [os.environ] and returns the configuration or raises. *)
Variable from_env : Dotenv.world → E + config_text.

Definition example_basic_dotenv (tmpdir : string) : Prog E unit :=
  print (newline +:+ rule) ;;
  print "Example 1: Basic .env File Usage" ;;
  print rule ;;
  with_TemporaryDirectory tmpdir
    (let env_path := joinpath tmpdir ".env" in
     write_text env_path basic_env_content ;;
     print ".env Content:" ;;
     print dashes ;;
     print (strip basic_env_content) ;;
     print dashes ;;
     print "" ;;
     lift (Dotenv.load_dotenv env_path false) ;;
     config <- call from_env ;;
     print "Loaded configuration:" ;;
     print ("  Base URL: " +:+ base_url config) ;;
     print ("  Timeout: " +:+ timeout config +:+ "s") ;;
     print ("  Max Retries: " +:+ max_retries config) ;;
     print ("  Debug: " +:+ debug config)) ;;
  print (newline +:+ "Basic .env example completed!").

(** The dict [envs], in insertion order. *)
Definition envs : list (string * string) :=
  [(".env.development", dev_env);
   (".env.staging", staging_env);
   (".env.production", prod_env)].

(** [for filename, content in envs.items(): ...write_text(content)]. *)
Fixpoint write_each (tmpdir : string) (items : list (string * string))
    : Prog E unit :=
  match items with
  | [] => ret tt
  | (filename, content) :: items' =>
      write_text (joinpath tmpdir filename) content ;;
      write_each tmpdir items'
  end.

Definition example_multiple_environments (tmpdir : string) : Prog E unit :=
  print (newline +:+ rule) ;;
  print "Example 2: Multiple Environment Files" ;;
  print rule ;;
  with_TemporaryDirectory tmpdir
    (write_each tmpdir envs ;;
     print "File structure:" ;;
     print "  .env.development  <- Local development" ;;
     print "  .env.staging      <- Staging environment" ;;
     print "  .env.production   <- Production environment" ;;
     print "" ;;
     app_env <- lift (Dotenv.getenv "APP_ENV" "development") ;;
     let env_file := Path_truediv tmpdir (".env." +:+ app_env) in
     print ("Loading: .env." +:+ app_env) ;;
     lift (Dotenv.load_dotenv env_file true) ;;
     config <- call from_env ;;
     print ("  Base URL: " +:+ base_url config) ;;
     print ("  Debug: " +:+ debug config)) ;;
  print (newline +:+ "Multiple environments example completed!").

Definition example_secrets_management : Prog E unit :=
  print (newline +:+ rule) ;;
  print "Example 3: Secrets Management Best Practices" ;;
  print rule ;;
  print secrets_practices ;;
  print "Secrets management best practices shown!".

Definition example_dotenv_values (tmpdir : string) : Prog E unit :=
  lift (Dotenv.example_dotenv_values tmpdir) ;; ret tt.

Definition example_combined_config : Prog E unit :=
  print (newline +:+ rule) ;;
  print "Example 5: Combining .env with Config Files" ;;
  print rule ;;
  print combined_pattern ;;
  print "Combined configuration pattern shown!".

Definition example_docker_cloud : Prog E unit :=
  print (newline +:+ rule) ;;
  print "Example 6: Docker and Cloud Compatibility" ;;
  print rule ;;
  print docker_cloud_patterns ;;
  print "Docker and cloud patterns shown!".

(** The names the three temporary directories get, in the order of their
    creation. *)
Record tmpdirs : Type := Tmpdirs {
  tmp_basic : string;
  tmp_environments : string;
  tmp_values : string
}.

Definition main (DOTENV_AVAILABLE : bool) (tmp : tmpdirs) : Prog E unit :=
  print (newline +:+ rule) ;;
  print "NOCODB SIMPLE CLIENT - DOTENV EXAMPLES" ;;
  print rule ;;
  print "" ;;
  print "These examples demonstrate the [dotenv] optional dependency group." ;;
  print "" ;;
  print "Installation: pip install 'nocodb-simple-client[dotenv]'" ;;
  print "" ;;
  print ("python-dotenv available: "
         +:+ (if DOTENV_AVAILABLE then "True" else "False")) ;;
  example_basic_dotenv (tmp_basic tmp) ;;
  example_multiple_environments (tmp_environments tmp) ;;
  example_secrets_management ;;
  example_dotenv_values (tmp_values tmp) ;;
  example_combined_config ;;
  example_docker_cloud ;;
  print (newline +:+ rule) ;;
  print "All dotenv examples completed!" ;;
  print rule.

(** The statements of the module in their order; [as_main] tells whether
    [__name__] is ["__main__"]. *)
Definition dotenv_example (as_main : bool) (tmp : tmpdirs) : Prog E unit :=
  import "importlib.util" ;;
  import "os" ;;
  import "sys" ;;
  import "pathlib" ;;
  import "tempfile" ;;
  import "nocodb_simple_client.config" ;;
  DOTENV_AVAILABLE <- find_spec_is_not_None installed "dotenv" ;;
  (if negb DOTENV_AVAILABLE then
     print rule ;;
     print "ERROR: python-dotenv not installed!" ;;
     print rule ;;
     print "" ;;
     print "To use .env file support, install the [dotenv] extra:" ;;
     print "" ;;
     print ("    pip install " +:+ dquote +:+ "nocodb-simple-client[dotenv]"
            +:+ dquote) ;;
     print "" ;;
     print "This will install: python-dotenv" ;;
     print rule ;;
     sys_exit 1
   else ret tt) ;;
  import "dotenv" ;;
  if as_main then main DOTENV_AVAILABLE tmp else ret tt.

End Examples.

(** The three directories of [main] are new. *)
Definition all_fresh (tmp : tmpdirs) (fs : gmap string string) : Prop :=
  fresh (tmp_basic tmp) fs ∧ fresh (tmp_environments tmp) fs ∧
  fresh (tmp_values tmp) fs.

(** The lines the module prints before it gives up. *)
Definition missing_dependency_message : list string :=
  [rule;
   "ERROR: python-dotenv not installed!";
   rule;
   "";
   "To use .env file support, install the [dotenv] extra:";
   "";
   "    pip install " +:+ dquote +:+ "nocodb-simple-client[dotenv]" +:+ dquote;
   "";
   "This will install: python-dotenv";
   rule].

(** What the module imports before it looks for python-dotenv. *)
Definition early_imports : list string :=
  ["importlib.util"; "os"; "sys"; "pathlib"; "tempfile";
   "nocodb_simple_client.config"].

(** The bindings of the file of [example_basic_dotenv]. *)
Definition basic_bindings : gmap string string :=
  list_to_map
    [("NOCODB_BASE_URL", "https://your-nocodb-instance.com");
     ("NOCODB_API_TOKEN", "your-api-token-here");
     ("NOCODB_TIMEOUT", "60.0");
     ("NOCODB_MAX_RETRIES", "3");
     ("NOCODB_DEBUG", "false")].

End DotenvExamples.

(** ** Collaborators used to run the scripts on concrete machines *)

Module Runs.
Import Py.

(** What a loader of [NocoDBConfig] raises on a file it cannot use. *)
Inductive LoadError : Type :=
  | ValueError (message : string).

Definition sample_config : config_text :=
  ConfigText "http://localhost:8080" "30.0" "3" "10" "20" "True" "False"
             "INFO".

(** A loader that accepts every file, one that accepts none, and one that
    accepts every file but those with the suffix of YAML. *)
Definition from_file_ok (path : string) (w : Dotenv.world)
    : LoadError + config_text :=
  inr sample_config.

Definition from_file_refusing (path : string) (w : Dotenv.world)
    : LoadError + config_text :=
  inl (ValueError "Invalid JSON in config file").

Definition from_file_without_yaml (path : string) (w : Dotenv.world)
    : LoadError + config_text :=
  if String.eqb (String.substring (String.length path - 5) 5 path) ".yaml"
  then inl (ValueError "PyYAML is required to load YAML config files")
  else inr sample_config.

Definition from_env_ok (w : Dotenv.world) : LoadError + config_text :=
  inr sample_config.

(** An interpreter with every optional package, and one with none. *)
Definition all_installed (name : string) : bool := true.

Definition none_installed (name : string) : bool := false.

(** A machine with no variable, no file and nothing printed, and one whose
    only variable is [APP_ENV]. *)
Definition empty_machine : machine :=
  Machine (Dotenv.World ∅ ∅ []) [] [].

Definition machine_with_APP_ENV (value : string) : machine :=
  Machine (Dotenv.World {["APP_ENV" := value]} ∅ []) [] [].

Definition config_tmpdirs : ConfigFiles.tmpdirs :=
  ConfigFiles.Tmpdirs "/tmp/tmpa" "/tmp/tmpb" "/tmp/tmpc" "/tmp/tmpd".

Definition dotenv_tmpdirs : DotenvExamples.tmpdirs :=
  DotenvExamples.Tmpdirs "/tmp/tmpa" "/tmp/tmpb" "/tmp/tmpc".

End Runs.

(** * Properties *)

(** ** Facts on the loop of the dispatcher *)

Section DispatchFacts.
Import Exceptions Dispatcher.

Context {P V E : Type}.
Variable insert_record : P → Outcome V E.

Abbreviation state := (loop_state P V E).
Abbreviation step := (process_with_limit insert_record).
Abbreviation Inv := (invariant insert_record).

Implicit Types (s : state) (t : task P V E) (records : list P).

Lemma sum_list_with_insert {A} (w : A → nat) (l : list A) i x y :
  l !! i = Some x →
  sum_list_with w (<[i:=y]> l) + w x = sum_list_with w l + w y.
Proof.
  revert i. induction l as [|a l IH]; intros [|i] Hi; simplify_eq/=; [lia|].
  specialize (IH _ Hi). lia.
Qed.

Lemma sum_list_with_le_length {A} (w : A → nat) (l : list A) :
  (∀ x, w x ≤ 1) → sum_list_with w l ≤ length l.
Proof.
  intros Hw. induction l as [|a l IH]; simpl; [lia|].
  specialize (Hw a). lia.
Qed.

Lemma sum_list_with_lookup {A} (w : A → nat) (l : list A) i x :
  l !! i = Some x → w x ≤ sum_list_with w l.
Proof.
  intros Hi. apply sum_list_with_in. by eapply list_elem_of_lookup_2.
Qed.

Lemma sum_list_with_zero {A} (w : A → nat) (l : list A) :
  sum_list_with w l = 0 ↔ ∀ i x, l !! i = Some x → w x = 0.
Proof.
  split.
  - intros Hz i x Hi. pose proof (sum_list_with_lookup w l i x Hi). lia.
  - induction l as [|a l IH]; [done|]. intros Hall. simpl.
    rewrite (Hall 0 a eq_refl), IH; [done|].
    intros i x Hi. by apply (Hall (S i)).
Qed.

Lemma finished_le_length s : finished s ≤ length (tasks s).
Proof. apply sum_list_with_le_length. by intros []; simpl; lia. Qed.

Lemma task_of_lookup records (l : list (task P V E)) i t :
  Forall2 (task_of insert_record) records l → l !! i = Some t →
  ∃ p, records !! i = Some p ∧ task_of insert_record p t.
Proof. intros HF Hi. by eapply Forall2_lookup_r. Qed.

Lemma task_of_insert records (l : list (task P V E)) i p t :
  Forall2 (task_of insert_record) records l → records !! i = Some p →
  task_of insert_record p t →
  Forall2 (task_of insert_record) records (<[i:=t]> l).
Proof.
  intros HF Hi Ht. rewrite <- (list_insert_id records i p) by done.
  by apply Forall2_insert.
Qed.

(** When every child is done the task table is the image of the records. *)
Lemma all_done_tasks records (l : list (task P V E)) :
  Forall2 (task_of insert_record) records l →
  sum_list_with is_done l = length l →
  l = (λ p, Done (insert_record p)) <$> records.
Proof.
  induction 1 as [|p t records l Ht HF IH]; simpl; [done|].
  intros Hsum.
  pose proof (sum_list_with_le_length is_done l) as Hle.
  assert (∀ x : task P V E, is_done x ≤ 1) as Hw by (by intros []; simpl; lia).
  specialize (Hle Hw).
  destruct Ht as [-> | [-> | [-> | [-> | ->]]]]; simpl in Hsum; try lia.
  f_equal. apply IH. lia.
Qed.

Lemma all_values records :
  Forall no_failure ((λ p, Done (insert_record p) : task P V E) <$> records) →
  ∃ results, mapM child_value ((λ p, Done (insert_record p) : task P V E) <$> records)
               = Some results
             ∧ Success <$> results = insert_record <$> records.
Proof.
  induction records as [|p records IH]; intros HF.
  - by exists [].
  - rewrite fmap_cons in HF. apply Forall_cons in HF as [Hp HF].
    destruct (IH HF) as (vs & Hm & Hvs). apply mapM_Some in Hm.
    destruct (insert_record p) as [v|e] eqn:Hop; [|by destruct (Hp e)].
    exists (v :: vs). split.
    + apply mapM_Some. rewrite fmap_cons. constructor; [|done].
      by rewrite Hop.
    + by rewrite !fmap_cons, Hvs, Hop.
Qed.

Lemma task_of_pending records (l : list (task P V E)) i t :
  Forall2 (task_of insert_record) records l → l !! i = Some t →
  match t with
  | Created p | Waiting p | Woken p | InFlight p => records !! i = Some p
  | Done r => ∃ p, records !! i = Some p ∧ r = insert_record p
  end.
Proof.
  intros HF Hi. destruct (task_of_lookup _ _ _ _ HF Hi) as (p & Hp & Ht).
  destruct Ht as [-> | [-> | [-> | [-> | ->]]]]; eauto.
Qed.

(** *** The queue of the semaphore *)

Lemma first_pending_Some (l : list (task P V E)) queue j q :
  first_pending l queue = Some (j, q) →
  j ∈ queue ∧ l !! j = Some (Waiting q).
Proof.
  induction queue as [|k queue IH]; simpl; [done|].
  destruct (l !! k) as [[p|p|p|p|r]|] eqn:Hk;
    try (intros H; destruct (IH H); split; [by right|done]).
  intros [= -> ->]. split; [left|done].
Qed.

Lemma first_pending_None (l : list (task P V E)) queue j q :
  first_pending l queue = None → j ∈ queue → l !! j ≠ Some (Waiting q).
Proof.
  induction queue as [|k queue IH]; simpl; [by intros _ ?%not_elem_of_nil|].
  intros Hnone Hin Hj. apply elem_of_cons in Hin as [->|Hin].
  - by rewrite Hj in Hnone.
  - destruct (l !! k) as [[]|]; try done; by apply IH.
Qed.

Lemma elem_of_remove_first i j queue :
  NoDup queue → j ∈ remove_first i queue ↔ j ∈ queue ∧ j ≠ i.
Proof.
  induction queue as [|k queue IH]; simpl; intros Hnd.
  - split; [by intros ?%not_elem_of_nil|by intros [?%not_elem_of_nil _]].
  - apply NoDup_cons in Hnd as [Hk Hnd]. destruct (decide (k = i)) as [->|Hne].
    + rewrite elem_of_cons. split.
      * intros Hj. split; [by right|]. by intros ->.
      * by intros [[->|?] ?].
    + rewrite !elem_of_cons, IH by done. split.
      * intros [->|[? ?]]; auto.
      * intros [[->|?] ?]; auto.
Qed.

Lemma NoDup_remove_first i queue : NoDup queue → NoDup (remove_first i queue).
Proof.
  induction queue as [|k queue IH]; simpl; [done|].
  intros [Hk Hnd]%NoDup_cons. destruct (decide (k = i)); [done|].
  apply NoDup_cons. split; [|by apply IH].
  rewrite elem_of_remove_first by done. by intros [? _].
Qed.

(** What [_wake_up_next] does when every task suspended on a pending future
    is in the queue: nothing if no task is, and otherwise one of them gets a
    permit. *)
Lemma wake_up_next_cases s :
  (∀ j q, tasks s !! j = Some (Waiting q) → j ∈ waiters s) →
  (waiting s = 0 ∧ wake_up_next s = s) ∨
  (∃ j q, tasks s !! j = Some (Waiting q) ∧
          wake_up_next s
          = LoopState (semaphore s - 1) (waiters s)
                      (<[j := Woken q]> (tasks s))
                      (nfinished s) (outer s) (issued s)).
Proof.
  intros Hqueue. unfold wake_up_next.
  destruct (first_pending (tasks s) (waiters s)) as [[j q]|] eqn:Hfirst.
  - right. apply first_pending_Some in Hfirst as [_ Hj]. eauto.
  - left. split; [|done]. apply sum_list_with_zero. intros j t Hj.
    destruct t as [p|p|p|p|r]; try done.
    by destruct (first_pending_None _ _ j p Hfirst (Hqueue _ _ Hj)).
Qed.

Lemma done_callback_fields (r : Outcome V E) s :
  semaphore (done_callback r s) = semaphore s ∧
  waiters (done_callback r s) = waiters s ∧
  tasks (done_callback r s) = tasks s ∧
  nfinished (done_callback r s) = S (nfinished s) ∧
  issued (done_callback r s) = issued s.
Proof.
  unfold done_callback. destruct (outer s); [done|]. destruct r; [|done].
  by match goal with |- context [decide ?X] => destruct (decide X) end.
Qed.

Lemma wake_up_next_fields s :
  waiters (wake_up_next s) = waiters s ∧
  nfinished (wake_up_next s) = nfinished s ∧
  outer (wake_up_next s) = outer s ∧
  issued (wake_up_next s) = issued s.
Proof.
  unfold wake_up_next.
  by destruct (first_pending (tasks s) (waiters s)) as [[j q]|].
Qed.

Lemma release_fields s :
  waiters (release s) = waiters s ∧
  nfinished (release s) = nfinished s ∧
  outer (release s) = outer s ∧
  issued (release s) = issued s.
Proof. unfold release. by rewrite !(proj1 (wake_up_next_fields _)),
  !(proj1 (proj2 (wake_up_next_fields _))),
  !(proj1 (proj2 (proj2 (wake_up_next_fields _)))),
  !(proj2 (proj2 (proj2 (wake_up_next_fields _)))). Qed.

(** The outer future after the end of a call: a result already there stays,
    and a failure resolves a pending one. *)
Lemma release_and_finish_resolved i (r : Outcome V E) s res :
  outer s = Some res → outer (release_and_finish i r s) = Some res.
Proof.
  intros Hout. unfold release_and_finish, done_callback. simpl.
  by rewrite (proj1 (proj2 (proj2 (release_fields s)))), Hout.
Qed.

Lemma release_and_finish_failure i (e : E) s :
  outer s = None →
  outer (release_and_finish i (Failure e) s) = Some (Raised e).
Proof.
  intros Hout. unfold release_and_finish, done_callback. simpl.
  by rewrite (proj1 (proj2 (proj2 (release_fields s)))), Hout.
Qed.

(** The six ways a resumption goes: a first run that finds the semaphore
    free, or locked; a woken task that enters its call, alone or waking the
    next waiter; a call that ends, the permit going back to the counter or
    to the first waiter. *)
Lemma step_cases s i s' :
  queue_ok s → step i s = Some s' →
  (∃ p v, tasks s !! i = Some (Created p) ∧
     semaphore s = S v ∧ waiters s = [] ∧
     s' = LoopState v [] (<[i:=InFlight p]> (tasks s))
                    (nfinished s) (outer s) (issued s ++ [p])) ∨
  (∃ p, tasks s !! i = Some (Created p) ∧
     (semaphore s = 0 ∨ waiters s ≠ []) ∧
     s' = LoopState (semaphore s) (waiters s ++ [i])
                    (<[i:=Waiting p]> (tasks s))
                    (nfinished s) (outer s) (issued s)) ∨
  (∃ p, tasks s !! i = Some (Woken p) ∧
     (semaphore s = 0 ∨ waiting s = 0) ∧
     s' = LoopState (semaphore s) (remove_first i (waiters s))
                    (<[i:=InFlight p]> (tasks s))
                    (nfinished s) (outer s) (issued s ++ [p])) ∨
  (∃ p j q v, tasks s !! i = Some (Woken p) ∧
     semaphore s = S v ∧ tasks s !! j = Some (Waiting q) ∧
     s' = LoopState v (remove_first i (waiters s))
                    (<[i:=InFlight p]> (<[j:=Woken q]> (tasks s)))
                    (nfinished s) (outer s) (issued s ++ [p])) ∨
  (∃ p, tasks s !! i = Some (InFlight p) ∧ waiting s = 0 ∧
     s' = done_callback (insert_record p)
            (LoopState (S (semaphore s)) (waiters s)
                       (<[i:=Done (insert_record p)]> (tasks s))
                       (nfinished s) (outer s) (issued s))) ∨
  (∃ p j q, tasks s !! i = Some (InFlight p) ∧
     tasks s !! j = Some (Waiting q) ∧
     s' = done_callback (insert_record p)
            (LoopState (semaphore s) (waiters s)
                       (<[i:=Done (insert_record p)]>
                          (<[j:=Woken q]> (tasks s)))
                       (nfinished s) (outer s) (issued s))).
Proof.
  intros [Hnd Hqueue]. unfold process_with_limit.
  destruct (tasks s !! i) as [[p|p|p|p|r]|] eqn:Hi; try done; intros [= <-].
  - unfold acquire, locked.
    destruct (semaphore s) as [|v] eqn:Hsem.
    { right; left. exists p. split; [done|]. by split; [left|]. }
    destruct (waiters s) as [|k queue] eqn:Hw.
    + left. exists p, v. unfold enter_body. simpl.
      by rewrite Nat.sub_0_r.
    + right; left. exists p. split; [done|]. by split; [right|].
  - unfold acquire_resumed. simpl.
    destruct (semaphore s) as [|v] eqn:Hsem.
    { right; right; left. exists p. split; [done|]. by split; [left|]. }
    set (s1 := LoopState (S v) (remove_first i (waiters s)) (tasks s)
                         (nfinished s) (outer s) (issued s)).
    destruct (wake_up_next_cases s1) as [[Hz ->]|(j & q & Hj & ->)].
    + simpl. intros j q Hj. apply elem_of_remove_first; [done|].
      split; [apply Hqueue; eauto|]. intros ->. congruence.
    + right; right; left. exists p. split; [done|]. by split; [right|].
    + right; right; right; left. exists p, j, q, v.
      unfold enter_body. simpl. by rewrite Nat.sub_0_r.
  - unfold release_and_finish, release.
    set (s1 := LoopState (S (semaphore s)) (waiters s) (tasks s)
                         (nfinished s) (outer s) (issued s)).
    destruct (wake_up_next_cases s1) as [[Hz ->]|(j & q & Hj & ->)].
    + simpl. intros j q Hj. apply Hqueue. eauto.
    + right; right; right; right; left. by exists p.
    + right; right; right; right; right. exists p, j, q. simpl.
      by rewrite Nat.sub_0_r.
Qed.

Local Ltac weigh l t' Hi :=
  let H1 := fresh "Hwait" in
  let H2 := fresh "Hwoke" in
  let H3 := fresh "Hfly" in
  let H4 := fresh "Hdone" in
  pose proof (sum_list_with_insert (@is_waiting P V E) l _ _ t' Hi) as H1;
  pose proof (sum_list_with_insert (@is_woken P V E) l _ _ t' Hi) as H2;
  pose proof (sum_list_with_insert (@is_in_flight P V E) l _ _ t' Hi) as H3;
  pose proof (sum_list_with_insert (@is_done P V E) l _ _ t' Hi) as H4;
  simpl in H1, H2, H3, H4.

Lemma gather_init_invariant max_concurrent records :
  Inv max_concurrent records (gather_init max_concurrent records).
Proof.
  assert (∀ w : task P V E → nat, (∀ p, w (Created p) = 0) →
            sum_list_with w (Created <$> records) = 0) as Hzero.
  { intros w Hw. induction records as [|p l IH]; [done|].
    rewrite fmap_cons. simpl. rewrite Hw. by rewrite IH. }
  split; unfold waiting, woken, in_flight, finished, outer_ok; simpl.
  - apply Forall2_fmap_r, Forall_Forall2_diag, Forall_forall.
    intros p _. by left.
  - rewrite !Hzero by done. lia.
  - by rewrite Hzero.
  - destruct records as [|p l]; [done|]. split; [simpl; lia|].
    apply Forall_fmap, Forall_forall. by intros q _ e.
  - by rewrite !Hzero.
  - split; [apply NoDup_nil_2|]. simpl. intros i. split.
    + by intros ?%not_elem_of_nil.
    + intros [p Hp]. rewrite list_lookup_fmap in Hp.
      destruct (records !! i); simpl in Hp; destruct Hp; done.
  - rewrite Hzero by done. lia.
Qed.

(** *** Every resumption keeps the invariant *)

Abbreviation queued l k :=
  (∃ p, l !! k = Some (Waiting p : task P V E) ∨ l !! k = Some (Woken p)).

Lemma queued_insert_ne (l : list (task P V E)) i t k :
  k ≠ i → queued (<[i:=t]> l) k ↔ queued l k.
Proof. intros Hne. by rewrite list_lookup_insert_ne. Qed.

Lemma queued_insert_eq (l : list (task P V E)) i t :
  i < length l → queued (<[i:=t]> l) i ↔ is_waiting t + is_woken t = 1.
Proof.
  intros Hlt. rewrite list_lookup_insert_eq by done. split.
  - by intros [p [[= ->]|[= ->]]].
  - destruct t as [p|p|p|p|r]; simpl; try lia; eauto.
Qed.

Lemma empty_queue_counts s :
  queue_ok s → waiters s = [] → waiting s = 0 ∧ woken s = 0.
Proof.
  intros [_ Hqueue] Hnil.
  split; apply sum_list_with_zero; intros k t Hk;
    destruct t as [p|p|p|p|r]; try done;
    (assert (k ∈ waiters s) as Hin by (apply Hqueue; eauto));
    rewrite Hnil in Hin; by apply not_elem_of_nil in Hin.
Qed.

Lemma step_tasks_of records s i s' :
  queue_ok s → Forall2 (task_of insert_record) records (tasks s) →
  step i s = Some s' →
  Forall2 (task_of insert_record) records (tasks s').
Proof.
  intros HQ HT Hstep.
  destruct (step_cases _ _ _ HQ Hstep)
    as [(p & v & Hi & Hsem & Hw & ->)
       |[(p & Hi & Hlock & ->)
       |[(p & Hi & Hno & ->)
       |[(p & j & q & v & Hi & Hsem & Hj & ->)
       |[(p & Hi & Hno & ->)
       |(p & j & q & Hi & Hj & ->)]]]]];
    rewrite ?(proj1 (proj2 (proj2 (done_callback_fields _ _)))); simpl;
    pose proof (task_of_pending _ _ _ _ HT Hi) as Hr; simpl in Hr;
    try (pose proof (task_of_pending _ _ _ _ HT Hj) as Hrj; simpl in Hrj);
    repeat (eapply task_of_insert; [|eassumption|unfold task_of; by auto 10]);
    done.
Qed.

(** The counts: permits, finished children and calls issued. *)
Lemma step_counts max_concurrent s i s' :
  queue_ok s →
  semaphore s + woken s + in_flight s = max_concurrent →
  nfinished s = finished s →
  length (issued s) = in_flight s + finished s →
  step i s = Some s' →
  semaphore s' + woken s' + in_flight s' = max_concurrent ∧
  nfinished s' = finished s' ∧
  length (issued s') = in_flight s' + finished s'.
Proof.
  intros HQ HP HN HI Hstep. unfold waiting, woken, in_flight, finished in *.
  destruct (step_cases _ _ _ HQ Hstep)
    as [(p & v & Hi & Hsem & Hw & ->)
       |[(p & Hi & Hlock & ->)
       |[(p & Hi & Hno & ->)
       |[(p & j & q & v & Hi & Hsem & Hj & ->)
       |[(p & Hi & Hno & ->)
       |(p & j & q & Hi & Hj & ->)]]]]].
  - weigh (tasks s) (InFlight p : task P V E) Hi. simpl.
    rewrite length_app. simpl. lia.
  - weigh (tasks s) (Waiting p : task P V E) Hi. simpl. lia.
  - weigh (tasks s) (InFlight p : task P V E) Hi. simpl.
    rewrite length_app. simpl. lia.
  - assert (j ≠ i) as Hne by (intros ->; congruence).
    weigh (tasks s) (Woken q : task P V E) Hj.
    assert (<[j:=Woken q]> (tasks s) !! i = Some (Woken p)) as Hi'
      by (by rewrite list_lookup_insert_ne).
    weigh (<[j:=Woken q]> (tasks s)) (InFlight p : task P V E) Hi'. simpl.
    rewrite length_app. simpl. lia.
  - destruct (done_callback_fields (insert_record p)
                (LoopState (S (semaphore s)) (waiters s)
                   (<[i:=Done (insert_record p)]> (tasks s))
                   (nfinished s) (outer s) (issued s)))
      as (-> & _ & -> & -> & ->).
    weigh (tasks s) (Done (insert_record p) : task P V E) Hi. simpl. lia.
  - destruct (done_callback_fields (insert_record p)
                (LoopState (semaphore s) (waiters s)
                   (<[i:=Done (insert_record p)]> (<[j:=Woken q]> (tasks s)))
                   (nfinished s) (outer s) (issued s)))
      as (-> & _ & -> & -> & ->).
    assert (j ≠ i) as Hne by (intros ->; congruence).
    weigh (tasks s) (Woken q : task P V E) Hj.
    assert (<[j:=Woken q]> (tasks s) !! i = Some (InFlight p)) as Hi'
      by (by rewrite list_lookup_insert_ne).
    weigh (<[j:=Woken q]> (tasks s)) (Done (insert_record p) : task P V E) Hi'.
    simpl. lia.
Qed.

Lemma step_queue_ok s i s' : queue_ok s → step i s = Some s' → queue_ok s'.
Proof.
  intros HQ Hstep. pose proof HQ as [Hnd Hqueue].
  destruct (step_cases _ _ _ HQ Hstep)
    as [(p & v & Hi & Hsem & Hw & ->)
       |[(p & Hi & Hlock & ->)
       |[(p & Hi & Hno & ->)
       |[(p & j & q & v & Hi & Hsem & Hj & ->)
       |[(p & Hi & Hno & ->)
       |(p & j & q & Hi & Hj & ->)]]]]];
    unfold queue_ok;
    rewrite ?(proj1 (proj2 (done_callback_fields _ _))),
            ?(proj1 (proj2 (proj2 (done_callback_fields _ _)))); simpl;
    pose proof (lookup_lt_Some _ _ _ Hi) as Hlt.
  - split; [apply NoDup_nil_2|]. intros k. rewrite <- Hw.
    destruct (decide (k = i)) as [->|Hne].
    + rewrite queued_insert_eq by done. simpl. rewrite Hqueue.
      split; [|lia]. intros [p' [?|?]]; congruence.
    + by rewrite queued_insert_ne.
  - assert (i ∉ waiters s) as Hnotin.
    { rewrite Hqueue. intros [p' [?|?]]; congruence. }
    split.
    + apply NoDup_app. split; [done|]. split; [|apply NoDup_singleton].
      intros k Hk ->%list_elem_of_singleton. done.
    + intros k. rewrite elem_of_app, list_elem_of_singleton.
      destruct (decide (k = i)) as [->|Hne].
      * rewrite queued_insert_eq by done. simpl. split; [done|by right].
      * rewrite queued_insert_ne, <- Hqueue by done. split; [|by left].
        by intros [?|?].
  - split; [by apply NoDup_remove_first|]. intros k.
    rewrite elem_of_remove_first by done.
    destruct (decide (k = i)) as [->|Hne].
    + rewrite queued_insert_eq by done. simpl. split; [by intros [_ ?]|lia].
    + rewrite queued_insert_ne, <- Hqueue by done. split; [by intros [? _]|done].
  - assert (j ≠ i) as Hji by (intros ->; congruence).
    pose proof (lookup_lt_Some _ _ _ Hj) as Hltj.
    split; [by apply NoDup_remove_first|]. intros k.
    rewrite elem_of_remove_first by done.
    destruct (decide (k = i)) as [->|Hne].
    + rewrite queued_insert_eq by (by rewrite length_insert). simpl.
      split; [by intros [_ ?]|lia].
    + rewrite queued_insert_ne by done.
      destruct (decide (k = j)) as [->|Hnj].
      * rewrite queued_insert_eq by done. simpl.
        split; [done|]. intros _. split; [|done]. apply Hqueue. eauto.
      * rewrite queued_insert_ne, <- Hqueue by done.
        split; [by intros [? _]|done].
  - split; [done|]. intros k.
    destruct (decide (k = i)) as [->|Hne].
    + rewrite queued_insert_eq by done. simpl. rewrite Hqueue.
      split; [|lia]. intros [p' [?|?]]; congruence.
    + by rewrite queued_insert_ne.
  - assert (j ≠ i) as Hji by (intros ->; congruence).
    pose proof (lookup_lt_Some _ _ _ Hj) as Hltj.
    split; [done|]. intros k.
    destruct (decide (k = i)) as [->|Hne].
    + rewrite queued_insert_eq by (by rewrite length_insert). simpl.
      rewrite Hqueue. split; [|lia]. intros [p' [?|?]]; congruence.
    + rewrite queued_insert_ne by done.
      destruct (decide (k = j)) as [->|Hnj].
      * rewrite queued_insert_eq by done. simpl.
        split; [done|]. intros _. apply Hqueue. eauto.
      * by rewrite queued_insert_ne.
Qed.

(** A free permit is never left beside a task that waits for one with no
    task on its way to take it. *)
Lemma step_handoff s i s' :
  queue_ok s →
  (0 < semaphore s → 0 < waiting s → 0 < woken s) →
  step i s = Some s' →
  0 < semaphore s' → 0 < waiting s' → 0 < woken s'.
Proof.
  intros HQ HH Hstep. pose proof HQ as [Hnd Hqueue].
  unfold waiting, woken in *.
  destruct (step_cases _ _ _ HQ Hstep)
    as [(p & v & Hi & Hsem & Hw & ->)
       |[(p & Hi & Hlock & ->)
       |[(p & Hi & Hno & ->)
       |[(p & j & q & v & Hi & Hsem & Hj & ->)
       |[(p & Hi & Hno & ->)
       |(p & j & q & Hi & Hj & ->)]]]]];
    rewrite ?(proj1 (done_callback_fields _ _)),
            ?(proj1 (proj2 (proj2 (done_callback_fields _ _)))); simpl.
  - destruct (empty_queue_counts s HQ Hw) as [Hz _]. unfold waiting in Hz.
    weigh (tasks s) (InFlight p : task P V E) Hi. lia.
  - weigh (tasks s) (Waiting p : task P V E) Hi. intros Hsem _.
    destruct Hlock as [?|Hne]; [lia|].
    assert (∃ k, k ∈ waiters s) as [k Hk]
      by (destruct (waiters s) as [|k ?]; [done|exists k; left]).
    apply Hqueue in Hk as [p' [Hk|Hk]].
    + pose proof (sum_list_with_lookup is_waiting _ _ _ Hk) as Hle.
      simpl in Hle. lia.
    + pose proof (sum_list_with_lookup is_woken _ _ _ Hk) as Hle.
      simpl in Hle. lia.
  - weigh (tasks s) (InFlight p : task P V E) Hi. unfold waiting in Hno. lia.
  - assert (j ≠ i) as Hji by (intros ->; congruence).
    intros _ _.
    assert (<[i:=InFlight p]> (<[j:=Woken q]> (tasks s)) !! j
            = Some (Woken q)) as Hj'.
    { rewrite list_lookup_insert_ne by done.
      apply list_lookup_insert_eq. by eapply lookup_lt_Some. }
    pose proof (sum_list_with_lookup is_woken _ _ _ Hj') as Hle.
    simpl in Hle. lia.
  - weigh (tasks s) (Done (insert_record p) : task P V E) Hi.
    unfold waiting in Hno. lia.
  - assert (j ≠ i) as Hji by (intros ->; congruence).
    intros _ _.
    assert (<[i:=Done (insert_record p)]> (<[j:=Woken q]> (tasks s)) !! j
            = Some (Woken q)) as Hj'.
    { rewrite list_lookup_insert_ne by done.
      apply list_lookup_insert_eq. by eapply lookup_lt_Some. }
    pose proof (sum_list_with_lookup is_woken _ _ _ Hj') as Hle.
    simpl in Hle. lia.
Qed.

Lemma done_in_flight_le_length (l : list (task P V E)) :
  sum_list_with is_done l + sum_list_with is_in_flight l ≤ length l.
Proof. induction l as [|[] l IH]; simpl; lia. Qed.

Lemma finish_outer_ok max_concurrent records s i p
    (l0 : list (task P V E)) (v : nat) :
  Inv max_concurrent records s →
  Forall2 (task_of insert_record) records l0 →
  l0 !! i = Some (Done (insert_record p)) →
  records !! i = Some p →
  sum_list_with is_done l0 = S (finished s) →
  (∀ k t, k ≠ i → l0 !! k = Some t → Forall no_failure (tasks s) →
          no_failure t) →
  outer_ok insert_record records
    (done_callback (insert_record p)
       (LoopState v (waiters s) l0 (nfinished s) (outer s) (issued s))).
Proof.
  intros [HT HP HN HO HI HQ HH] HT0 Hi0 Hr Hdone Hothers.
  pose proof (Forall2_length _ _ _ HT0) as Hlen.
  pose proof (sum_list_with_le_length (@is_done P V E) l0) as Hle.
  assert (∀ x : task P V E, is_done x ≤ 1) as Hone by (by intros []; simpl; lia).
  specialize (Hle Hone).
  unfold done_callback, outer_ok in *. simpl.
  destruct (outer s) as [[results|e]|] eqn:Hout; [|done|].
  { destruct HO as [Hall _].
    pose proof (done_in_flight_le_length l0) as Hpart.
    unfold finished in *. lia. }
  destruct HO as [Hlt HO].
  destruct (insert_record p) as [v'|e] eqn:Hres; simpl; [|by eauto].
  assert (Forall no_failure l0) as HO0.
  { apply Forall_lookup. intros k t Hk.
    destruct (decide (k = i)) as [->|Hne]; [|by eapply Hothers].
    rewrite Hi0 in Hk. injection Hk as <-. by intros e. }
  match goal with |- context [decide ?X] => destruct (decide X) as [Hall|Hnot] end;
    simpl.
  - assert (l0 = (λ q, Done (insert_record q)) <$> records) as Heq.
    { apply all_done_tasks; [done|]. lia. }
    rewrite Heq in HO0. destruct (all_values _ HO0) as (vs & Hm & Hvs).
    rewrite Heq, Hm. simpl. split; [|done].
    rewrite Heq, length_fmap in Hall. done.
  - split; [lia|done].
Qed.

Lemma step_outer_ok max_concurrent records s i s' :
  Inv max_concurrent records s → step i s = Some s' →
  outer_ok insert_record records s'.
Proof.
  intros HInv Hstep. pose proof HInv as [HT HP HN HO HI HQ HH].
  pose proof (step_tasks_of _ _ _ _ HQ HT Hstep) as HT'.
  assert (∀ (l : list (task P V E)) k t,
            Forall no_failure l → (∀ e, t ≠ Done (Failure e)) →
            Forall no_failure (<[k:=t]> l)) as Hins.
  { intros l k t Hl Ht. by apply Forall_insert. }
  destruct (step_cases _ _ _ HQ Hstep)
    as [(p & v & Hi & Hsem & Hw & ->)
       |[(p & Hi & Hlock & ->)
       |[(p & Hi & Hno & ->)
       |[(p & j & q & v & Hi & Hsem & Hj & ->)
       |[(p & Hi & Hno & ->)
       |(p & j & q & Hi & Hj & ->)]]]]];
    pose proof (task_of_pending _ _ _ _ HT Hi) as Hr; simpl in Hr.
  1-4: unfold outer_ok in *; simpl;
       destruct (outer s) as [[?|?]|]; [done|done|];
       destruct HO as [? HO]; split; [done|]; by repeat apply Hins.
  - rewrite (proj1 (proj2 (proj2 (done_callback_fields _ _)))) in HT'.
    simpl in HT'.
    eapply finish_outer_ok; try done.
    + apply list_lookup_insert_eq. by eapply lookup_lt_Some.
    + pose proof (sum_list_with_insert (@is_done P V E) _ _ _
                    (Done (insert_record p)) Hi) as Hd.
      simpl in Hd. unfold finished. lia.
    + intros k t Hne Hk Hall. rewrite list_lookup_insert_ne in Hk by done.
      by eapply Forall_lookup_1.
  - rewrite (proj1 (proj2 (proj2 (done_callback_fields _ _)))) in HT'.
    simpl in HT'.
    assert (j ≠ i) as Hji by (intros ->; congruence).
    eapply finish_outer_ok; try done.
    + apply list_lookup_insert_eq. rewrite length_insert.
      by eapply lookup_lt_Some.
    + pose proof (sum_list_with_insert (@is_done P V E) _ _ _
                    (Woken q) Hj) as Hd1.
      assert (<[j:=Woken q]> (tasks s) !! i = Some (InFlight p)) as Hi'
        by (by rewrite list_lookup_insert_ne).
      pose proof (sum_list_with_insert (@is_done P V E) _ _ _
                    (Done (insert_record p)) Hi') as Hd2.
      simpl in Hd1, Hd2. unfold finished. lia.
    + intros k t Hne Hk Hall. rewrite list_lookup_insert_ne in Hk by done.
      destruct (decide (k = j)) as [->|Hnj].
      * rewrite list_lookup_insert_eq in Hk by (by eapply lookup_lt_Some).
        injection Hk as <-. by intros e.
      * rewrite list_lookup_insert_ne in Hk by done.
        by eapply Forall_lookup_1.
Qed.

(** Every resumption keeps the invariant. *)
Lemma step_invariant max_concurrent records s i s' :
  Inv max_concurrent records s → step i s = Some s' →
  Inv max_concurrent records s'.
Proof.
  intros HInv Hstep. pose proof HInv as [HT HP HN HO HI HQ HH].
  destruct (step_counts _ _ _ _ HQ HP HN HI Hstep) as (? & ? & ?).
  split; try done.
  - by eapply step_tasks_of.
  - by eapply step_outer_ok.
  - by eapply step_queue_ok.
  - by eapply step_handoff.
Qed.

Lemma exec_invariant max_concurrent records trace s s' :
  Inv max_concurrent records s → exec insert_record trace s = Some s' →
  Inv max_concurrent records s'.
Proof.
  revert s. induction trace as [|i trace IH]; simpl; intros s HInv.
  - by intros [= <-].
  - destruct (step i s) as [s1|] eqn:Hs; [|done].
    apply IH. by eapply step_invariant.
Qed.

(** *** Progress *)

Lemma runnable_step s i : runnable s i = true ↔ is_Some (step i s).
Proof.
  unfold runnable, process_with_limit.
  destruct (tasks s !! i) as [[p|p|p|p|r]|];
    split; intros H; eauto; try done; by destruct H.
Qed.

Lemma elem_of_ready s i : i ∈ ready s ↔ runnable s i = true.
Proof.
  unfold ready. rewrite list_elem_of_filter, elem_of_seq.
  split; [by intros [? _]|]. intros Hr. split; [done|].
  split; [lia|]. simpl. apply lookup_lt_is_Some.
  unfold runnable in Hr. by destruct (tasks s !! i).
Qed.

Lemma step_variant s i s' :
  queue_ok s → step i s = Some s' → variant s' < variant s.
Proof.
  intros HQ Hstep. unfold variant.
  destruct (step_cases _ _ _ HQ Hstep)
    as [(p & v & Hi & Hsem & Hw & ->)
       |[(p & Hi & Hlock & ->)
       |[(p & Hi & Hno & ->)
       |[(p & j & q & v & Hi & Hsem & Hj & ->)
       |[(p & Hi & Hno & ->)
       |(p & j & q & Hi & Hj & ->)]]]]];
    rewrite ?(proj1 (proj2 (proj2 (done_callback_fields _ _)))); simpl.
  - pose proof (sum_list_with_insert (@remaining P V E) _ _ _
                  (InFlight p) Hi) as H. simpl in H. lia.
  - pose proof (sum_list_with_insert (@remaining P V E) _ _ _
                  (Waiting p) Hi) as H. simpl in H. lia.
  - pose proof (sum_list_with_insert (@remaining P V E) _ _ _
                  (InFlight p) Hi) as H. simpl in H. lia.
  - assert (j ≠ i) as Hji by (intros ->; congruence).
    pose proof (sum_list_with_insert (@remaining P V E) _ _ _
                  (Woken q) Hj) as H1.
    assert (<[j:=Woken q]> (tasks s) !! i = Some (Woken p)) as Hi'
      by (by rewrite list_lookup_insert_ne).
    pose proof (sum_list_with_insert (@remaining P V E) _ _ _
                  (InFlight p) Hi') as H2.
    simpl in H1, H2. lia.
  - pose proof (sum_list_with_insert (@remaining P V E) _ _ _
                  (Done (insert_record p)) Hi) as H. simpl in H. lia.
  - assert (j ≠ i) as Hji by (intros ->; congruence).
    pose proof (sum_list_with_insert (@remaining P V E) _ _ _
                  (Woken q) Hj) as H1.
    assert (<[j:=Woken q]> (tasks s) !! i = Some (InFlight p)) as Hi'
      by (by rewrite list_lookup_insert_ne).
    pose proof (sum_list_with_insert (@remaining P V E) _ _ _
                  (Done (insert_record p)) Hi') as H2.
    simpl in H1, H2. lia.
Qed.

Lemma variant_zero_all_done s : variant s = 0 → finished s = length (tasks s).
Proof.
  unfold variant, finished. induction (tasks s) as [|t l IH]; simpl; [done|].
  destruct t; simpl; lia.
Qed.

(** A loop whose semaphore was created with a permit stalls only when every
    task is done: there is no deadlock. *)
Lemma ready_nil_all_done max_concurrent records s :
  Inv max_concurrent records s → 1 ≤ max_concurrent →
  ready s = [] → finished s = length (tasks s).
Proof.
  intros [HT HP HN HO HI HQ HH] HC Hnil.
  assert (Forall (λ t, match t with
                       | Done _ | Waiting _ => True
                       | _ => False
                       end) (tasks s)) as Hblocked.
  { apply Forall_lookup. intros i t Hi.
    destruct (runnable s i) eqn:Hrun.
    - apply elem_of_ready in Hrun. rewrite Hnil in Hrun.
      by apply not_elem_of_nil in Hrun.
    - unfold runnable in Hrun. rewrite Hi in Hrun. by destruct t. }
  unfold waiting, woken, in_flight, finished in *.
  assert (sum_list_with is_in_flight (tasks s) = 0 ∧
          sum_list_with is_woken (tasks s) = 0) as [Hfly Hwoke].
  { clear -Hblocked. induction Hblocked as [|t l Ht _ IH]; [done|].
    destruct t; simpl; try done. }
  assert (sum_list_with is_waiting (tasks s) = 0) as Hwait by lia.
  clear -Hblocked Hwait. induction Hblocked as [|t l Ht _ IH]; [done|].
  destruct t; simpl in *; try done. by rewrite IH.
Qed.

Lemma ready_pick s (n : nat) :
  ready s !! (n `mod` length (ready s)) = None → ready s = [].
Proof.
  intros Hnone. apply lookup_ge_None in Hnone.
  destruct (ready s) as [|i l]; [done|].
  pose proof (Nat.mod_upper_bound n (length (i :: l))) as Hlt.
  simpl in *. lia.
Qed.

(** With enough fuel the loop keeps the invariant and ends because it was
    told to stop or because every task is done, never because the fuel ran
    out. *)
Lemma run_until_spec max_concurrent records stop fuel schedule s :
  Inv max_concurrent records s → 1 ≤ max_concurrent → variant s ≤ fuel →
  Inv max_concurrent records (run_until insert_record stop fuel schedule s) ∧
  (stop (run_until insert_record stop fuel schedule s) = true ∨
   finished (run_until insert_record stop fuel schedule s) = length records).
Proof.
  intros HInv HC. revert schedule s HInv.
  induction fuel as [|fuel IH]; intros schedule s HInv Hfuel; simpl.
  - split; [done|]. right.
    rewrite variant_zero_all_done by lia.
    symmetry. apply (Forall2_length _ _ _ (inv_tasks _ _ _ _ HInv)).
  - destruct (stop s) eqn:Hstop; [by auto|].
    destruct (ready s !! (hd 0 schedule `mod` length (ready s)))
      as [i|] eqn:Hpick.
    + assert (is_Some (step i s)) as [s' Hs'].
      { apply runnable_step, elem_of_ready. by eapply list_elem_of_lookup_2. }
      rewrite Hs'. apply IH; [by eapply step_invariant|].
      pose proof (step_variant _ _ _ (inv_queue _ _ _ _ HInv) Hs'). lia.
    + split; [done|]. right. apply ready_pick in Hpick.
      rewrite (ready_nil_all_done _ _ _ HInv HC Hpick).
      symmetry. apply (Forall2_length _ _ _ (inv_tasks _ _ _ _ HInv)).
Qed.

(** The states of the loop are states of some explicit run. *)
Lemma run_until_exec stop fuel schedule s :
  ∃ trace, exec insert_record trace s
           = Some (run_until insert_record stop fuel schedule s).
Proof.
  revert schedule s. induction fuel as [|fuel IH]; intros schedule s; simpl.
  - by exists [].
  - destruct (stop s); [by exists []|].
    destruct (ready s !! _) as [i|]; [|by exists []].
    destruct (step i s) as [s'|] eqn:Hs; [|by exists []].
    destruct (IH (tl schedule) s') as [trace Htrace].
    exists (i :: trace). simpl. by rewrite Hs.
Qed.

Lemma variant_init max_concurrent records :
  variant (gather_init max_concurrent records : state) = enough_fuel records.
Proof.
  unfold variant, enough_fuel. simpl.
  induction records as [|p l IH]; [done|].
  rewrite fmap_cons. simpl. rewrite IH. simpl. lia.
Qed.

(** *** The awaited result *)

Lemma await_gather_invariant schedule max_concurrent records :
  1 ≤ max_concurrent →
  Inv max_concurrent records
      (await_gather insert_record schedule max_concurrent records) ∧
  is_Some (outer (await_gather insert_record schedule max_concurrent records)).
Proof.
  intros HC. unfold await_gather.
  destruct (run_until_spec max_concurrent records outer_done
              (enough_fuel records) schedule
              (gather_init max_concurrent records)) as [HInv Hend].
  - apply gather_init_invariant.
  - done.
  - by rewrite variant_init.
  - split; [done|]. destruct Hend as [Hstop|Hall].
    + unfold outer_done in Hstop. by apply bool_decide_eq_true in Hstop.
    + destruct HInv as [HT HP HN HO HI HQ HH]. unfold outer_ok in HO.
      destruct (outer _) as [res|]; [by eexists|].
      destruct HO as [Hlt _]. lia.
Qed.

Lemma success_values (values1 values2 : list V) :
  Success (E:=E) <$> values1 = Success <$> values2 → values1 = values2.
Proof.
  revert values2. induction values1 as [|v l IH]; intros [|w k] H;
    simplify_eq/=; [done|]. f_equal. by apply IH.
Qed.

Lemma success_lookup records (values : list V) i p :
  insert_record <$> records = Success <$> values → records !! i = Some p →
  ∃ v, values !! i = Some v ∧ insert_record p = Success v.
Proof.
  intros Heq Hp.
  assert ((insert_record <$> records) !! i = Some (insert_record p)) as Hi
    by (by rewrite list_lookup_fmap, Hp).
  rewrite Heq, list_lookup_fmap in Hi.
  destruct (values !! i) as [v|]; simplify_eq/=. eauto.
Qed.

(** The awaited call returns the values of the records exactly when every
    record succeeds, and raises the exception of a record otherwise. *)
Lemma gather_result_cases schedule max_concurrent records :
  1 ≤ max_concurrent →
  (∃ results,
     example_custom_concurrency insert_record schedule max_concurrent records
       = Some (Returned results) ∧
     Success <$> results = insert_record <$> records) ∨
  (∃ e i record_data,
     example_custom_concurrency insert_record schedule max_concurrent records
       = Some (Raised e) ∧
     records !! i = Some record_data ∧ insert_record record_data = Failure e).
Proof.
  intros HC. unfold example_custom_concurrency.
  destruct (await_gather_invariant schedule max_concurrent records HC)
    as [[HT HP HN HO HI HQ HH] [res Hres]].
  unfold outer_ok in HO. rewrite Hres in HO. rewrite Hres.
  destruct res as [results|e]; [left|right].
  - destruct HO as [_ HO]. eauto.
  - destruct HO as (i & p & ? & ?). eauto 10.
Qed.

Lemma gather_all_success schedule max_concurrent records values :
  1 ≤ max_concurrent →
  insert_record <$> records = Success <$> values →
  example_custom_concurrency insert_record schedule max_concurrent records
    = Some (Returned values).
Proof.
  intros HC Hok.
  destruct (gather_result_cases schedule max_concurrent records HC)
    as [(results & -> & Hres)|(e & i & p & _ & Hp & He)].
  - rewrite Hok in Hres. by rewrite (success_values _ _ Hres).
  - destruct (success_lookup _ _ _ _ Hok Hp) as (v & _ & Hv). congruence.
Qed.

Lemma gather_some_failure schedule max_concurrent records i record_data e :
  1 ≤ max_concurrent →
  records !! i = Some record_data → insert_record record_data = Failure e →
  ∃ e' j q,
    example_custom_concurrency insert_record schedule max_concurrent records
      = Some (Raised e') ∧
    records !! j = Some q ∧ insert_record q = Failure e'.
Proof.
  intros HC Hp He.
  destruct (gather_result_cases schedule max_concurrent records HC)
    as [(results & _ & Hres)|(e' & j & q & ? & ? & ?)]; [|eauto 10].
  symmetry in Hres.
  destruct (success_lookup _ _ _ _ Hres Hp) as (v & _ & Hv). congruence.
Qed.

(** In a state reached by any interleaving, a resolved outer future holds
    the values of all the records or the exception of one of them. *)
Lemma resolved_outer trace max_concurrent records s res :
  exec insert_record trace (gather_init max_concurrent records) = Some s →
  outer s = Some res →
  match res with
  | Returned results => Success <$> results = insert_record <$> records
  | Raised e =>
      ∃ i record_data,
        records !! i = Some record_data ∧ insert_record record_data = Failure e
  end.
Proof.
  intros Hexec Hout.
  pose proof (exec_invariant _ _ _ _ _
                (gather_init_invariant max_concurrent records) Hexec)
    as [_ _ _ HO _ _ _].
  unfold outer_ok in HO. rewrite Hout in HO.
  destruct res; [by destruct HO|done].
Qed.

End DispatchFacts.

(** ** The dispatcher: ordering, bounds, failures *)

Section DispatchClaims.
Import Exceptions Dispatcher.

Context {P V E : Type}.
Variable insert_record : P → Outcome V E.

(** C1, as amended: with a limit of at least one, a batch of N records whose
    calls all succeed returns exactly N results, the one at position [i] being
    the value of [insert_record] on record [i], whatever the schedule of
    completions: under every interleaving of the tasks the outer future can
    only resolve to that list.  (When a call fails the await raises
    instead.) *)
Theorem gather_returns_values_in_input_order
    (schedule : list nat) (max_concurrent : nat) (records : list P)
    (values : list V) :
  1 ≤ max_concurrent →
  insert_record <$> records = Success <$> values →
  example_custom_concurrency insert_record schedule max_concurrent records
    = Some (Returned values) ∧
  length values = length records ∧
  (∀ i record_data, records !! i = Some record_data →
     ∃ v, values !! i = Some v ∧ insert_record record_data = Success v) ∧
  (∀ trace s res,
     exec insert_record trace (gather_init max_concurrent records) = Some s →
     outer s = Some res → res = Returned values).
Proof.
  intros HC Hok. split; [by apply gather_all_success|]. split; [|split].
  - apply (f_equal length) in Hok. by rewrite !length_fmap in Hok.
  - intros i p Hp. by eapply success_lookup.
  - intros trace s res Hexec Hout.
    pose proof (resolved_outer insert_record _ _ _ _ _ Hexec Hout) as Hres.
    destruct res as [results|e].
    + rewrite Hok in Hres. by rewrite (success_values _ _ Hres).
    + destruct Hres as (i & p & Hp & He).
      destruct (success_lookup insert_record _ _ _ _ Hok Hp) as (v & _ & Hv).
      congruence.
Qed.

(** C2: in every state the dispatch can reach, the tasks that entered the
    remote call and did not leave it are at most [max_concurrent]. *)
Theorem in_flight_bounded
    (trace : list nat) (max_concurrent : nat) (records : list P)
    (s : loop_state P V E) :
  exec insert_record trace (gather_init max_concurrent records) = Some s →
  in_flight s ≤ max_concurrent.
Proof.
  intros Hexec.
  pose proof (exec_invariant insert_record _ _ _ _ _
                (gather_init_invariant insert_record max_concurrent records)
                Hexec) as [_ HP _ _ _ _ _].
  lia.
Qed.


(** C4, as amended: a failure of an item is not captured: with a limit of at
    least one, whenever the call of some record fails the await raises, and
    the exception raised is the one of a record of the batch; no list of
    results is returned, under any interleaving of the tasks. *)
Theorem item_failure_is_raised
    (schedule : list nat) (max_concurrent : nat) (records : list P)
    (i : nat) (record_data : P) (e : E) :
  1 ≤ max_concurrent →
  records !! i = Some record_data →
  insert_record record_data = Failure e →
  (∃ e' j q,
     example_custom_concurrency insert_record schedule max_concurrent records
       = Some (Raised e') ∧
     records !! j = Some q ∧ insert_record q = Failure e') ∧
  (∀ results,
     example_custom_concurrency insert_record schedule max_concurrent records
       ≠ Some (Returned results)) ∧
  (∀ trace s results,
     exec insert_record trace (gather_init max_concurrent records) = Some s →
     outer s ≠ Some (Returned results)).
Proof.
  intros HC Hp He.
  destruct (gather_some_failure insert_record schedule _ _ _ _ _ HC Hp He)
    as (e' & j & q & Hres & Hq & He').
  split; [eauto 10|]. split; [intros results; by rewrite Hres|].
  intros trace s results Hexec Hout.
  pose proof (resolved_outer insert_record _ _ _ _ _ Hexec Hout) as Hok.
  simpl in Hok. symmetry in Hok.
  destruct (success_lookup insert_record _ _ _ _ Hok Hp) as (v & _ & Hv).
  congruence.
Qed.

(** C5, as amended: in every state the dispatch can reach the permits are
    conserved: those in the counter and those held, by a task in its call or
    by a task woken to enter it, are [max_concurrent] together, so at most
    [max_concurrent] are held.  A call is issued only by a task that holds a
    permit: one it takes off the counter in the same step, or the one it was
    woken with.  The step that ends a call gives the permit up whether the
    call returned or raised: it goes back to the counter or, if a task
    waits, to the first one waiting.  Once every task is done, in particular
    when a list of results is returned, no permit is held.  (When the await
    raises, calls can still be in flight and hold theirs.) *)
Theorem permits_acquired_and_released
    (trace : list nat) (max_concurrent : nat) (records : list P)
    (s : loop_state P V E) :
  exec insert_record trace (gather_init max_concurrent records) = Some s →
  semaphore s + (woken s + in_flight s) = max_concurrent ∧
  held max_concurrent s = woken s + in_flight s ∧
  woken s + in_flight s ≤ max_concurrent ∧
  (∀ i s', process_with_limit insert_record i s = Some s' →
     issued s' = issued s ∨
     ∃ record_data,
       issued s' = issued s ++ [record_data] ∧
       tasks s' !! i = Some (InFlight record_data) ∧
       (tasks s !! i = Some (Created record_data) ∧
        semaphore s = S (semaphore s') ∨
        tasks s !! i = Some (Woken record_data))) ∧
  (∀ i s' record_data,
     tasks s !! i = Some (InFlight record_data) →
     process_with_limit insert_record i s = Some s' →
     tasks s' !! i = Some (Done (insert_record record_data)) ∧
     (semaphore s' = S (semaphore s) ∧ woken s' = woken s ∧ waiting s = 0 ∨
      semaphore s' = semaphore s ∧ woken s' = S (woken s) ∧
      ∃ j q, tasks s !! j = Some (Waiting q) ∧
             tasks s' !! j = Some (Woken q))) ∧
  (finished s = length records →
   semaphore s = max_concurrent ∧ held max_concurrent s = 0) ∧
  (∀ results, outer s = Some (Returned results) →
     semaphore s = max_concurrent ∧ held max_concurrent s = 0).
Proof.
  intros Hexec.
  pose proof (exec_invariant insert_record _ _ _ _ _
                (gather_init_invariant insert_record max_concurrent records)
                Hexec) as HInv.
  pose proof HInv as [HT HP HN HO HI HQ HH]. unfold held.
  assert (finished s = length records →
          semaphore s = max_concurrent ∧ max_concurrent - semaphore s = 0)
    as Hall.
  { intros Hall. unfold finished in Hall.
    rewrite (Forall2_length _ _ _ HT) in Hall.
    pose proof (all_done_tasks insert_record _ _ HT Hall) as Heq.
    unfold woken, in_flight in HP. rewrite Heq in HP.
    assert (∀ w : task P V E → nat, (∀ r, w (Done r) = 0) →
              sum_list_with w
                ((λ q, Done (insert_record q) : task P V E) <$> records) = 0)
      as Hz.
    { intros w Hw. clear -Hw. induction records as [|q l IH]; [done|].
      rewrite fmap_cons. simpl. by rewrite Hw, IH. }
    rewrite !Hz in HP by done. lia. }
  split; [lia|]. split; [lia|]. split; [lia|].
  split; [|split; [|split; [done|]]].
  - intros i s' Hstep.
    destruct (step_cases insert_record _ _ _ HQ Hstep)
      as [(p & v & Hi & Hsem & Hw & ->)
         |[(p & Hi & Hlock & ->)
         |[(p & Hi & Hno & ->)
         |[(p & j & q & v & Hi & Hsem & Hj & ->)
         |[(p & Hi & Hno & ->)
         |(p & j & q & Hi & Hj & ->)]]]]];
      rewrite ?(proj2 (proj2 (proj2 (proj2 (done_callback_fields _ _)))));
      simpl; try (by left); right; exists p; (split; [done|]);
      (split; [apply list_lookup_insert_eq; rewrite ?length_insert;
               by eapply lookup_lt_Some|]); auto.
  - intros i s' p Hi Hstep.
    destruct (step_cases insert_record _ _ _ HQ Hstep)
      as [(p' & v & Hi' & _)|[(p' & Hi' & _)|[(p' & Hi' & _)
         |[(p' & k & q & v & Hi' & _)
         |[(p' & Hi' & Hno & ->)|(p' & k & q & Hi' & Hk & ->)]]]]];
      try congruence;
      rewrite Hi in Hi'; injection Hi' as <-;
      unfold woken;
      rewrite (proj1 (done_callback_fields _ _)),
              (proj1 (proj2 (proj2 (done_callback_fields _ _)))); simpl.
    + split; [apply list_lookup_insert_eq; by eapply lookup_lt_Some|].
      left. split; [done|]. split; [|done].
      pose proof (sum_list_with_insert (@is_woken P V E) _ _ _
                    (Done (insert_record p)) Hi) as Hw. simpl in Hw. lia.
    + assert (k ≠ i) as Hki by (intros ->; congruence).
      split; [apply list_lookup_insert_eq; rewrite length_insert;
              by eapply lookup_lt_Some|].
      right. split; [done|]. split.
      * pose proof (sum_list_with_insert (@is_woken P V E) _ _ _
                      (Woken q) Hk) as Hw1.
        assert (<[k:=Woken q]> (tasks s) !! i = Some (InFlight p)) as Hi'
          by (by rewrite list_lookup_insert_ne).
        pose proof (sum_list_with_insert (@is_woken P V E) _ _ _
                      (Done (insert_record p)) Hi') as Hw2.
        simpl in Hw1, Hw2. lia.
      * exists k, q. split; [done|].
        rewrite list_lookup_insert_ne by done.
        apply list_lookup_insert_eq. by eapply lookup_lt_Some.
  - intros results Hout. apply Hall.
    unfold outer_ok in HO. rewrite Hout in HO. destruct HO as [? _]. lia.
Qed.

(** C6: on the empty list, and for every limit, the await returns the empty
    list at once: the outer future is born resolved, no task exists that
    could run, and no remote call is issued. *)
Theorem empty_batch_returns_at_once
    (schedule : list nat) (max_concurrent : nat) (fuel : nat) :
  example_custom_concurrency insert_record schedule max_concurrent []
    = Some (Returned []) ∧
  issued (await_gather insert_record schedule max_concurrent []) = [] ∧
  (∀ i, process_with_limit insert_record i
          (gather_init max_concurrent []) = None) ∧
  outer (run_until insert_record outer_done fuel schedule
           (gather_init max_concurrent [])) = Some (Returned []) ∧
  issued (run_until insert_record outer_done fuel schedule
            (gather_init max_concurrent [])) = [].
Proof.
  split; [done|]. split; [done|]. split; [done|].
  by destruct fuel.
Qed.

(** C7, as amended: for a batch whose calls all succeed, any two schedules
    of completion give the same result, and so do any two interleavings of
    the tasks that resolve the outer future.  (With calls that fail, which
    exception is raised depends on the schedule.) *)
Theorem schedules_agree_when_all_succeed
    (schedule1 schedule2 : list nat) (max_concurrent : nat)
    (records : list P) (values : list V) :
  1 ≤ max_concurrent →
  insert_record <$> records = Success <$> values →
  example_custom_concurrency insert_record schedule1 max_concurrent records
  = example_custom_concurrency insert_record schedule2 max_concurrent records ∧
  (∀ trace1 trace2 s1 s2 res1 res2,
     exec insert_record trace1 (gather_init max_concurrent records) = Some s1 →
     exec insert_record trace2 (gather_init max_concurrent records) = Some s2 →
     outer s1 = Some res1 → outer s2 = Some res2 → res1 = res2).
Proof.
  intros HC Hok. split.
  { by rewrite !(gather_all_success insert_record _ _ _ _ HC Hok). }
  assert (∀ trace s res,
            exec insert_record trace (gather_init max_concurrent records)
              = Some s →
            outer s = Some res → res = Returned values) as Hone.
  { intros trace s res Hexec Hout.
    pose proof (resolved_outer insert_record _ _ _ _ _ Hexec Hout) as Hres.
    destruct res as [results|e].
    - rewrite Hok in Hres. by rewrite (success_values _ _ Hres).
    - destruct Hres as (i & p & Hp & He).
      destruct (success_lookup insert_record _ _ _ _ Hok Hp) as (v & _ & Hv).
      congruence. }
  intros trace1 trace2 s1 s2 res1 res2 H1 H2 Ho1 Ho2.
  by rewrite (Hone _ _ _ H1 Ho1), (Hone _ _ _ H2 Ho2).
Qed.

End DispatchClaims.

(** ** The exceptions the dispatcher lets through *)

Section DispatchFailures.
Import Exceptions Dispatcher.

Context {P V : Type}.
Variable insert_record : P → Outcome V Exception.


End DispatchFailures.

(** *** The dispatcher on concrete batches *)

Section DispatchRuns.
Import Exceptions Dispatcher Scenario.

(** C1, the claim as stated fails: a batch of one record whose call is
    refused returns no sequence of outcomes at all, the await raises. *)
Lemma refused_record_returns_no_outcomes :
  insert_unless_2 2 = Failure NotFound ∧
  example_custom_concurrency insert_unless_2 [] 1 [2] = Some (Raised NotFound) ∧
  ¬ ∃ results : list nat,
      example_custom_concurrency insert_unless_2 [] 1 [2]
        = Some (Returned results) ∧
      length results = 1.
Proof.
  split; [reflexivity|]. split; [reflexivity|].
  intros (results & Hres & _). vm_compute in Hres. discriminate.
Qed.

Lemma gather_returns_values_in_input_order_witness :
  1 ≤ 2 ∧
  insert_ok <$> [0; 1; 2] = Success <$> [100; 101; 102] ∧
  example_custom_concurrency insert_ok [2; 1; 0; 1] 2 [0; 1; 2]
    = Some (Returned [100; 101; 102]).
Proof.
  split; [lia|]. split; [reflexivity|].
  apply (gather_returns_values_in_input_order insert_ok [2; 1; 0; 1] 2
           [0; 1; 2] [100; 101; 102]); [lia|reflexivity].
Defined.

Lemma in_flight_bounded_witness :
  exec insert_ok [0; 1; 2] (gather_init 2 [0; 1; 2])
    = Some (LoopState 0 [2] [InFlight 0; InFlight 1; Waiting 2] 0 None
                      [0; 1]) ∧
  in_flight (LoopState (V:=nat) (E:=RemoteError) 0 [2]
               [InFlight 0; InFlight 1; Waiting 2] 0 None [0; 1]) ≤ 2.
Proof.
  split; [reflexivity|].
  apply (in_flight_bounded insert_ok [0; 1; 2] 2 [0; 1; 2]). reflexivity.
Defined.



(** C4, the claim as stated fails: on the batch of the specification's
    example, five records under a limit of two with record 2 refused, the
    failure is raised out of the await instead of being returned among five
    outcomes. *)
Lemma item_failure_escapes_the_batch :
  example_custom_concurrency insert_unless_2 [0; 1; 2; 2; 2; 0; 1; 1] 2
    [0; 1; 2; 3; 4] = Some (Raised NotFound) ∧
  ¬ ∃ results : list nat,
      example_custom_concurrency insert_unless_2 [0; 1; 2; 2; 2; 0; 1; 1] 2
        [0; 1; 2; 3; 4] = Some (Returned results).
Proof.
  split; [reflexivity|]. intros [results Hres]. vm_compute in Hres.
  discriminate.
Qed.

Lemma item_failure_is_raised_witness :
  (1 ≤ 2 ∧ [0; 1; 2; 3; 4] !! 2 = Some 2 ∧
   insert_unless_2 2 = Failure NotFound) ∧
  (∃ e' j q,
     example_custom_concurrency insert_unless_2 [0; 1; 2; 2; 2; 0; 1; 1] 2
       [0; 1; 2; 3; 4] = Some (Raised e') ∧
     [0; 1; 2; 3; 4] !! j = Some q ∧ insert_unless_2 q = Failure e') ∧
  ∀ results,
    example_custom_concurrency insert_unless_2 [0; 1; 2; 2; 2; 0; 1; 1] 2
      [0; 1; 2; 3; 4] ≠ Some (Returned results).
Proof.
  split.
  - split; [lia|]. split; reflexivity.
  - destruct (item_failure_is_raised insert_unless_2 [0; 1; 2; 2; 2; 0; 1; 1]
                2 [0; 1; 2; 3; 4] 2 2 NotFound) as (Hraised & Hnone & _);
      [lia|reflexivity..|].
    split; [exact Hraised | exact Hnone].
Defined.

(** C5, the claim as stated fails: with two records in flight under a limit
    of five, the refusal of the first ends the awaited call, and at that
    moment the permit of the second call is still held: the count of held
    permits is not back to zero when the batch is over for its caller. *)
Lemma permit_held_when_the_await_raises :
  outer (await_gather insert_unless_2 [0; 1; 0] 5 [2; 1])
    = Some (Raised NotFound) ∧
  semaphore (await_gather insert_unless_2 [0; 1; 0] 5 [2; 1]) = 4 ∧
  in_flight (await_gather insert_unless_2 [0; 1; 0] 5 [2; 1]) = 1 ∧
  held 5 (await_gather insert_unless_2 [0; 1; 0] 5 [2; 1]) = 1 ∧
  held 5 (await_gather insert_unless_2 [0; 1; 0] 5 [2; 1]) ≠ 0.
Proof. repeat split; try reflexivity. by vm_compute. Qed.

Lemma permits_acquired_and_released_witness :
  let s := LoopState (V:=nat) (E:=RemoteError) 0 [1]
             [InFlight 0; Waiting 5] 0 None [0] in
  exec insert_refusing [0; 1] (gather_init 1 [0; 5]) = Some s ∧
  semaphore s + (woken s + in_flight s) = 1 ∧
  held 1 s = woken s + in_flight s ∧
  woken s + in_flight s ≤ 1 ∧
  (∀ s', process_with_limit insert_refusing 0 s = Some s' →
     tasks s' !! 0 = Some (Done (insert_refusing 0)) ∧
     (semaphore s' = S (semaphore s) ∧ woken s' = woken s ∧ waiting s = 0 ∨
      semaphore s' = semaphore s ∧ woken s' = S (woken s) ∧
      ∃ j q, tasks s !! j = Some (Waiting q) ∧
             tasks s' !! j = Some (Woken q))).
Proof.
  intros s. split; [reflexivity|].
  destruct (permits_acquired_and_released insert_refusing [0; 1] 1 [0; 5] s
              eq_refl) as (Hsum & Hheld & Hle & _ & Hrelease & _).
  split; [exact Hsum|]. split; [exact Hheld|]. split; [exact Hle|].
  intros s'. apply Hrelease. reflexivity.
Defined.

(** C7, the claim as stated fails: with two calls that fail differently,
    the exception the await raises is the one of the call that completes
    first, so two schedules give two results. *)
Lemma completion_order_decides_the_exception :
  example_custom_concurrency insert_refusing [0; 1; 0] 2 [0; 1]
    = Some (Raised NotFound) ∧
  example_custom_concurrency insert_refusing [0; 1; 1] 2 [0; 1]
    = Some (Raised AuthenticationFailure) ∧
  example_custom_concurrency insert_refusing [0; 1; 0] 2 [0; 1]
    ≠ example_custom_concurrency insert_refusing [0; 1; 1] 2 [0; 1].
Proof. split; [reflexivity|]. split; [reflexivity|]. by vm_compute. Qed.

Lemma schedules_agree_when_all_succeed_witness :
  1 ≤ 2 ∧
  insert_ok <$> [0; 1; 2] = Success <$> [100; 101; 102] ∧
  example_custom_concurrency insert_ok [] 2 [0; 1; 2]
  = example_custom_concurrency insert_ok [2; 1; 0; 1] 2 [0; 1; 2].
Proof.
  split; [lia|]. split; [reflexivity|].
  apply (schedules_agree_when_all_succeed insert_ok [] [2; 1; 0; 1] 2
           [0; 1; 2] [100; 101; 102]); [lia|reflexivity].
Defined.

Lemma insert_raising_contract (record_data : nat) (e : Exception) :
  insert_raising record_data = Failure e → ∃ r, e = NocoDB r.
Proof.
  unfold insert_raising. destruct (insert_refusing record_data) as [v|r];
    [done|]. intros [= <-]. by exists r.
Qed.


(** The dispatcher does not turn an exception into one of the client: what
    is not one passes through the await as it is. *)
Lemma other_exception_passes_through :
  example_custom_concurrency
    (λ record_data : nat,
       if decide (record_data = 0)
       then Failure (Other "KeyError") else Success (V:=nat) record_data)
    [] 2 [0; 1]
  = Some (Raised (Other "KeyError")).
Proof. reflexivity. Qed.

(** The batch of the source: whatever the service, as long as it accepts
    the twenty records the example gets twenty results, in their order. *)
Lemma source_batch_returns_twenty {V E : Type}
    (insert_record : list (string * string) → Outcome V E)
    (schedule : list nat) (values : list V) :
  insert_record <$> records = Success <$> values →
  example_custom_concurrency insert_record schedule max_concurrent records
    = Some (Returned values) ∧
  length values = 20.
Proof.
  intros Hok. split.
  - apply gather_all_success; [unfold max_concurrent; lia|done].
  - apply (f_equal length) in Hok. rewrite !length_fmap in Hok.
    by rewrite <- Hok.
Qed.

End DispatchRuns.

(** ** Reading a .env file *)

Section DotenvFacts.
Import Text Dotenv.

Lemma parse_env_content :
  parse_dotenv env_content
  = [("NOCODB_BASE_URL", Some "https://isolated-example.com");
     ("NOCODB_API_TOKEN", Some "isolated-token");
     ("NOCODB_TIMEOUT", Some "45.0")].
Proof. by vm_compute. Qed.

(** [dotenv_values] gives the parsed file and leaves the world as it was. *)
Lemma dotenv_values_frame (path : string) (w : world) :
  dotenv_values path w
  = (parse_dotenv (default EmptyString (files w !! path)), w).
Proof. reflexivity. Qed.

Lemma print_items_environ (d : dict) (w : world) :
  environ (print_items d w).2 = environ w.
Proof.
  revert w. induction d as [|[key value] d IH]; intros w; [done|].
  simpl. unfold bind, print. simpl. by rewrite IH.
Qed.

(** [load_dotenv], by contrast, does write the bindings of the file into
    the environment. *)
Lemma load_dotenv_sets_environ :
  environ (load_dotenv "/tmp/demo/.env" false
             (World ∅ {["/tmp/demo/.env" := env_content]} [])).2
    !! "NOCODB_TIMEOUT" = Some "45.0".
Proof. by vm_compute. Qed.

(** The run of [example_dotenv_values], statement by statement. *)
Lemma example_dotenv_values_run (tmpdir : string) (w : world) :
  example_dotenv_values tmpdir w
  = ((parse_dotenv env_content,
      Config "https://isolated-example.com" "isolated-token" "45.0"),
     World (environ w)
           (delete (tmpdir +:+ "/.env")
                   (<[tmpdir +:+ "/.env" := env_content]> (files w)))
           (stdout w ++
              [newline +:+ rule;
               "Example 4: Read .env Without Modifying os.environ";
               rule;
               "Read without modifying environment:";
               "  NOCODB_BASE_URL=https://isolated-example.com";
               "  NOCODB_API_TOKEN=isolated-token";
               "  NOCODB_TIMEOUT=45.0";
               "";
               "os.environ['NOCODB_BASE_URL'] = "
                 +:+ default "(not set)" (environ w !! "NOCODB_BASE_URL");
               "";
               "Created config with timeout: 45.0s";
               newline +:+ "dotenv_values example completed!"])).
Proof.
  unfold example_dotenv_values, dotenv_values, read_text, bind, ret, print,
    write_text, cleanup, getenv.
  cbn [files environ stdout]. rewrite lookup_insert_eq.
  change (default EmptyString (Some env_content)) with env_content.
  rewrite parse_env_content.
  cbn [print_items bind print ret environ files stdout].
  unfold bind, print. cbn [environ files stdout].
  rewrite <- !app_assoc. reflexivity.
Qed.

(** C9: [example_dotenv_values] leaves [os.environ] as it found it: every
    key, and so every key that only the file binds, looks up after the call
    as it did before, the line the example prints for NOCODB_BASE_URL shows
    the prior environment, and the mapping [dotenv_values] returned holds
    the three bindings of the file. *)
Theorem dotenv_values_leaves_environ (tmpdir : string) (w : world) :
  environ (example_dotenv_values tmpdir w).2 = environ w ∧
  (∀ key, environ (example_dotenv_values tmpdir w).2 !! key
          = environ w !! key) ∧
  (∀ key value,
     (key, value) ∈ (example_dotenv_values tmpdir w).1.1 →
     environ w !! key = None →
     environ (example_dotenv_values tmpdir w).2 !! key = None) ∧
  (example_dotenv_values tmpdir w).1.1
  = [("NOCODB_BASE_URL", Some "https://isolated-example.com");
     ("NOCODB_API_TOKEN", Some "isolated-token");
     ("NOCODB_TIMEOUT", Some "45.0")] ∧
  ("os.environ['NOCODB_BASE_URL'] = "
     +:+ default "(not set)" (environ w !! "NOCODB_BASE_URL"))
    ∈ stdout (example_dotenv_values tmpdir w).2.
Proof.
  rewrite example_dotenv_values_run. cbn [fst snd environ stdout].
  split; [done|]. split; [done|]. split; [done|].
  split; [apply parse_env_content|].
  apply elem_of_app. right. rewrite !elem_of_cons. tauto.
Qed.

End DotenvFacts.

(** ** The dependency gate of the async example *)

Section AsyncScriptFacts.
Import Text AsyncScript.

(** C10: the module imports [nocodb_simple_client] exactly when both
    aiohttp and aiofiles can be found.  When one is missing the run prints
    the installation message and ends in [sys.exit(1)] with no import of the
    package in its log; the imports are reached only with both present. *)
Theorem client_imported_only_with_dependencies
    (installed : string → bool) (as_main : bool) :
  imports "nocodb_simple_client" (async_example installed as_main).1
  = (installed "aiohttp" && installed "aiofiles")%bool ∧
  (async_example installed as_main).2
  = (if (installed "aiohttp" && installed "aiofiles")%bool
     then Next tt else SystemExit 1) ∧
  (if (installed "aiohttp" && installed "aiofiles")%bool
   then Imported "nocodb_simple_client" ∈ (async_example installed as_main).1 ∧
        Imported "nocodb_simple_client.async_client"
          ∈ (async_example installed as_main).1 ∧
        Imported "nocodb_simple_client.exceptions"
          ∈ (async_example installed as_main).1
   else printed "ERROR: Async dependencies not installed!"
          (async_example installed as_main).1 = true ∧
        printed ("    pip install " +:+ dquote
                 +:+ "nocodb-simple-client[async]" +:+ dquote)
          (async_example installed as_main).1 = true ∧
        last (async_example installed as_main).1 = Some (Printed rule)).
Proof.
  unfold async_example, and_then, find_spec_is_not_None.
  destruct (installed "aiohttp"), (installed "aiofiles"), as_main;
    cbn [andb]; repeat split;
    try (by vm_compute);
    apply list_elem_of_In; vm_compute; repeat (first [by left | right]).
Qed.

End AsyncScriptFacts.

(** ** More on the dispatcher: waiting, stalls, calls sent, the first result *)

Section DispatchMore.
Import Exceptions Dispatcher Bookkeeping.

Context {P V E : Type}.
Variable insert_record : P → Outcome V E.

Implicit Types (s : loop_state P V E) (records : list P).

(** What every resumption keeps, every run keeps. *)
Lemma exec_preserves (I : loop_state P V E → Prop) :
  (∀ s i s', I s → process_with_limit insert_record i s = Some s' → I s') →
  ∀ trace s s', I s → exec insert_record trace s = Some s' → I s'.
Proof.
  intros Hstep trace. induction trace as [|i trace IH]; simpl; intros s s' HI.
  - by intros [= <-].
  - destruct (process_with_limit insert_record i s) as [s1|] eqn:Hs; [|done].
    apply IH. by eapply Hstep.
Qed.

Lemma sum_zero_insert {A} (w : A → nat) (l : list A) i x y :
  l !! i = Some x → w y ≤ w x → sum_list_with w l = 0 →
  sum_list_with w (<[i:=y]> l) = 0.
Proof.
  intros Hi Hle Hz.
  pose proof (sum_list_with_insert w l i x y Hi). lia.
Qed.

Lemma counts_partition (l : list (task P V E)) :
  sum_list_with is_created l + sum_list_with is_waiting l
  + sum_list_with is_woken l
  + sum_list_with is_in_flight l + sum_list_with is_done l = length l.
Proof. induction l as [|[] l IH]; simpl; lia. Qed.

Lemma no_waiting_lookup (l : list (task P V E)) i t :
  sum_list_with is_waiting l = 0 → sum_list_with is_woken l = 0 →
  l !! i = Some t →
  (∃ p, t = Created p) ∨ (∃ p, t = InFlight p) ∨ (∃ r, t = Done r).
Proof.
  intros Hz Hw Hi.
  pose proof (sum_list_with_lookup is_waiting l i t Hi) as Hle.
  pose proof (sum_list_with_lookup is_woken l i t Hi) as Hle'.
  destruct t; simpl in Hle, Hle'; eauto; lia.
Qed.

Lemma nobody_queued s :
  queue_ok s → waiting s = 0 → woken s = 0 → waiters s = [].
Proof.
  intros [_ Hqueue] Hwait Hwoke. unfold waiting, woken in *.
  destruct (waiters s) as [|k queue] eqn:Hw; [done|].
  assert (k ∈ k :: queue) as Hk by left.
  apply Hqueue in Hk as [p [Hk|Hk]].
  - pose proof (sum_list_with_lookup is_waiting _ _ _ Hk) as Hle.
    simpl in Hle. lia.
  - pose proof (sum_list_with_lookup is_woken _ _ _ Hk) as Hle.
    simpl in Hle. lia.
Qed.

(** Under a limit that covers the batch nobody queues. *)
Lemma wide_limit_no_queue trace max_concurrent records s :
  length records ≤ max_concurrent →
  exec insert_record trace (gather_init max_concurrent records) = Some s →
  invariant insert_record max_concurrent records s ∧
  waiting s = 0 ∧ woken s = 0.
Proof.
  intros Hwide.
  apply (exec_preserves
           (λ s, invariant insert_record max_concurrent records s ∧
                 waiting s = 0 ∧ woken s = 0)).
  - clear s. intros s i s' (HInv & Hwait & Hwoke) Hstep.
    split; [by eapply step_invariant|].
    pose proof HInv as [HT HP HN HO HI HQ HH].
    pose proof (counts_partition (tasks s)) as Hpart.
    pose proof (Forall2_length _ _ _ HT) as Hlen.
    pose proof (nobody_queued s HQ Hwait Hwoke) as Hnil.
    unfold waiting, woken, in_flight in *.
    destruct (step_cases insert_record _ _ _ HQ Hstep)
      as [(p & v & Hi & Hsem & Hw & ->)
         |[(p & Hi & Hlock & ->)
         |[(p & Hi & Hno & ->)
         |[(p & j & q & v & Hi & Hsem & Hj & ->)
         |[(p & Hi & Hno & ->)
         |(p & j & q & Hi & Hj & ->)]]]]];
      rewrite ?(proj1 (proj2 (proj2 (done_callback_fields _ _)))); simpl.
    + split; by eapply sum_zero_insert.
    + pose proof (sum_list_with_lookup is_created _ _ _ Hi) as Hc.
      simpl in Hc. destruct Hlock as [?|?]; [lia|done].
    + pose proof (sum_list_with_lookup is_woken _ _ _ Hi) as Hc.
      simpl in Hc. lia.
    + pose proof (sum_list_with_lookup is_woken _ _ _ Hi) as Hc.
      simpl in Hc. lia.
    + split; by eapply sum_zero_insert.
    + pose proof (sum_list_with_lookup is_waiting _ _ _ Hj) as Hc.
      simpl in Hc. lia.
  - split; [apply gather_init_invariant|].
    unfold waiting, woken. simpl. clear.
    split; (induction records as [|q l IH]; [done|]; by rewrite fmap_cons).
Qed.

(** With a limit that covers the batch no task ever waits for a permit: in
    every state the dispatch can reach each task is not yet run, in its call
    or done, and a task that runs for the first time enters its call at
    once. *)
Theorem wide_limit_never_waits
    (trace : list nat) (max_concurrent : nat) (records : list P)
    (s : loop_state P V E) :
  length records ≤ max_concurrent →
  exec insert_record trace (gather_init max_concurrent records) = Some s →
  waiting s = 0 ∧
  (∀ i t, tasks s !! i = Some t →
     (∃ p, t = Created p) ∨ (∃ p, t = InFlight p) ∨ (∃ r, t = Done r)) ∧
  (∀ i p s', tasks s !! i = Some (Created p) →
     process_with_limit insert_record i s = Some s' →
     tasks s' !! i = Some (InFlight p) ∧ issued s' = issued s ++ [p]).
Proof.
  intros Hwide Hexec.
  destruct (wide_limit_no_queue _ _ _ _ Hwide Hexec)
    as (HInv & Hwait & Hwoke).
  split; [done|]. split.
  - intros i t Hi. by eapply no_waiting_lookup.
  - intros i p s' Hi Hstep.
    pose proof HInv as [HT HP HN HO HI HQ HH].
    pose proof (counts_partition (tasks s)) as Hpart.
    pose proof (Forall2_length _ _ _ HT) as Hlen.
    pose proof (nobody_queued s HQ Hwait Hwoke) as Hnil.
    pose proof (sum_list_with_lookup is_created _ _ _ Hi) as Hc.
    simpl in Hc. unfold waiting, woken, in_flight in *.
    destruct (step_cases insert_record _ _ _ HQ Hstep)
      as [(p' & v & Hi' & Hsem & Hw & ->)
         |[(p' & Hi' & Hlock & ->)
         |[(p' & Hi' & _)
         |[(p' & j & q & v & Hi' & _)
         |[(p' & Hi' & _)
         |(p' & j & q & Hi' & _)]]]]]; try congruence.
    + rewrite Hi in Hi'. injection Hi' as <-. simpl. split; [|done].
      apply list_lookup_insert_eq. by eapply lookup_lt_Some.
    + destruct Hlock as [?|?]; [lia|done].
Qed.

(** With a limit of zero a non-empty batch hangs: no task ever gets a
    permit, no remote call is issued, and the outer future never resolves,
    so the await of the example gives nothing. *)
Theorem zero_limit_never_resolves
    (schedule trace : list nat) (records : list P) (s : loop_state P V E) :
  records ≠ [] →
  exec insert_record trace (gather_init 0 records) = Some s →
  outer s = None ∧ issued s = [] ∧ in_flight s = 0 ∧ finished s = 0 ∧
  example_custom_concurrency insert_record schedule 0 records = None.
Proof.
  intros Hne Hexec.
  assert (∀ trace' s', exec insert_record trace' (gather_init 0 records)
                       = Some s' →
            outer s' = None ∧ issued s' = [] ∧ in_flight s' = 0 ∧
            finished s' = 0) as Hall.
  { intros trace' s' Hexec'.
    cut (invariant insert_record 0 records s' ∧
         outer s' = None ∧ issued s' = [] ∧ finished s' = 0).
    { intros ([_ HP _ _ _ _ _] & ? & ? & ?). repeat split; try done. lia. }
    revert Hexec'.
    apply (exec_preserves
             (λ s, invariant insert_record 0 records s ∧
                   outer s = None ∧ issued s = [] ∧ finished s = 0)).
    - clear. intros s i s' (HInv & Hout & Hiss & Hfin) Hstep.
      split; [by eapply step_invariant|].
      pose proof HInv as [_ HP _ _ _ HQ _].
      unfold woken, in_flight, finished in *.
      destruct (step_cases insert_record _ _ _ HQ Hstep)
        as [(p & v & Hi & Hsem & Hw & ->)
           |[(p & Hi & Hlock & ->)
           |[(p & Hi & Hno & ->)
           |[(p & j & q & v & Hi & Hsem & Hj & ->)
           |[(p & Hi & Hno & ->)
           |(p & j & q & Hi & Hj & ->)]]]]]; simpl; try lia.
      + repeat split; try done. by eapply sum_zero_insert.
      + pose proof (sum_list_with_lookup is_woken _ _ _ Hi) as Hc.
        simpl in Hc. lia.
      + pose proof (sum_list_with_lookup is_in_flight _ _ _ Hi) as Hc.
        simpl in Hc. lia.
      + pose proof (sum_list_with_lookup is_in_flight _ _ _ Hi) as Hc.
        simpl in Hc. lia.
    - split; [apply gather_init_invariant|].
      destruct records as [|q l]; [done|]. repeat split; try done.
      unfold finished. simpl. clear.
      induction l as [|q' l IH]; [done|]. by rewrite fmap_cons. }
  destruct (Hall _ _ Hexec) as (? & ? & ? & ?).
  repeat split; try done.
  unfold example_custom_concurrency, await_gather.
  destruct (run_until_exec insert_record outer_done (enough_fuel records)
              schedule (gather_init 0 records)) as [trace' Htrace'].
  by destruct (Hall _ _ Htrace') as (? & _).
Qed.

Lemma started_sublist records (l : list (task P V E)) :
  started records l `sublist_of` records.
Proof.
  revert l. induction records as [|p records IH]; intros [|t l]; simpl;
    try apply sublist_nil_l.
  destruct t; by constructor.
Qed.

Lemma started_insert_enter records (l : list (task P V E)) i p t :
  records !! i = Some p → l !! i = Some t →
  is_in_flight t + is_done t = 0 →
  started records (<[i:=InFlight p]> l) ≡ₚ started records l ++ [p].
Proof.
  revert l i. induction records as [|q records IH]; intros [|u l] [|i];
    simpl; intros Hp Hi Ht; simplify_eq.
  - destruct t; simpl in Ht; try lia;
      by rewrite <- Permutation_cons_append.
  - specialize (IH l i Hp Hi Ht). destruct u; simpl; try done;
      by rewrite IH.
Qed.

(** A change of state that does not enter or leave the call. *)
Lemma started_insert_same records (l : list (task P V E)) i t t' :
  l !! i = Some t →
  is_in_flight t + is_done t = is_in_flight t' + is_done t' →
  started records (<[i:=t']> l) = started records l.
Proof.
  revert l i. induction records as [|q records IH]; intros [|u l] [|i];
    simpl; intros Hi Ht; simplify_eq; try done.
  - destruct t, t'; simpl in Ht; try lia; done.
  - rewrite (IH l i Hi Ht). by destruct u.
Qed.

Lemma started_all_done records :
  started records ((λ q, Done (insert_record q) : task P V E) <$> records)
  = records.
Proof.
  induction records as [|q l IH]; [done|].
  rewrite fmap_cons. simpl. by rewrite IH.
Qed.

(** The calls sent so far are, up to order, the records of the tasks that
    have entered their call. *)
Lemma issued_started trace max_concurrent records s :
  exec insert_record trace (gather_init max_concurrent records) = Some s →
  issued s ≡ₚ started records (tasks s).
Proof.
  intros Hexec.
  cut (invariant insert_record max_concurrent records s ∧
       issued s ≡ₚ started records (tasks s)); [by intros [_ ?]|].
  revert Hexec.
  apply (exec_preserves
           (λ s, invariant insert_record max_concurrent records s ∧
                 issued s ≡ₚ started records (tasks s))).
  - clear. intros s i s' [HInv Hiss] Hstep.
    split; [by eapply step_invariant|].
    pose proof HInv as [HT _ _ _ _ HQ _].
    destruct (step_cases insert_record _ _ _ HQ Hstep)
      as [(p & v & Hi & Hsem & Hw & ->)
         |[(p & Hi & Hlock & ->)
         |[(p & Hi & Hno & ->)
         |[(p & j & q & v & Hi & Hsem & Hj & ->)
         |[(p & Hi & Hno & ->)
         |(p & j & q & Hi & Hj & ->)]]]]];
      rewrite ?(proj1 (proj2 (proj2 (done_callback_fields _ _)))),
              ?(proj2 (proj2 (proj2 (proj2 (done_callback_fields _ _)))));
      simpl;
      pose proof (task_of_pending insert_record _ _ _ _ HT Hi) as Hr;
      simpl in Hr.
    + rewrite started_insert_enter by (done || by eauto). by rewrite Hiss.
    + by erewrite started_insert_same.
    + rewrite started_insert_enter by (done || by eauto). by rewrite Hiss.
    + assert (j ≠ i) as Hji by (intros ->; congruence).
      rewrite (started_insert_enter _ _ _ _ (Woken p)); [| done | | done].
      * rewrite (started_insert_same _ _ _ (Waiting q)) by done.
        by rewrite Hiss.
      * by rewrite list_lookup_insert_ne.
    + by erewrite started_insert_same.
    + assert (j ≠ i) as Hji by (intros ->; congruence).
      rewrite (started_insert_same _ _ _ (InFlight p)); [| | done].
      * by rewrite (started_insert_same _ _ _ (Waiting q)).
      * by rewrite list_lookup_insert_ne.
  - split; [apply gather_init_invariant|]. simpl. clear.
    induction records as [|q l IH]; [done|]. by rewrite fmap_cons.
Qed.

(** A list in the outer future means every child is done. *)
Lemma returned_all_finished trace max_concurrent records s results :
  exec insert_record trace (gather_init max_concurrent records) = Some s →
  outer s = Some (Returned results) →
  finished s = length records.
Proof.
  intros Hexec Hout.
  pose proof (exec_invariant insert_record _ _ _ _ _
                (gather_init_invariant insert_record max_concurrent records)
                Hexec) as [_ _ HN HO _ _ _].
  unfold outer_ok in HO. rewrite Hout in HO. destruct HO as [? _]. lia.
Qed.

(** No retries, nothing sent twice, nothing dropped: in every state the
    dispatch can reach the remote calls issued so far are distinct items of
    the batch, at most one per record, and when the await returns a list
    every record has been sent exactly once. *)
Theorem every_record_sent_once
    (trace : list nat) (max_concurrent : nat) (records : list P)
    (s : loop_state P V E) :
  exec insert_record trace (gather_init max_concurrent records) = Some s →
  issued s ⊆+ records ∧
  length (issued s) ≤ length records ∧
  (∀ results, outer s = Some (Returned results) → issued s ≡ₚ records).
Proof.
  intros Hexec.
  pose proof (issued_started _ _ _ _ Hexec) as Hiss.
  assert (issued s ⊆+ records) as Hsub.
  { rewrite Hiss. apply sublist_submseteq, started_sublist. }
  split; [done|]. split; [by apply submseteq_length|].
  intros results Hout. rewrite Hiss.
  pose proof (exec_invariant insert_record _ _ _ _ _
                (gather_init_invariant insert_record max_concurrent records)
                Hexec) as [HT _ _ _ _ _ _].
  pose proof (returned_all_finished _ _ _ _ _ Hexec Hout) as Hall.
  unfold finished in Hall. rewrite (Forall2_length _ _ _ HT) in Hall.
  rewrite (all_done_tasks insert_record _ _ HT Hall).
  by rewrite started_all_done.
Qed.

(** A normal return leaves nothing behind: when the outer future holds a
    list, every task is done with the outcome of its own record, every
    permit is back in the semaphore and no task can be resumed. *)
Theorem returned_means_all_done
    (trace : list nat) (max_concurrent : nat) (records : list P)
    (s : loop_state P V E) (results : list V) :
  exec insert_record trace (gather_init max_concurrent records) = Some s →
  outer s = Some (Returned results) →
  tasks s = (λ q, Done (insert_record q)) <$> records ∧
  semaphore s = max_concurrent ∧
  in_flight s = 0 ∧
  (∀ i, process_with_limit insert_record i s = None) ∧
  ready s = [].
Proof.
  intros Hexec Hout.
  pose proof (exec_invariant insert_record _ _ _ _ _
                (gather_init_invariant insert_record max_concurrent records)
                Hexec) as [HT HP _ _ _ _ _].
  pose proof (returned_all_finished _ _ _ _ _ Hexec Hout) as Hall.
  unfold finished in Hall. rewrite (Forall2_length _ _ _ HT) in Hall.
  pose proof (all_done_tasks insert_record _ _ HT Hall) as Htasks.
  pose proof (counts_partition (tasks s)) as Hpart.
  assert (in_flight s = 0) as Hfly by (unfold in_flight; lia).
  assert (∀ i, process_with_limit insert_record i s = None) as Hstuck.
  { intros i. unfold process_with_limit. rewrite Htasks, list_lookup_fmap.
    by destruct (records !! i). }
  split; [done|]. split; [unfold woken, in_flight in *; lia|].
  split; [done|]. split; [done|].
  destruct (ready s) as [|i l] eqn:Hready; [done|].
  assert (i ∈ ready s) as Hin by (rewrite Hready; left).
  apply elem_of_ready in Hin.
  apply (runnable_step insert_record) in Hin as [s' Hs'].
  by rewrite Hstuck in Hs'.
Qed.

Lemma resolved_outer_kept s i s' (res : gather_result V E) :
  outer s = Some res →
  process_with_limit insert_record i s = Some s' →
  outer s' = Some res.
Proof.
  intros Hout Hstep.
  unfold process_with_limit in Hstep.
  destruct (tasks s !! i) as [[p|p|p|p|r]|]; try done;
    injection Hstep as <-.
  - unfold acquire. by destruct (locked s).
  - unfold acquire_resumed. simpl. destruct (semaphore s); [done|].
    by rewrite (proj1 (proj2 (proj2 (wake_up_next_fields _)))).
  - by apply release_and_finish_resolved.
Qed.

(** The first result sticks: once the outer future is resolved, with a list
    or with an exception, no later resumption of a task changes it. *)
Theorem first_result_sticks
    (trace : list nat) (s s' : loop_state P V E) (res : gather_result V E) :
  outer s = Some res →
  exec insert_record trace s = Some s' →
  outer s' = Some res.
Proof.
  intros Hout Hexec.
  eapply (exec_preserves (λ s, outer s = Some res)); [|exact Hout|exact Hexec].
  clear. intros s i s'. apply resolved_outer_kept.
Qed.


Lemma run_until_exec_bounded stop fuel schedule s :
  ∃ trace, length trace ≤ fuel ∧
           exec insert_record trace s
           = Some (run_until insert_record stop fuel schedule s).
Proof.
  revert schedule s. induction fuel as [|fuel IH]; intros schedule s; simpl.
  - exists []. by split.
  - destruct (stop s); [exists []; split; [simpl; lia|done]|].
    destruct (ready s !! _) as [i|]; [|exists []; split; [simpl; lia|done]].
    destruct (process_with_limit insert_record i s) as [s'|] eqn:Hs;
      [|exists []; split; [simpl; lia|done]].
    destruct (IH (tl schedule) s') as (trace & Hlen & Htrace).
    exists (i :: trace). simpl. rewrite Hs. split; [lia|done].
Qed.

(** The await never hangs under a limit of at least one: for every schedule
    of completions it ends, with a list or with an exception, after at most
    three resumptions per record. *)
Theorem await_always_resolves
    (schedule : list nat) (max_concurrent : nat) (records : list P) :
  1 ≤ max_concurrent →
  is_Some (example_custom_concurrency insert_record schedule max_concurrent
             records) ∧
  ∃ trace,
    length trace ≤ 3 * length records ∧
    exec insert_record trace (gather_init max_concurrent records)
    = Some (await_gather insert_record schedule max_concurrent records).
Proof.
  intros HC. split.
  - destruct (gather_result_cases insert_record schedule max_concurrent
                records HC) as [(results & -> & _)|(e & i & p & -> & _)];
      by eexists.
  - apply run_until_exec_bounded.
Qed.

End DispatchMore.

(** ** Laws of the scripts that can raise and exit *)

Section PyLaws.
Import Text Py.

Context {E : Type}.

Lemma prefix_empty (s : string) : String.prefix EmptyString s = true.
Proof. by destruct s. Qed.

Lemma inside_joinpath (tmpdir name : string) :
  inside tmpdir (joinpath tmpdir name) = true.
Proof.
  unfold inside, joinpath. induction tmpdir as [|c d IH]; simpl.
  - destruct (ascii_dec "/" "/"); [apply prefix_empty|done].
  - by destruct (ascii_dec c c).
Qed.

Lemma outside_insert (tmpdir path content : string)
    (fs : gmap string string) :
  inside tmpdir path = true →
  outside tmpdir (<[path := content]> fs) = outside tmpdir fs.
Proof.
  intros Hin. unfold outside. apply map_filter_insert_not.
  intros y. simpl. by rewrite Hin.
Qed.

Lemma outside_delete (tmpdir path : string) (fs : gmap string string) :
  inside tmpdir path = true →
  outside tmpdir (delete path fs) = outside tmpdir fs.
Proof.
  intros Hin. unfold outside. apply map_filter_delete_not.
  intros y _. simpl. by rewrite Hin.
Qed.

Lemma outside_fresh (tmpdir : string) (fs : gmap string string) :
  fresh tmpdir fs → outside tmpdir fs = fs.
Proof.
  intros Hfresh. unfold outside. apply map_filter_id.
  intros path content Hpath. simpl.
  destruct (inside tmpdir path) eqn:Hin; [|done].
  by rewrite (Hfresh _ Hin) in Hpath.
Qed.

Lemma outside_idemp (tmpdir : string) (fs : gmap string string) :
  outside tmpdir (outside tmpdir fs) = outside tmpdir fs.
Proof.
  unfold outside. apply map_filter_id.
  intros path content Hpath. by apply map_lookup_filter_Some in Hpath as [_ ?].
Qed.

(** *** Inversion of a sequence that ended well *)

Lemma bind_value {A B} (p : Prog E A) (k : A → Prog E B) m b m' :
  bind p k m = (Value b, m') →
  ∃ a m1, p m = (Value a, m1) ∧ k a m1 = (Value b, m').
Proof.
  unfold bind. destruct (p m) as [[a|e|status] m1]; try done. eauto.
Qed.

(** *** Files *)

Lemma writes_within_bind {A B} tmpdir (p : Prog E A) (k : A → Prog E B) :
  writes_within tmpdir p → (∀ a, writes_within tmpdir (k a)) →
  writes_within tmpdir (bind p k).
Proof.
  intros Hp Hk m. specialize (Hp m). unfold bind.
  destruct (p m) as [[a|e|status] m1]; simpl in *; try done.
  by rewrite (Hk a m1).
Qed.

Lemma writes_within_print tmpdir line : writes_within tmpdir (@print E line).
Proof. done. Qed.

Lemma writes_within_ret {A} tmpdir (a : A) : writes_within tmpdir (@ret E A a).
Proof. done. Qed.

Lemma writes_within_call {A} tmpdir (loader : Dotenv.world → E + A) :
  writes_within tmpdir (call loader).
Proof. intros m. unfold call. by destruct (loader _). Qed.

Lemma writes_within_find_spec tmpdir installed name :
  writes_within tmpdir (@find_spec_is_not_None E installed name).
Proof. done. Qed.

Lemma writes_within_write tmpdir name content :
  writes_within tmpdir (@write_text E (joinpath tmpdir name) content).
Proof. intros m. apply outside_insert, inside_joinpath. Qed.

Lemma writes_within_lift {A} tmpdir (script : Dotenv.Script A) :
  (∀ w, Dotenv.files (script w).2 = Dotenv.files w) →
  writes_within tmpdir (@lift E A script).
Proof.
  intros Hkeep m. unfold lift, files_of. specialize (Hkeep (world m)).
  destruct (script (world m)) as [a w]. simpl in *. by rewrite Hkeep.
Qed.

(** Leaving the [with] block gives back the files found on entry, when the
    block wrote only in its directory and the directory was new. *)
Lemma with_TemporaryDirectory_restores {A} tmpdir (body : Prog E A)
    (Q : gmap string string → Prop) :
  (∀ fs, Q fs → fresh tmpdir fs) →
  writes_within tmpdir body →
  restores_files Q (with_TemporaryDirectory tmpdir body).
Proof.
  intros HQ Hbody m Hm. unfold with_TemporaryDirectory.
  specialize (Hbody m). destruct (body m) as [r m1]. simpl in *.
  unfold files_of in *. simpl.
  change (filter _ (Dotenv.files (world m1)))
    with (outside tmpdir (Dotenv.files (world m1))).
  rewrite Hbody. by apply outside_fresh, HQ.
Qed.

Lemma restores_files_bind {A B} Q (p : Prog E A) (k : A → Prog E B) :
  restores_files Q p → (∀ a, restores_files Q (k a)) →
  restores_files Q (bind p k).
Proof.
  intros Hp Hk m Hm. specialize (Hp m Hm). unfold bind.
  destruct (p m) as [[a|e|status] m1]; simpl in *; try done.
  rewrite <- Hp. apply Hk. by rewrite Hp.
Qed.

Lemma restores_files_print Q line : restores_files Q (@print E line).
Proof. done. Qed.

Lemma restores_files_ret {A} Q (a : A) : restores_files Q (@ret E A a).
Proof. done. Qed.

Lemma restores_files_find_spec Q installed name :
  restores_files Q (@find_spec_is_not_None E installed name).
Proof. done. Qed.

(** *** Exit *)

Lemma never_exits_bind {A B} (p : Prog E A) (k : A → Prog E B) :
  never_exits p → (∀ a, never_exits (k a)) → never_exits (bind p k).
Proof.
  intros Hp Hk m status. specialize (Hp m). unfold bind.
  destruct (p m) as [[a|e|status'] m1]; simpl in *; try done.
  - apply Hk.
  - by destruct (Hp status').
Qed.

Lemma never_exits_lift {A} (script : Dotenv.Script A) :
  never_exits (@lift E A script).
Proof. intros m status. unfold lift. by destruct (script _). Qed.

Lemma never_exits_print line : never_exits (@print E line).
Proof. apply never_exits_lift. Qed.

Lemma never_exits_write path content :
  never_exits (@write_text E path content).
Proof. apply never_exits_lift. Qed.

Lemma never_exits_ret {A} (a : A) : never_exits (@ret E A a).
Proof. done. Qed.

Lemma never_exits_call {A} (loader : Dotenv.world → E + A) :
  never_exits (call loader).
Proof. intros m status. unfold call. by destruct (loader _). Qed.

Lemma never_exits_find_spec installed name :
  never_exits (@find_spec_is_not_None E installed name).
Proof. done. Qed.

Lemma never_exits_with {A} tmpdir (body : Prog E A) :
  never_exits body → never_exits (with_TemporaryDirectory tmpdir body).
Proof.
  intros Hbody m status. unfold with_TemporaryDirectory.
  specialize (Hbody m status). by destruct (body m).
Qed.

(** *** Running a sequence statement by statement *)

Lemma bind_print {B} line (k : unit → Prog E B) env fs out l i :
  bind (print line) k (Machine (Dotenv.World env fs out) l i)
  = k tt (Machine (Dotenv.World env fs (out ++ [line])) l i).
Proof. reflexivity. Qed.

Lemma bind_write {B} path content (k : unit → Prog E B) env fs out l i :
  bind (write_text path content) k (Machine (Dotenv.World env fs out) l i)
  = k tt (Machine (Dotenv.World env (<[path := content]> fs) out) l i).
Proof. reflexivity. Qed.

Lemma bind_call_raise {A B} (loader : Dotenv.world → E + A)
    (k : A → Prog E B) m e :
  loader (world m) = inl e → bind (call loader) k m = (Raise e, m).
Proof. intros H. unfold bind, call. by rewrite H. Qed.

Lemma bind_raise {A B} (p : Prog E A) (k : A → Prog E B) m e m' :
  p m = (Raise e, m') → bind p k m = (Raise e, m').
Proof. intros H. unfold bind. by rewrite H. Qed.

Lemma with_TemporaryDirectory_run {A} tmpdir (body : Prog E A) m r m' :
  body m = (r, m') → with_TemporaryDirectory tmpdir body m = (r, rmtree tmpdir m').
Proof. intros H. unfold with_TemporaryDirectory. by rewrite H. Qed.

(** *** Two scripts that behave alike *)

Lemma alike_refl {A} (p : Prog E A) : alike p p.
Proof. done. Qed.

Lemma alike_bind {A B} (p q : Prog E A) (k l : A → Prog E B) :
  alike p q → (∀ a, alike (k a) (l a)) → alike (bind p k) (bind q l).
Proof.
  intros Hp Hk m. unfold bind. rewrite (Hp m).
  destruct (q m) as [[a|e|status] m1]; try done. apply Hk.
Qed.

Lemma alike_with {A} tmpdir (p q : Prog E A) :
  alike p q →
  alike (with_TemporaryDirectory tmpdir p) (with_TemporaryDirectory tmpdir q).
Proof. intros Hp m. unfold with_TemporaryDirectory. by rewrite (Hp m). Qed.

Lemma alike_call {A} (f g : Dotenv.world → E + A) :
  (∀ w, f w = g w) → alike (call f) (call g).
Proof. intros H m. unfold call. by rewrite H. Qed.

Lemma restores_files_import Q module : restores_files Q (@import E module).
Proof. done. Qed.

Lemma restores_files_sys_exit {A} Q status :
  restores_files Q (@sys_exit E A status).
Proof. done. Qed.

Lemma restores_files_lift {A} Q (script : Dotenv.Script A) :
  (∀ w, Q (Dotenv.files w) → Dotenv.files (script w).2 = Dotenv.files w) →
  restores_files Q (@lift E A script).
Proof.
  intros Hkeep m Hm. unfold lift, files_of in *.
  specialize (Hkeep (world m) Hm).
  destruct (script (world m)) as [a w]. simpl in *. by rewrite Hkeep.
Qed.

(** *** Environment and output *)

Lemma bind_lift {A B} (script : Dotenv.Script A) (k : A → Prog E B) w l i :
  bind (lift script) k (Machine w l i)
  = k (script w).1 (Machine (script w).2 l i).
Proof. unfold bind, lift. simpl. by destruct (script w). Qed.

Lemma keeps_environ_bind {A B} (p : Prog E A) (k : A → Prog E B) :
  keeps_environ p → (∀ a, keeps_environ (k a)) → keeps_environ (bind p k).
Proof.
  intros Hp Hk m. specialize (Hp m). unfold bind.
  destruct (p m) as [[a|e|status] m1]; simpl in *; try done.
  by rewrite (Hk a m1).
Qed.

Lemma keeps_environ_print line : keeps_environ (@print E line).
Proof. done. Qed.

Lemma keeps_environ_write path content :
  keeps_environ (@write_text E path content).
Proof. done. Qed.

Lemma keeps_environ_ret {A} (a : A) : keeps_environ (@ret E A a).
Proof. done. Qed.

Lemma keeps_environ_call {A} (loader : Dotenv.world → E + A) :
  keeps_environ (call loader).
Proof. intros m. unfold call. by destruct (loader _). Qed.

Lemma keeps_environ_with {A} tmpdir (body : Prog E A) :
  keeps_environ body → keeps_environ (with_TemporaryDirectory tmpdir body).
Proof.
  intros Hbody m. unfold with_TemporaryDirectory.
  specialize (Hbody m). by destruct (body m).
Qed.

Lemma keeps_environ_lift {A} (script : Dotenv.Script A) :
  (∀ w, Dotenv.environ (script w).2 = Dotenv.environ w) →
  keeps_environ (@lift E A script).
Proof.
  intros Hkeep m. unfold lift, environ_of. specialize (Hkeep (world m)).
  by destruct (script (world m)).
Qed.

Lemma keeps_environ_set {A} (p : Prog E A) :
  keeps_environ p → keeps_variables_set p.
Proof. intros Hp m key. by rewrite (Hp m). Qed.

Lemma keeps_variables_set_bind {A B} (p : Prog E A) (k : A → Prog E B) :
  keeps_variables_set p → (∀ a, keeps_variables_set (k a)) →
  keeps_variables_set (bind p k).
Proof.
  intros Hp Hk m key Hkey. specialize (Hp m key Hkey). unfold bind.
  destruct (p m) as [[a|e|status] m1]; simpl in *; try done.
  by apply Hk.
Qed.

Lemma keeps_variables_set_with {A} tmpdir (body : Prog E A) :
  keeps_variables_set body →
  keeps_variables_set (with_TemporaryDirectory tmpdir body).
Proof.
  intros Hbody m key Hkey. unfold with_TemporaryDirectory.
  specialize (Hbody m key Hkey). by destruct (body m).
Qed.

Lemma only_prints_more_bind {A B} (p : Prog E A) (k : A → Prog E B) :
  only_prints_more p → (∀ a, only_prints_more (k a)) →
  only_prints_more (bind p k).
Proof.
  intros Hp Hk m. destruct (Hp m) as [l1 Hl1]. unfold bind.
  destruct (p m) as [[a|e|status] m1]; simpl in *; eauto.
  destruct (Hk a m1) as [l2 Hl2]. exists (l1 ++ l2).
  by rewrite Hl2, Hl1, app_assoc.
Qed.

Lemma only_prints_more_print line : only_prints_more (@print E line).
Proof. intros m. by exists [line]. Qed.

Lemma only_prints_more_ret {A} (a : A) : only_prints_more (@ret E A a).
Proof. intros m. exists []. by rewrite app_nil_r. Qed.

Lemma bind_bind {A B C} (p : Prog E A) (f : A → Prog E B)
    (k : B → Prog E C) m :
  bind (bind p f) k m = bind p (λ a, bind (f a) k) m.
Proof. unfold bind. by destruct (p m) as [[a|e|status] m1]. Qed.

Lemma bind_ret {A B} (a : A) (k : A → Prog E B) m : bind (ret a) k m = k a m.
Proof. reflexivity. Qed.

Lemma bind_sys_exit {A B} status (k : A → Prog E B) m :
  bind (sys_exit status) k m = (SysExit status, m).
Proof. reflexivity. Qed.

Lemma bind_import {B} module (k : unit → Prog E B) w l i :
  bind (import module) k (Machine w l i) = k tt (Machine w l (i ++ [module])).
Proof. reflexivity. Qed.

Lemma bind_find_spec {B} installed name (k : bool → Prog E B) w l i :
  bind (find_spec_is_not_None installed name) k (Machine w l i)
  = k (installed name) (Machine w (l ++ [name]) i).
Proof. reflexivity. Qed.

Lemma environ_bind_keeps {A B} (p : Prog E A) (k : A → Prog E B) m :
  (∀ a, keeps_environ (k a)) →
  environ_of (bind p k m).2 = environ_of (p m).2.
Proof.
  intros Hk. unfold bind. destruct (p m) as [[a|e|status] m1]; try done.
  apply Hk.
Qed.

Lemma environ_with {A} tmpdir (body : Prog E A) m :
  environ_of (with_TemporaryDirectory tmpdir body m).2
  = environ_of (body m).2.
Proof. unfold with_TemporaryDirectory. by destruct (body m). Qed.

Lemma keeps_variables_set_lift {A} (script : Dotenv.Script A) :
  (∀ w key, is_Some (Dotenv.environ w !! key) →
            is_Some (Dotenv.environ (script w).2 !! key)) →
  keeps_variables_set (@lift E A script).
Proof.
  intros Hkeep m key Hkey. unfold lift, environ_of in *.
  specialize (Hkeep (world m) key Hkey).
  by destruct (script (world m)).
Qed.

Lemma only_prints_more_lift {A} (script : Dotenv.Script A) :
  (∀ w, ∃ lines, Dotenv.stdout (script w).2 = Dotenv.stdout w ++ lines) →
  only_prints_more (@lift E A script).
Proof.
  intros Hmore m. unfold lift, stdout_of. destruct (Hmore (world m)) as [l Hl].
  exists l. by destruct (script (world m)).
Qed.

Lemma joinpath_inj (tmpdir a b : string) :
  joinpath tmpdir a = joinpath tmpdir b → a = b.
Proof.
  unfold joinpath. induction tmpdir as [|c d IH]; simpl.
  - intros H. by injection H.
  - intros H. injection H as H. by apply IH.
Qed.

Lemma ret_run {A} (a : A) (m : machine) : @ret E A a m = (Value a, m).
Proof. reflexivity. Qed.

Lemma bind_value_run {A B} (p : Prog E A) (k : A → Prog E B) m a m1 :
  p m = (Value a, m1) → bind p k m = k a m1.
Proof. intros H. unfold bind. by rewrite H. Qed.

End PyLaws.

(** ** [config_file_example.py]: the gate, the files, the loads *)

Section ConfigFilesFacts.
Import Text Py ConfigFiles.

Context {E : Type}.
Variable installed : string → bool.

Implicit Types (from_file : string → Dotenv.world → E + config_text).

Local Ltac within_tac :=
  cbv zeta;
  repeat lazymatch goal with
    | |- writes_within _ (bind _ _) => apply writes_within_bind; [|intros ?]
    | |- writes_within _ (print _) => apply writes_within_print
    | |- writes_within _ (ret _) => apply writes_within_ret
    | |- writes_within _ (call _) => apply writes_within_call
    | |- writes_within _ (find_spec_is_not_None _ _) =>
        apply writes_within_find_spec
    | |- writes_within _ (write_text _ _) => apply writes_within_write
    end.

Local Ltac restores_tac :=
  cbv zeta;
  repeat lazymatch goal with
    | |- restores_files _ (bind _ _) => apply restores_files_bind; [|intros ?]
    | |- restores_files _ (print _) => apply restores_files_print
    | |- restores_files _ (ret _) => apply restores_files_ret
    | |- restores_files _ (import _) => apply restores_files_import
    | |- restores_files _ (sys_exit _) => apply restores_files_sys_exit
    | |- restores_files _ (find_spec_is_not_None _ _) =>
        apply restores_files_find_spec
    end.

Local Ltac never_exits_tac :=
  cbv zeta;
  repeat lazymatch goal with
    | |- never_exits (bind _ _) => apply never_exits_bind; [|intros ?]
    | |- never_exits (print _) => apply never_exits_print
    | |- never_exits (ret _) => apply never_exits_ret
    | |- never_exits (call _) => apply never_exits_call
    | |- never_exits (find_spec_is_not_None _ _) =>
        apply never_exits_find_spec
    | |- never_exits (write_text _ _) => apply never_exits_write
    | |- never_exits (with_TemporaryDirectory _ _) => apply never_exits_with
    end.

Local Ltac alike_tac :=
  cbv zeta;
  repeat lazymatch goal with
    | |- alike (bind _ _) (bind _ _) => apply alike_bind; [|intros ?]
    | |- alike (with_TemporaryDirectory _ _) (with_TemporaryDirectory _ _) =>
        apply alike_with
    | |- alike (call _) (call _) => apply alike_call; assumption
    | |- alike (print _) (print _) => apply alike_refl
    | |- alike (write_text _ _) (write_text _ _) => apply alike_refl
    | |- alike (ret _) (ret _) => apply alike_refl
    | |- alike (find_spec_is_not_None _ _) (find_spec_is_not_None _ _) =>
        apply alike_refl
    end.

Local Opaque bind print write_text call lift import find_spec_is_not_None
  sys_exit ret with_TemporaryDirectory.

Lemma load_each_within from_file tmpdir items :
  writes_within tmpdir (load_each from_file tmpdir items).
Proof.
  induction items as [|[env_name content] items IH]; simpl; [done|].
  within_tac. exact IH.
Qed.

Lemma load_each_never_exits from_file tmpdir items :
  never_exits (load_each from_file tmpdir items).
Proof.
  induction items as [|[env_name content] items IH]; simpl; [done|].
  never_exits_tac. exact IH.
Qed.

Lemma config_main_restores_files from_file YAML_AVAILABLE TOML_AVAILABLE tmp :
  restores_files (all_fresh tmp)
    (main installed from_file YAML_AVAILABLE TOML_AVAILABLE tmp).
Proof.
  unfold main, example_json_config, example_yaml_config, example_toml_config,
    example_environment_configs, example_graceful_fallback.
  destruct YAML_AVAILABLE, TOML_AVAILABLE; simpl negb; cbv iota;
    restores_tac;
    (apply with_TemporaryDirectory_restores;
     [by intros fs (? & ? & ? & ?)
     | lazymatch goal with
       | |- writes_within _ (load_each _ _ _) => apply load_each_within
       | |- _ => within_tac
       end]).
Qed.

Lemma config_main_never_exits from_file YAML_AVAILABLE TOML_AVAILABLE tmp :
  never_exits (main installed from_file YAML_AVAILABLE TOML_AVAILABLE tmp).
Proof.
  unfold main, example_json_config, example_yaml_config, example_toml_config,
    example_environment_configs, example_graceful_fallback.
  destruct YAML_AVAILABLE, TOML_AVAILABLE; simpl negb; cbv iota;
    never_exits_tac; apply load_each_never_exits.
Qed.

(** The module gives up exactly when none of yaml, tomllib and tomli can be
    found: then it prints the installation message and ends in
    [sys.exit(1)], with the client configuration module already imported,
    no file touched and no example run.  With a library present and the
    module merely imported, nothing is printed; tomli is looked up only
    when tomllib is missing. *)
Theorem config_gate
    (from_file : string → Dotenv.world → E + config_text)
    (as_main : bool) (tmp : tmpdirs) (m : machine) :
  ((config_file_example installed from_file as_main tmp m).1 = SysExit 1 ↔
   installed "yaml" = false ∧ installed "tomllib" = false ∧
   installed "tomli" = false) ∧
  (installed "yaml" = false → installed "tomllib" = false →
   installed "tomli" = false →
   (config_file_example installed from_file as_main tmp m).2
   = Machine
       (Dotenv.World (environ_of m) (files_of m)
                     (stdout_of m ++ missing_dependencies_message))
       (lookups m ++ ["yaml"; "tomllib"; "tomli"])
       (imported m ++ module_imports)) ∧
  ((installed "yaml" || installed "tomllib" || installed "tomli")%bool = true →
   config_file_example installed from_file false tmp m
   = (Value tt,
      Machine (world m)
              (lookups m ++ "yaml" :: "tomllib"
                 :: (if installed "tomllib" then [] else ["tomli"]))
              (imported m ++ module_imports))).
Proof.
  pose proof (config_main_never_exits from_file) as Hmain.
  assert (∀ b, config_file_example installed from_file b tmp m
               = if (installed "yaml" || installed "tomllib"
                     || installed "tomli")%bool
                 then
                   (if b
                    then main installed from_file (installed "yaml")
                           (installed "tomllib" || installed "tomli") tmp
                    else ret tt)
                     (Machine (world m)
                        (lookups m ++ "yaml" :: "tomllib"
                           :: (if installed "tomllib" then [] else ["tomli"]))
                        (imported m ++ module_imports))
                 else
                   (SysExit 1,
                    Machine
                      (Dotenv.World (environ_of m) (files_of m)
                         (stdout_of m ++ missing_dependencies_message))
                      (lookups m ++ ["yaml"; "tomllib"; "tomli"])
                      (imported m ++ module_imports))) as Hrun.
  { intros b. destruct m as [[env fs out] l i].
    unfold config_file_example, or_else, environ_of, files_of, stdout_of,
      module_imports, missing_dependencies_message.
    cbn [world lookups imported Dotenv.environ Dotenv.files Dotenv.stdout].
    repeat (rewrite bind_import; cbv beta).
    rewrite bind_find_spec. cbv beta.
    rewrite bind_bind, bind_find_spec. cbv beta.
    destruct (installed "yaml") eqn:Hy, (installed "tomllib") eqn:Ht;
      cbv iota;
      first [ rewrite bind_ret | rewrite bind_find_spec ];
      cbv beta; try destruct (installed "tomli") eqn:Hi;
      cbn [negb andb orb]; cbv iota;
      repeat first
        [ rewrite bind_bind | rewrite bind_print | rewrite bind_ret
        | rewrite bind_sys_exit | progress cbv beta ];
      rewrite <- ?app_assoc; try reflexivity. }
  split; [|split].
  - rewrite Hrun.
    destruct (installed "yaml"), (installed "tomllib"), (installed "tomli");
      cbn [orb]; cbv iota;
      (split;
       [ intros Hexit;
         first [ by destruct as_main; [apply Hmain in Hexit|] | done ]
       | first [ by intros (? & ? & ?) | done ] ]).
  - intros Hy Ht Hi. rewrite Hrun, Hy, Ht, Hi. reflexivity.
  - intros Hsome. rewrite Hrun, Hsome. reflexivity.
Qed.

(** No example leaves a file behind: run from a state where the temporary
    directories are new, the whole module, gate and [main], ends with the
    files it found, whether [from_file] returns or raises and whichever
    libraries are installed. *)
Theorem config_examples_leave_no_file
    (from_file : string → Dotenv.world → E + config_text)
    (as_main : bool) (tmp : tmpdirs) (m : machine) :
  all_fresh tmp (files_of m) →
  files_of (config_file_example installed from_file as_main tmp m).2
  = files_of m.
Proof.
  revert m.
  change (restores_files (all_fresh tmp)
            (config_file_example installed from_file as_main tmp)).
  unfold config_file_example, or_else.
  restores_tac.
  - lazymatch goal with |- restores_files _ (if ?b then _ else _) =>
      destruct b end; restores_tac.
  - lazymatch goal with |- restores_files _ (if ?b then _ else _) =>
      destruct b end; restores_tac.
  - destruct as_main; [apply config_main_restores_files|apply restores_files_ret].
Qed.

Lemma example_json_config_fails
    (from_file : string → Dotenv.world → E + config_text)
    (tmpdir : string) env fs out l i (e : E) :
  (∀ w, Dotenv.files w !! joinpath tmpdir "nocodb-config.json"
        = Some json_content →
        from_file (joinpath tmpdir "nocodb-config.json") w = inl e) →
  example_json_config from_file tmpdir (Machine (Dotenv.World env fs out) l i)
  = (Raise e,
     Machine
       (Dotenv.World env
          (outside tmpdir
             (<[joinpath tmpdir "nocodb-config.json" := json_content]> fs))
          (out ++
             [newline +:+ rule;
              "Example 3: JSON Configuration (Built-in)";
              rule;
              "Note: JSON support requires NO extra dependencies!";
              "";
              "JSON Content:";
              dashes;
              json_content;
              dashes;
              ""]))
       l i).
Proof.
  intros Hfail. unfold example_json_config.
  repeat (rewrite bind_print; cbv beta).
  apply bind_raise.
  erewrite with_TemporaryDirectory_run.
  2:{ cbv zeta. rewrite bind_write. cbv beta.
      repeat (rewrite bind_print; cbv beta).
      apply bind_call_raise. apply Hfail.
      cbn [world Dotenv.files]. apply lookup_insert_eq. }
  unfold rmtree, outside. cbn [world lookups imported Dotenv.environ
    Dotenv.files Dotenv.stdout].
  rewrite <- !app_assoc. reflexivity.
Qed.

(** A configuration that cannot be loaded stops [main] at once: when
    [from_file] raises on the JSON file the example wrote, [main] raises the
    same exception, nothing is printed after the JSON listing, and no later
    example runs. *)
Theorem json_load_failure_aborts_main
    (from_file : string → Dotenv.world → E + config_text)
    (YAML_AVAILABLE TOML_AVAILABLE : bool) (tmp : tmpdirs) (m : machine)
    (e : E) :
  (∀ w, Dotenv.files w !! joinpath (tmp_json tmp) "nocodb-config.json"
        = Some json_content →
        from_file (joinpath (tmp_json tmp) "nocodb-config.json") w = inl e) →
  (main installed from_file YAML_AVAILABLE TOML_AVAILABLE tmp m).1 = Raise e ∧
  stdout_of (main installed from_file YAML_AVAILABLE TOML_AVAILABLE tmp m).2
  = stdout_of m ++
    [newline +:+ rule;
     "NOCODB SIMPLE CLIENT - CONFIG FILE EXAMPLES";
     rule;
     "";
     "These examples demonstrate the [config] optional dependency group.";
     "";
     "Installation: pip install 'nocodb-simple-client[config]'";
     "";
     "Dependency status:";
     "  YAML support (PyYAML): "
       +:+ (if YAML_AVAILABLE then "Available" else "Not installed");
     "  TOML support: "
       +:+ (if TOML_AVAILABLE then "Available" else "Not installed");
     newline +:+ rule;
     "Example 3: JSON Configuration (Built-in)";
     rule;
     "Note: JSON support requires NO extra dependencies!";
     "";
     "JSON Content:";
     dashes;
     json_content;
     dashes;
     ""].
Proof.
  intros Hfail. destruct m as [[env fs out] l i].
  unfold main, stdout_of.
  cbn [world Dotenv.stdout].
  repeat (rewrite bind_print; cbv beta).
  rewrite (bind_raise _ _ _ _ _
             (example_json_config_fails from_file _ _ _ _ _ _ e Hfail)).
  cbn [fst snd world Dotenv.stdout]. split; [done|].
  rewrite <- !app_assoc. reflexivity.
Qed.

(** Without PyYAML no YAML file is ever loaded: the run of [main] depends
    on [from_file] only through what it gives for the JSON and the TOML
    file, so two loaders that agree on these two make the same run. *)
Theorem yaml_never_loaded_without_pyyaml
    (from_file1 from_file2 : string → Dotenv.world → E + config_text)
    (TOML_AVAILABLE : bool) (tmp : tmpdirs) (m : machine) :
  (∀ w, from_file1 (joinpath (tmp_json tmp) "nocodb-config.json") w
        = from_file2 (joinpath (tmp_json tmp) "nocodb-config.json") w) →
  (∀ w, from_file1 (joinpath (tmp_toml tmp) "nocodb-config.toml") w
        = from_file2 (joinpath (tmp_toml tmp) "nocodb-config.toml") w) →
  main installed from_file1 false TOML_AVAILABLE tmp m
  = main installed from_file2 false TOML_AVAILABLE tmp m.
Proof.
  intros Hjson Htoml. revert m.
  change (alike (main installed from_file1 false TOML_AVAILABLE tmp)
                (main installed from_file2 false TOML_AVAILABLE tmp)).
  unfold main, example_json_config, example_yaml_config, example_toml_config,
    example_environment_configs, example_graceful_fallback.
  destruct TOML_AVAILABLE; simpl negb; cbv iota; alike_tac.
Qed.

End ConfigFilesFacts.

(** ** [dotenv_example.py]: loading, overriding, the gate *)

Section DotenvLoading.
Import Text Dotenv.

Lemma bindings_cons_some key value (d : dict) :
  Py.bindings ((key, Some value) :: d) = <[key := value]> (Py.bindings d).
Proof. reflexivity. Qed.

Lemma bindings_cons_none key (d : dict) :
  Py.bindings ((key, None) :: d) = Py.bindings d.
Proof. reflexivity. Qed.

Lemma bindings_not_key key (d : dict) :
  key ∉ d.*1 → Py.bindings d !! key = None.
Proof.
  induction d as [|[k [v|]] d IH]; [done|..]; rewrite fmap_cons;
    intros Hnot%not_elem_of_cons; destruct Hnot as [Hne Hnot].
  - rewrite bindings_cons_some, lookup_insert_ne by done. by apply IH.
  - rewrite bindings_cons_none. by apply IH.
Qed.

(** Without [override] the variables already set win over the file. *)
Lemma set_as_environment_variables_keep (d : dict) (w : world) :
  set_as_environment_variables false d w
  = (tt, World (environ w ∪ Py.bindings d) (files w) (stdout w)).
Proof.
  revert w. induction d as [|[key [value|]] d IH]; intros w.
  - simpl. unfold ret. destruct w. simpl. f_equal. f_equal.
    unfold Py.bindings. simpl. by rewrite (right_id_L ∅ (∪)).
  - simpl. unfold bind, env_has, setenv, ret. simpl.
    destruct (bool_decide (is_Some (environ w !! key))) eqn:Hset; simpl.
    + rewrite IH. f_equal. f_equal. rewrite bindings_cons_some.
      apply bool_decide_eq_true in Hset. apply map_eq. intros k.
      rewrite !lookup_union. destruct (decide (k = key)) as [->|Hne].
      * destruct Hset as [x Hx]. rewrite Hx, lookup_insert_eq.
        by destruct (Py.bindings d !! key).
      * by rewrite lookup_insert_ne.
    + rewrite IH. simpl. f_equal. f_equal. rewrite bindings_cons_some.
      apply bool_decide_eq_false in Hset.
      apply eq_None_not_Some in Hset. apply map_eq. intros k.
      rewrite !lookup_union. destruct (decide (k = key)) as [->|Hne].
      * rewrite !lookup_insert_eq, Hset. simpl.
        by destruct (Py.bindings d !! key).
      * by rewrite !lookup_insert_ne.
  - simpl. unfold bind, env_has, ret. simpl.
    destruct (bool_decide (is_Some (environ w !! key))); simpl;
      rewrite IH; by rewrite bindings_cons_none.
Qed.

(** With [override] the file wins over the variables already set. *)
Lemma set_as_environment_variables_override (d : dict) (w : world) :
  NoDup d.*1 →
  set_as_environment_variables true d w
  = (tt, World (Py.bindings d ∪ environ w) (files w) (stdout w)).
Proof.
  revert w. induction d as [|[key [value|]] d IH]; intros w Hnodup.
  - simpl. unfold ret. destruct w. simpl. f_equal. f_equal.
    unfold Py.bindings. simpl. by rewrite (left_id_L ∅ (∪)).
  - rewrite fmap_cons in Hnodup. apply NoDup_cons in Hnodup as [Hnot Hnodup].
    simpl in Hnot.
    simpl. unfold bind, env_has, setenv, ret. simpl.
    rewrite andb_false_r. simpl. rewrite IH by done. simpl.
    f_equal. f_equal. rewrite bindings_cons_some.
    apply map_eq. intros k. rewrite !lookup_union.
    destruct (decide (k = key)) as [->|Hne].
    + rewrite !lookup_insert_eq, (bindings_not_key _ _ Hnot).
      by destruct (environ w !! key).
    + by rewrite !lookup_insert_ne.
  - rewrite fmap_cons in Hnodup. apply NoDup_cons in Hnodup as [Hnot Hnodup].
    simpl. unfold bind, env_has, ret. simpl.
    rewrite andb_false_r. simpl. rewrite IH by done.
    by rewrite bindings_cons_none.
Qed.

Lemma dict_set_keys key value (d : dict) :
  (dict_set key value d).*1 = if bool_decide (key ∈ d.*1) then d.*1
                              else d.*1 ++ [key].
Proof.
  induction d as [|[k v] d IH]; simpl; [done|].
  destruct (String.eqb k key) eqn:Hk.
  - apply String.eqb_eq in Hk as ->. rewrite fmap_cons. simpl.
    rewrite bool_decide_eq_true_2 by left. done.
  - apply String.eqb_neq in Hk. rewrite !fmap_cons. simpl. rewrite IH.
    destruct (bool_decide (key ∈ d.*1)) eqn:Hin.
    + apply bool_decide_eq_true in Hin.
      rewrite bool_decide_eq_true_2 by (by right). done.
    + apply bool_decide_eq_false in Hin.
      rewrite bool_decide_eq_false_2; [done|].
      intros [?|?]%elem_of_cons; [congruence|done].
Qed.

Lemma dict_set_NoDup key value (d : dict) :
  NoDup d.*1 → NoDup (dict_set key value d).*1.
Proof.
  intros Hd. rewrite dict_set_keys.
  destruct (bool_decide (key ∈ d.*1)) eqn:Hin; [done|].
  apply bool_decide_eq_false in Hin.
  apply NoDup_app. split; [done|]. split; [|apply NoDup_singleton].
  intros k Hk ->%list_elem_of_singleton. done.
Qed.

(** A parsed file binds every key once. *)
Lemma parse_dotenv_NoDup content : NoDup (parse_dotenv content).*1.
Proof.
  unfold parse_dotenv.
  generalize (split_on (ascii_of_nat 10) content). intros lines.
  assert (NoDup ([] : dict).*1) as Hnil by constructor.
  revert Hnil. generalize ([] : dict).
  induction lines as [|line lines IH]; intros d Hd; simpl; [done|].
  apply IH. destruct (parse_line line) as [[key value]|]; [|done].
  by apply dict_set_NoDup.
Qed.

Lemma load_dotenv_run path (override : bool) (w : world) :
  load_dotenv path override w
  = (tt,
     World
       (if override
        then Py.bindings (parse_dotenv (default EmptyString (files w !! path)))
             ∪ environ w
        else environ w
             ∪ Py.bindings
                 (parse_dotenv (default EmptyString (files w !! path))))
       (files w) (stdout w)).
Proof.
  unfold load_dotenv, dotenv_values, read_text, bind, ret.
  destruct override.
  - by rewrite set_as_environment_variables_override
      by apply parse_dotenv_NoDup.
  - by rewrite set_as_environment_variables_keep.
Qed.

End DotenvLoading.

(** ** [dotenv_example.py]: the examples and the module *)

Section DotenvExamplesFacts.
Import Text Py DotenvExamples.

Context {E : Type}.
Variable installed : string → bool.

Implicit Types (from_env : Dotenv.world → E + config_text).

Local Ltac keeps_environ_tac :=
  cbv zeta;
  repeat lazymatch goal with
    | |- keeps_environ (bind _ _) => apply keeps_environ_bind; [|intros ?]
    | |- keeps_environ (print _) => apply keeps_environ_print
    | |- keeps_environ (ret _) => apply keeps_environ_ret
    | |- keeps_environ (call _) => apply keeps_environ_call
    | |- keeps_environ (write_text _ _) => apply keeps_environ_write
    | |- keeps_environ (with_TemporaryDirectory _ _) =>
        apply keeps_environ_with
    end.

Local Ltac prints_tac :=
  cbv zeta;
  repeat lazymatch goal with
    | |- only_prints_more (bind _ _) =>
        apply only_prints_more_bind; [|intros ?]
    | |- only_prints_more (print _) => apply only_prints_more_print
    | |- only_prints_more (ret _) => apply only_prints_more_ret
    end.

Local Ltac never_exits_tac :=
  cbv zeta;
  repeat lazymatch goal with
    | |- never_exits (bind _ _) => apply never_exits_bind; [|intros ?]
    | |- never_exits (print _) => apply never_exits_print
    | |- never_exits (ret _) => apply never_exits_ret
    | |- never_exits (call _) => apply never_exits_call
    | |- never_exits (lift _) => apply never_exits_lift
    | |- never_exits (write_text _ _) => apply never_exits_write
    | |- never_exits (with_TemporaryDirectory _ _) => apply never_exits_with
    end.

Local Ltac within_tac :=
  cbv zeta;
  repeat lazymatch goal with
    | |- writes_within _ (bind _ _) => apply writes_within_bind; [|intros ?]
    | |- writes_within _ (print _) => apply writes_within_print
    | |- writes_within _ (ret _) => apply writes_within_ret
    | |- writes_within _ (call _) => apply writes_within_call
    | |- writes_within _ (write_text _ _) => apply writes_within_write
    | |- writes_within _ (lift (Dotenv.load_dotenv _ _)) =>
        apply writes_within_lift; intros ?; by rewrite load_dotenv_run
    | |- writes_within _ (lift (Dotenv.getenv _ _)) =>
        by apply writes_within_lift
    end.

Local Ltac restores_tac :=
  cbv zeta;
  repeat lazymatch goal with
    | |- restores_files _ (bind _ _) => apply restores_files_bind; [|intros ?]
    | |- restores_files _ (print _) => apply restores_files_print
    | |- restores_files _ (ret _) => apply restores_files_ret
    | |- restores_files _ (import _) => apply restores_files_import
    | |- restores_files _ (sys_exit _) => apply restores_files_sys_exit
    | |- restores_files _ (find_spec_is_not_None _ _) =>
        apply restores_files_find_spec
    end.

Lemma basic_env_content_parsed :
  Dotenv.parse_dotenv basic_env_content
  = [("NOCODB_BASE_URL", Some "https://your-nocodb-instance.com");
     ("NOCODB_API_TOKEN", Some "your-api-token-here");
     ("NOCODB_TIMEOUT", Some "60.0");
     ("NOCODB_MAX_RETRIES", Some "3");
     ("NOCODB_DEBUG", Some "false")].
Proof. by vm_compute. Qed.

Lemma basic_bindings_parsed :
  bindings (Dotenv.parse_dotenv basic_env_content) = basic_bindings.
Proof. rewrite basic_env_content_parsed. reflexivity. Qed.

Local Opaque bind print write_text call lift import find_spec_is_not_None
  sys_exit ret with_TemporaryDirectory.

Lemma example_basic_dotenv_environ from_env tmpdir m :
  environ_of (example_basic_dotenv from_env tmpdir m).2
  = environ_of m ∪ basic_bindings.
Proof.
  destruct m as [[env fs out] l i]. unfold example_basic_dotenv.
  repeat (rewrite bind_print; cbv beta).
  rewrite environ_bind_keeps by (intros ?; keeps_environ_tac).
  rewrite environ_with. cbv zeta.
  rewrite bind_write. cbv beta.
  repeat (rewrite bind_print; cbv beta).
  rewrite bind_lift. cbv beta.
  rewrite environ_bind_keeps by (intros ?; keeps_environ_tac).
  rewrite keeps_environ_call.
  rewrite load_dotenv_run. unfold environ_of.
  cbn [world snd Dotenv.environ Dotenv.files].
  rewrite lookup_insert_eq. cbn [default].
  change (id basic_env_content) with basic_env_content.
  by rewrite basic_bindings_parsed.
Qed.

Lemma write_each_run tmpdir (items : list (string * string)) env fs out l i :
  write_each tmpdir items (Machine (Dotenv.World env fs out) l i)
  = (Value tt,
     Machine
       (Dotenv.World env
          (foldl (λ fs item, <[joinpath tmpdir item.1 := item.2]> fs) fs items)
          out)
       l i) :> outcome E unit * machine.
Proof.
  revert fs. induction items as [|[filename content] items IH]; intros fs;
    simpl.
  - apply ret_run.
  - rewrite bind_write. cbv beta. apply IH.
Qed.

(** The files of the three environments, once written. *)
Lemma envs_written tmpdir filename content (fs : gmap string string) :
  (filename, content) ∈ envs →
  foldl (λ fs item, <[joinpath tmpdir item.1 := item.2]> fs) fs envs
    !! joinpath tmpdir filename = Some content.
Proof.
  unfold envs. rewrite !elem_of_cons, elem_of_nil.
  intros [H|[H|[H|[]]]]; injection H as -> ->; cbn [foldl fst snd].
  - rewrite !lookup_insert_ne by (intros H%joinpath_inj; discriminate).
    apply lookup_insert_eq.
  - rewrite lookup_insert_ne by (intros H%joinpath_inj; discriminate).
    apply lookup_insert_eq.
  - apply lookup_insert_eq.
Qed.

Lemma envs_not_written tmpdir filename (fs : gmap string string) :
  (∀ content, (filename, content) ∉ envs) →
  foldl (λ fs item, <[joinpath tmpdir item.1 := item.2]> fs) fs envs
    !! joinpath tmpdir filename = fs !! joinpath tmpdir filename.
Proof.
  intros Hnot. unfold envs in *. cbn [foldl fst snd].
  rewrite !lookup_insert_ne; [done|..];
    intros H%joinpath_inj; subst filename;
    eapply Hnot; rewrite !elem_of_cons; eauto.
Qed.

Lemma split_on_one_component (name : string) :
  one_component name = true → Text.split_on "/" name = [name].
Proof.
  induction name as [|a name IH]; simpl; [done|].
  destruct (Ascii.eqb a "/"); simpl; [done|]. intros Hname.
  by rewrite (IH Hname).
Qed.

(** On a name of one component [pathlib] joins as [joinpath] does. *)
Lemma Path_truediv_one_component (tmpdir name : string) :
  one_component name = true → name ≠ EmptyString → name ≠ "." →
  Path_truediv tmpdir name = joinpath tmpdir name.
Proof.
  intros Hname Hne Hdot. unfold Path_truediv, components.
  rewrite (split_on_one_component _ Hname).
  assert (leading_separators name = 0) as ->.
  { destruct name as [|a name]; [done|]. simpl in *.
    by destruct (Ascii.eqb a "/"). }
  rewrite filter_cons_True by done. reflexivity.
Qed.

Lemma Path_truediv_env (tmpdir app_env : string) :
  one_component app_env = true →
  Path_truediv tmpdir (".env." +:+ app_env)
  = joinpath tmpdir (".env." +:+ app_env).
Proof. intros Hname. by apply Path_truediv_one_component. Qed.

(** What [example_multiple_environments] makes of the environment: the
    bindings of the file that APP_ENV names, over the variables found. *)
Lemma example_multiple_environments_environ from_env tmpdir m :
  environ_of (example_multiple_environments from_env tmpdir m).2
  = bindings
      (Dotenv.parse_dotenv
         (default EmptyString
            (foldl (λ fs item, <[joinpath tmpdir item.1 := item.2]> fs)
                   (files_of m) envs
             !! Path_truediv tmpdir
                  (".env." +:+ default "development"
                                  (environ_of m !! "APP_ENV")))))
    ∪ environ_of m.
Proof.
  destruct m as [[env fs out] l i]. unfold example_multiple_environments.
  repeat (rewrite bind_print; cbv beta).
  rewrite environ_bind_keeps by (intros ?; keeps_environ_tac).
  rewrite environ_with.
  rewrite (bind_value_run _ _ _ _ _ (write_each_run _ _ _ _ _ _ _)).
  repeat (rewrite bind_print; cbv beta).
  rewrite bind_lift. cbv beta zeta.
  cbn [Dotenv.getenv fst snd Dotenv.environ].
  rewrite bind_print. cbv beta.
  rewrite bind_lift. cbv beta.
  rewrite environ_bind_keeps by (intros ?; keeps_environ_tac).
  rewrite keeps_environ_call.
  rewrite load_dotenv_run. unfold environ_of, files_of.
  cbn [world fst snd Dotenv.environ Dotenv.files Dotenv.getenv].
  reflexivity.
Qed.

(** [example_multiple_environments] loads the file that APP_ENV names,
    development when it is unset, and the file wins: after the example the
    environment is the bindings of that file over the variables it found,
    whether [from_env] then returns or raises. *)
Theorem multiple_environments_override
    (from_env : Dotenv.world → E + config_text) (tmpdir : string)
    (m : machine) (content : string) :
  (".env." +:+ default "development" (environ_of m !! "APP_ENV"), content)
    ∈ envs →
  environ_of (example_multiple_environments from_env tmpdir m).2
  = bindings (Dotenv.parse_dotenv content) ∪ environ_of m.
Proof.
  intros Hin. rewrite example_multiple_environments_environ.
  assert (one_component (default "development" (environ_of m !! "APP_ENV"))
          = true) as Hname.
  { revert Hin. generalize (default "development" (environ_of m !! "APP_ENV")).
    intros app_env. unfold envs. rewrite !elem_of_cons, elem_of_nil.
    intros [H|[H|[H|[]]]]; apply (f_equal fst) in H; vm_compute in H;
      by injection H as ->. }
  rewrite (Path_truediv_env _ _ Hname).
  by rewrite (envs_written _ _ _ _ Hin).
Qed.

(** With APP_ENV holding no path separator and naming none of the three
    environments, and a new temporary directory,
    [example_multiple_environments] finds no file to load and leaves the
    environment as it was.  (A value with a separator is outside the
    statement: [pathlib] may normalise the joined path to a file that
    exists, as with a separator after the name of an environment.) *)
Theorem unknown_environment_loads_nothing
    (from_env : Dotenv.world → E + config_text) (tmpdir : string)
    (m : machine) :
  fresh tmpdir (files_of m) →
  one_component (default "development" (environ_of m !! "APP_ENV")) = true →
  (∀ content,
     (".env." +:+ default "development" (environ_of m !! "APP_ENV"), content)
       ∉ envs) →
  environ_of (example_multiple_environments from_env tmpdir m).2
  = environ_of m.
Proof.
  intros Hfresh Hname Hnot. rewrite example_multiple_environments_environ.
  rewrite (Path_truediv_env _ _ Hname).
  rewrite (envs_not_written _ _ _ Hnot).
  rewrite (Hfresh _ (inside_joinpath _ _)). cbn [default].
  change (Dotenv.parse_dotenv EmptyString) with ([] : Dotenv.dict).
  change (bindings []) with (∅ : gmap string string).
  by rewrite (left_id_L ∅ (∪)).
Qed.

(** Without [override] the variables already set win:
    [example_basic_dotenv] leaves every variable it found as it was and
    gives the five variables of its file their value from the file only
    where they were unset, whether [from_env] then returns or raises. *)
Theorem basic_dotenv_keeps_existing_variables
    (from_env : Dotenv.world → E + config_text) (tmpdir : string)
    (m : machine) :
  environ_of (example_basic_dotenv from_env tmpdir m).2
  = environ_of m ∪ basic_bindings ∧
  (∀ key value, environ_of m !! key = Some value →
     environ_of (example_basic_dotenv from_env tmpdir m).2 !! key
     = Some value) ∧
  (∀ key, environ_of m !! key = None →
     environ_of (example_basic_dotenv from_env tmpdir m).2 !! key
     = basic_bindings !! key).
Proof.
  rewrite example_basic_dotenv_environ. split; [done|]. split.
  - intros key value Hkey. by apply lookup_union_Some_l.
  - intros key Hkey. by apply lookup_union_r.
Qed.

Lemma write_each_never_exits tmpdir (items : list (string * string)) :
  never_exits (@write_each E tmpdir items).
Proof.
  intros [[env fs out] l i] status. by rewrite write_each_run.
Qed.

Lemma write_each_within tmpdir (items : list (string * string)) :
  writes_within tmpdir (@write_each E tmpdir items).
Proof.
  intros [[env fs out] l i]. rewrite write_each_run. unfold files_of.
  cbn [snd world Dotenv.files]. revert fs.
  induction items as [|[filename content] items IH]; intros fs; [done|].
  cbn [foldl fst snd]. rewrite IH. apply outside_insert, inside_joinpath.
Qed.

Lemma write_each_keeps_environ tmpdir (items : list (string * string)) :
  keeps_environ (@write_each E tmpdir items).
Proof. intros [[env fs out] l i]. by rewrite write_each_run. Qed.

Lemma dotenv_main_never_exits from_env DOTENV_AVAILABLE tmp :
  never_exits (main from_env DOTENV_AVAILABLE tmp).
Proof.
  unfold main, example_basic_dotenv, example_multiple_environments,
    example_secrets_management, example_dotenv_values,
    example_combined_config, example_docker_cloud.
  never_exits_tac. apply write_each_never_exits.
Qed.

Lemma example_dotenv_values_files tmpdir (w : Dotenv.world) :
  fresh tmpdir (Dotenv.files w) →
  Dotenv.files (Dotenv.example_dotenv_values tmpdir w).2 = Dotenv.files w.
Proof.
  intros Hfresh. rewrite example_dotenv_values_run.
  cbn [snd Dotenv.files]. apply delete_insert_id.
  apply Hfresh. apply (inside_joinpath tmpdir ".env").
Qed.

Lemma dotenv_main_restores_files from_env DOTENV_AVAILABLE tmp :
  restores_files (all_fresh tmp) (main from_env DOTENV_AVAILABLE tmp).
Proof.
  unfold main, example_basic_dotenv, example_multiple_environments,
    example_secrets_management, example_dotenv_values,
    example_combined_config, example_docker_cloud.
  restores_tac.
  - apply with_TemporaryDirectory_restores;
      [by intros fs (? & ? & ?)|within_tac].
  - apply with_TemporaryDirectory_restores;
      [by intros fs (? & ? & ?)|within_tac]. apply write_each_within.
  - apply restores_files_lift. intros w (_ & _ & Hfresh).
    by apply example_dotenv_values_files.
Qed.

(** The module gives up exactly when python-dotenv cannot be found: then it
    prints the installation message and ends in [sys.exit(1)] without
    importing dotenv and without running an example; the configuration
    module of the client is imported before the check in either case.
    With python-dotenv present and the module merely imported, dotenv is
    imported and nothing is printed. *)
Theorem dotenv_gate
    (from_env : Dotenv.world → E + config_text)
    (as_main : bool) (tmp : tmpdirs) (m : machine) :
  ((dotenv_example installed from_env as_main tmp m).1 = SysExit 1 ↔
   installed "dotenv" = false) ∧
  (installed "dotenv" = false →
   (dotenv_example installed from_env as_main tmp m).2
   = Machine
       (Dotenv.World (environ_of m) (files_of m)
                     (stdout_of m ++ missing_dependency_message))
       (lookups m ++ ["dotenv"])
       (imported m ++ early_imports)) ∧
  (installed "dotenv" = true →
   dotenv_example installed from_env false tmp m
   = (Value tt,
      Machine (world m) (lookups m ++ ["dotenv"])
              (imported m ++ early_imports ++ ["dotenv"]))).
Proof.
  pose proof (dotenv_main_never_exits from_env) as Hmain.
  assert (∀ b, dotenv_example installed from_env b tmp m
               = if installed "dotenv"
                 then
                   (if b then main from_env true tmp else ret tt)
                     (Machine (world m) (lookups m ++ ["dotenv"])
                              (imported m ++ early_imports ++ ["dotenv"]))
                 else
                   (SysExit 1,
                    Machine
                      (Dotenv.World (environ_of m) (files_of m)
                         (stdout_of m ++ missing_dependency_message))
                      (lookups m ++ ["dotenv"])
                      (imported m ++ early_imports))) as Hrun.
  { intros b. destruct m as [[env fs out] l i].
    unfold dotenv_example, environ_of, files_of, stdout_of, early_imports,
      missing_dependency_message.
    cbn [world lookups imported Dotenv.environ Dotenv.files Dotenv.stdout].
    repeat (rewrite bind_import; cbv beta).
    rewrite bind_find_spec. cbv beta.
    destruct (installed "dotenv") eqn:Hd; cbn [negb]; cbv iota;
      repeat first
        [ rewrite bind_bind | rewrite bind_print | rewrite bind_ret
        | rewrite bind_import | rewrite bind_sys_exit | progress cbv beta ];
      rewrite <- ?app_assoc; reflexivity. }
  split; [|split].
  - rewrite Hrun. destruct (installed "dotenv"); cbv iota.
    + split; [|done]. intros Hexit.
      destruct as_main; [by apply Hmain in Hexit|done].
    + done.
  - intros Hd. rewrite Hrun, Hd. reflexivity.
  - intros Hd. rewrite Hrun, Hd. reflexivity.
Qed.

(** No example leaves a file behind: run from a state where the temporary
    directories are new, the whole module ends with the files it found,
    whether [from_env] returns or raises. *)
Theorem dotenv_examples_leave_no_file
    (from_env : Dotenv.world → E + config_text)
    (as_main : bool) (tmp : tmpdirs) (m : machine) :
  all_fresh tmp (files_of m) →
  files_of (dotenv_example installed from_env as_main tmp m).2 = files_of m.
Proof.
  revert m.
  change (restores_files (all_fresh tmp)
            (dotenv_example installed from_env as_main tmp)).
  unfold dotenv_example. restores_tac.
  - lazymatch goal with |- restores_files _ (if ?b then _ else _) =>
      destruct b end; restores_tac.
  - destruct as_main; [apply dotenv_main_restores_files|apply restores_files_ret].
Qed.

Lemma basic_bindings_base_url :
  basic_bindings !! "NOCODB_BASE_URL" = Some "https://your-nocodb-instance.com".
Proof. by vm_compute. Qed.

(** In [main] the check of [example_dotenv_values] does not find the
    variable unset: the examples run before it have loaded NOCODB_BASE_URL
    into [os.environ], nothing unsets it, and so whenever [main] completes
    the line printed for [os.environ['NOCODB_BASE_URL']] shows the value the
    variable has at the end of the run. *)
Theorem values_check_sees_loaded_variable
    (from_env : Dotenv.world → E + config_text)
    (DOTENV_AVAILABLE : bool) (tmp : tmpdirs) (m m' : machine) :
  main from_env DOTENV_AVAILABLE tmp m = (Value tt, m') →
  ∃ value,
    environ_of m' !! "NOCODB_BASE_URL" = Some value ∧
    ("os.environ['NOCODB_BASE_URL'] = " +:+ value) ∈ stdout_of m'.
Proof.
  destruct m as [[env fs out] l i]. unfold main.
  repeat (rewrite bind_print; cbv beta). intros H.
  apply bind_value in H as (u1 & m1 & Hbasic & H).
  apply bind_value in H as (u2 & m2 & Hmulti & H).
  apply bind_value in H as (u3 & m3 & Hsecrets & H).
  apply bind_value in H as (u4 & m4 & Hvalues & H).
  (* the variable is set after the first example *)
  assert (is_Some (environ_of m1 !! "NOCODB_BASE_URL")) as Hset1.
  { match type of Hbasic with
    | example_basic_dotenv _ _ ?m0 = _ =>
        pose proof (example_basic_dotenv_environ from_env (tmp_basic tmp) m0)
          as Henv
    end.
    rewrite Hbasic in Henv. cbn [snd] in Henv. rewrite Henv.
    apply lookup_union_is_Some. right.
    rewrite basic_bindings_base_url. by eexists. }
  (* and stays set *)
  assert (is_Some (environ_of m3 !! "NOCODB_BASE_URL")) as [value Hset3].
  { pose proof (example_multiple_environments_environ from_env
                  (tmp_environments tmp) m1) as Henv.
    rewrite Hmulti in Henv. cbn [snd] in Henv.
    assert (keeps_environ (@example_secrets_management E)) as Hkeep
      by (unfold example_secrets_management; keeps_environ_tac).
    specialize (Hkeep m2). rewrite Hsecrets in Hkeep. cbn [snd] in Hkeep.
    rewrite Hkeep, Henv. apply lookup_union_is_Some. by right. }
  (* the fourth example prints it and changes nothing *)
  destruct m3 as [[env3 fs3 out3] l3 i3].
  unfold environ_of in Hset3. cbn [world Dotenv.environ] in Hset3.
  unfold example_dotenv_values in Hvalues.
  rewrite bind_lift, example_dotenv_values_run, ret_run in Hvalues.
  cbn [fst snd Dotenv.environ Dotenv.stdout] in Hvalues.
  rewrite Hset3 in Hvalues. cbn [default] in Hvalues.
  injection Hvalues as _ Hm4. subst m4.
  (* the rest only prints *)
  match type of H with
  | ?rest _ = _ => assert (keeps_environ rest) as Hkeep
  end.
  { unfold example_combined_config, example_docker_cloud.
    keeps_environ_tac. }
  match type of H with
  | ?rest _ = _ => assert (only_prints_more rest) as Hmore
  end.
  { unfold example_combined_config, example_docker_cloud. prints_tac. }
  exists value.
  match type of H with
  | _ ?m4 = _ =>
      specialize (Hkeep m4); destruct (Hmore m4) as [lines Hlines]
  end.
  rewrite H in Hkeep. rewrite H in Hlines.
  cbn [snd] in Hkeep, Hlines.
  split.
  - rewrite Hkeep. exact Hset3.
  - rewrite Hlines. unfold stdout_of. cbn [world Dotenv.stdout].
    apply elem_of_app. left. apply elem_of_app. right.
    do 8 apply list_elem_of_further. apply list_elem_of_here.
Qed.

End DotenvExamplesFacts.

(** ** More on the dependency gate of the async example *)

Section AsyncScriptMore.
Import Text AsyncScript.

(** The lookup of aiofiles is the right operand of [and]: it is made exactly
    when aiohttp was found, after the lookup of aiohttp, which is always
    made.  With both packages present, importing the module prints
    nothing. *)
Theorem aiofiles_looked_up_only_after_aiohttp
    (installed : string → bool) (as_main : bool) :
  SpecLookup "aiohttp" ∈ (async_example installed as_main).1 ∧
  (SpecLookup "aiofiles" ∈ (async_example installed as_main).1
   ↔ installed "aiohttp" = true) ∧
  ((installed "aiohttp" && installed "aiofiles")%bool = true →
   printed_lines (async_example installed false).1 = []).
Proof.
  unfold async_example, and_then, find_spec_is_not_None.
  destruct (installed "aiohttp"), (installed "aiofiles"), as_main;
    cbn [andb]; (split; [|split; [split|]]);
    try discriminate; try (intros _; by vm_compute);
    try (intros _; apply list_elem_of_In; vm_compute;
         repeat (first [by left | right]));
    try (apply list_elem_of_In; vm_compute;
         repeat (first [by left | right]));
    try (intros Hin; apply list_elem_of_In in Hin; vm_compute in Hin;
         repeat (destruct Hin as [Hin|Hin]; [discriminate Hin|]);
         destruct Hin).
Qed.
End AsyncScriptMore.

(** ** Runs of the dispatcher for the properties above *)

Section DispatchMoreRuns.
Import Exceptions Dispatcher Bookkeeping Scenario.

Lemma wide_limit_never_waits_witness :
  let s := LoopState (V:=nat) (E:=RemoteError) 0 []
             [InFlight 0; InFlight 1; InFlight 2] 0 None [0; 1; 2] in
  (length [0; 1; 2] ≤ 3 ∧
   exec insert_ok [0; 1; 2] (gather_init 3 [0; 1; 2]) = Some s) ∧
  waiting s = 0.
Proof.
  intros s. split.
  - split; [simpl; lia|reflexivity].
  - apply (wide_limit_never_waits insert_ok [0; 1; 2] 3 [0; 1; 2] s);
      [simpl; lia|reflexivity].
Defined.

Lemma zero_limit_never_resolves_witness :
  let s := LoopState (V:=nat) (E:=RemoteError) 0 [0; 1]
             [Waiting 0; Waiting 1] 0 None [] in
  ([0; 1] ≠ [] ∧ exec insert_ok [0; 1] (gather_init 0 [0; 1]) = Some s) ∧
  outer s = None ∧
  example_custom_concurrency insert_ok [1; 0] 0 [0; 1] = None.
Proof.
  intros s. split.
  - split; [discriminate|reflexivity].
  - destruct (zero_limit_never_resolves insert_ok [1; 0] [0; 1] [0; 1] s)
      as (Hout & _ & _ & _ & Hnone); [discriminate|reflexivity|].
    split; [exact Hout|exact Hnone].
Defined.

Lemma every_record_sent_once_witness :
  let s := LoopState 1 [] [Done (Success 100); Done (Success 101)] 2
                     (Some (Returned [100; 101])) [0; 1] in
  exec insert_ok [0; 1; 0; 1; 1] (gather_init 1 [0; 1]) = Some s ∧
  issued s ⊆+ [0; 1] ∧
  (outer s = Some (Returned [100; 101]) → issued s ≡ₚ [0; 1]).
Proof.
  intros s.
  destruct (every_record_sent_once insert_ok [0; 1; 0; 1; 1] 1 [0; 1] s)
    as (Hsub & _ & Hperm); [reflexivity|].
  split; [reflexivity|]. split; [exact Hsub|apply Hperm].
Defined.

Lemma returned_means_all_done_witness :
  let s := LoopState 2 [] [Done (Success 100); Done (Success 101)] 2
                     (Some (Returned [100; 101])) [0; 1] in
  (exec insert_ok [0; 1; 1; 0] (gather_init 2 [0; 1]) = Some s ∧
   outer s = Some (Returned [100; 101])) ∧
  semaphore s = 2 ∧ in_flight s = 0 ∧ ready s = [].
Proof.
  intros s. split.
  - split; reflexivity.
  - destruct (returned_means_all_done insert_ok [0; 1; 1; 0] 2 [0; 1] s
                [100; 101]) as (_ & Hsem & Hfly & _ & Hready);
      [reflexivity..|].
    split; [exact Hsem|]. split; [exact Hfly|exact Hready].
Defined.

Lemma first_result_sticks_witness :
  let s := LoopState 1 [] [InFlight 0; Done (Failure AuthenticationFailure)]
                     1 (Some (Raised AuthenticationFailure)) [0; 1] in
  let s' := LoopState 2 [] [Done (Failure NotFound);
                            Done (Failure AuthenticationFailure)] 2
                      (Some (Raised AuthenticationFailure)) [0; 1] in
  (outer s = Some (Raised AuthenticationFailure) ∧
   exec insert_refusing [0] s = Some s') ∧
  outer s' = Some (Raised AuthenticationFailure).
Proof.
  intros s s'. split.
  - split; reflexivity.
  - apply (first_result_sticks insert_refusing [0] s s'); reflexivity.
Defined.


Lemma await_always_resolves_witness :
  1 ≤ 1 ∧
  is_Some (example_custom_concurrency insert_unless_2 [3; 1; 2] 1
             [0; 1; 2; 3]) ∧
  ∃ trace,
    length trace ≤ 3 * length [0; 1; 2; 3] ∧
    exec insert_unless_2 trace (gather_init 1 [0; 1; 2; 3])
    = Some (await_gather insert_unless_2 [3; 1; 2] 1 [0; 1; 2; 3]).
Proof.
  split; [lia|].
  apply (await_always_resolves insert_unless_2 [3; 1; 2] 1 [0; 1; 2; 3]). lia.
Defined.

End DispatchMoreRuns.

(** ** Runs of the scripts for the properties above *)

Section ScriptRuns.
Import Text Py Runs.

Lemma config_examples_leave_no_file_witness :
  ConfigFiles.all_fresh config_tmpdirs (files_of empty_machine) ∧
  files_of (ConfigFiles.config_file_example all_installed from_file_ok true
              config_tmpdirs empty_machine).2
  = files_of empty_machine.
Proof.
  assert (ConfigFiles.all_fresh config_tmpdirs (files_of empty_machine))
    as Hfresh by (repeat split; intros path _; apply lookup_empty).
  split; [exact Hfresh|].
  exact (config_examples_leave_no_file all_installed from_file_ok
           true config_tmpdirs empty_machine Hfresh).
Defined.

Lemma json_load_failure_aborts_main_witness :
  (∀ w,
     Dotenv.files w
       !! joinpath (ConfigFiles.tmp_json config_tmpdirs) "nocodb-config.json"
     = Some ConfigFiles.json_content →
     from_file_refusing
       (joinpath (ConfigFiles.tmp_json config_tmpdirs) "nocodb-config.json") w
     = inl (ValueError "Invalid JSON in config file")) ∧
  (ConfigFiles.main all_installed from_file_refusing true true config_tmpdirs
     empty_machine).1
  = Raise (ValueError "Invalid JSON in config file").
Proof.
  split; [intros w _; reflexivity|].
  apply (json_load_failure_aborts_main all_installed
           from_file_refusing true true config_tmpdirs empty_machine
           (ValueError "Invalid JSON in config file")).
  intros w _. reflexivity.
Defined.

Lemma yaml_never_loaded_without_pyyaml_witness :
  ((∀ w,
      from_file_ok
        (joinpath (ConfigFiles.tmp_json config_tmpdirs) "nocodb-config.json") w
      = from_file_without_yaml
          (joinpath (ConfigFiles.tmp_json config_tmpdirs) "nocodb-config.json")
          w) ∧
   (∀ w,
      from_file_ok
        (joinpath (ConfigFiles.tmp_toml config_tmpdirs) "nocodb-config.toml") w
      = from_file_without_yaml
          (joinpath (ConfigFiles.tmp_toml config_tmpdirs) "nocodb-config.toml")
          w) ∧
   from_file_ok "/tmp/tmpb/nocodb-config.yaml" (world empty_machine)
   ≠ from_file_without_yaml "/tmp/tmpb/nocodb-config.yaml"
       (world empty_machine)) ∧
  ConfigFiles.main all_installed from_file_ok false true config_tmpdirs
    empty_machine
  = ConfigFiles.main all_installed from_file_without_yaml false true
      config_tmpdirs empty_machine.
Proof.
  split.
  - split; [intros w; reflexivity|]. split; [intros w; reflexivity|].
    discriminate.
  - apply (yaml_never_loaded_without_pyyaml all_installed
             from_file_ok from_file_without_yaml true config_tmpdirs
             empty_machine); intros w; reflexivity.
Defined.

Lemma multiple_environments_override_witness :
  (".env." +:+ default "development"
                 (environ_of (machine_with_APP_ENV "staging") !! "APP_ENV"),
   DotenvExamples.staging_env) ∈ DotenvExamples.envs ∧
  environ_of (DotenvExamples.example_multiple_environments from_env_ok
                "/tmp/tmpb" (machine_with_APP_ENV "staging")).2
  = bindings (Dotenv.parse_dotenv DotenvExamples.staging_env)
    ∪ environ_of (machine_with_APP_ENV "staging").
Proof.
  assert ((".env." +:+ default "development"
                 (environ_of (machine_with_APP_ENV "staging") !! "APP_ENV"),
           DotenvExamples.staging_env) ∈ DotenvExamples.envs) as Hin.
  { apply list_elem_of_further, list_elem_of_here. }
  split; [exact Hin|].
  exact (multiple_environments_override from_env_ok "/tmp/tmpb"
           (machine_with_APP_ENV "staging") DotenvExamples.staging_env Hin).
Defined.

Lemma unknown_environment_loads_nothing_witness :
  (fresh "/tmp/tmpb" (files_of (machine_with_APP_ENV "test")) ∧
   one_component
     (default "development"
              (environ_of (machine_with_APP_ENV "test") !! "APP_ENV")) = true ∧
   ∀ content,
     (".env." +:+ default "development"
                    (environ_of (machine_with_APP_ENV "test") !! "APP_ENV"),
      content) ∉ DotenvExamples.envs) ∧
  environ_of (DotenvExamples.example_multiple_environments from_env_ok
                "/tmp/tmpb" (machine_with_APP_ENV "test")).2
  = environ_of (machine_with_APP_ENV "test").
Proof.
  assert (fresh "/tmp/tmpb" (files_of (machine_with_APP_ENV "test")))
    as Hfresh by (intros path _; apply lookup_empty).
  assert (∀ content,
     (".env." +:+ default "development"
                    (environ_of (machine_with_APP_ENV "test") !! "APP_ENV"),
      content) ∉ DotenvExamples.envs) as Hout.
  { intros content Hin.
    change (".env." +:+ default "development"
              (environ_of (machine_with_APP_ENV "test") !! "APP_ENV"))
      with ".env.test" in Hin.
    unfold DotenvExamples.envs in Hin.
    repeat (apply elem_of_cons in Hin as [Hin|Hin]; [discriminate Hin|]).
    by apply elem_of_nil in Hin. }
  split; [split; [exact Hfresh|split; [reflexivity|exact Hout]]|].
  exact (unknown_environment_loads_nothing from_env_ok
           "/tmp/tmpb" (machine_with_APP_ENV "test") Hfresh eq_refl Hout).
Defined.

(** A separator after the name of an environment does not hide its file:
    [pathlib] drops it, and the development file is loaded. *)
Lemma separator_after_the_name_is_dropped :
  Path_truediv "/tmp/tmpb" ".env.development/" = "/tmp/tmpb/.env.development" ∧
  environ_of (DotenvExamples.example_multiple_environments from_env_ok
                "/tmp/tmpb" (machine_with_APP_ENV "development/")).2
    !! "NOCODB_API_TOKEN" = Some "dev-token-12345".
Proof. split; [reflexivity|]. vm_compute. reflexivity. Qed.

Lemma dotenv_examples_leave_no_file_witness :
  DotenvExamples.all_fresh dotenv_tmpdirs (files_of empty_machine) ∧
  files_of (DotenvExamples.dotenv_example all_installed from_env_ok true
              dotenv_tmpdirs empty_machine).2
  = files_of empty_machine.
Proof.
  assert (DotenvExamples.all_fresh dotenv_tmpdirs (files_of empty_machine))
    as Hfresh by (repeat split; intros path _; apply lookup_empty).
  split; [exact Hfresh|].
  exact (dotenv_examples_leave_no_file all_installed
           from_env_ok true dotenv_tmpdirs empty_machine Hfresh).
Defined.

Lemma values_check_sees_loaded_variable_witness :
  let run := DotenvExamples.main from_env_ok true dotenv_tmpdirs
               empty_machine in
  run = (Value tt, run.2) ∧
  ∃ value,
    environ_of run.2 !! "NOCODB_BASE_URL" = Some value ∧
    ("os.environ['NOCODB_BASE_URL'] = " +:+ value) ∈ stdout_of run.2.
Proof.
  intros run.
  assert (run = (Value tt, run.2)) as Hrun.
  { rewrite (surjective_pairing run) at 1. f_equal; reflexivity. }
  split; [exact Hrun|].
  exact (values_check_sees_loaded_variable from_env_ok true dotenv_tmpdirs
           empty_machine run.2 Hrun).
Defined.

End ScriptRuns.
